(** * metro_tiles.py: the tile packer, the column and reorder commands and
      the JSON configuration, embedded and verified.

    The embedding follows [src/metro_tiles.py].  Python integers are [Z],
    Python strings are [string], the occupancy dictionary of the packer and
    the JSON objects are [gmap]s.  Tile objects are mutable and shared
    between [state.tiles], the packer and its result, so they live in a
    store and lists hold references to them. *)

From stdpp Require Import base numbers list list_numbers functions gmap strings fin_maps pretty.
From Stdlib Require Import ZArith Lia.

Local Open Scope string_scope.
Local Open Scope list_scope.
Local Open Scope Z_scope.

(** ** Constants (lines 33-36) *)

Definition DEFAULT_COLUMNS : Z := 4.
Definition CELL_SIZE : Z := 140.
Definition CELL_GAP : Z := 12.

(** ** The dataclasses (lines 53-69), with the types they are annotated with *)

Record Tile := mkTile {
  id : string;
  title : string;
  color : string;
  icon_path : option string;
  action_type : string;
  action_value : string;
  size : string;
  row : Z;
  col : Z
}.

(** [t.row, t.col = r, c] *)
Definition set_row_col (t : Tile) (r c : Z) : Tile :=
  {| id := id t; title := title t; color := color t; icon_path := icon_path t;
     action_type := action_type t; action_value := action_value t;
     size := size t; row := r; col := c |}.

(** References to tile objects, and the store that holds the objects. *)
Definition loc := nat.
Definition store := loc → Tile.

(** ** SIZE_MAP (lines 120-124) *)

Definition SIZE_MAP : gmap string (Z * Z) :=
  <["small" := (1, 1)]> (<["wide" := (1, 2)]> (<["large" := (2, 2)]> ∅)).

(** [SIZE_MAP.get(size, (1,1))] *)
Definition size_span (sz : string) : Z * Z := default (1, 1) (SIZE_MAP !! sz).

(** [TileButton.tile_pixel_size] (lines 138-142): the [QSize(w, h)] as the
    pair [(w, h)]. *)
Definition tile_pixel_size (t : Tile) : Z * Z :=
  let '(r, c) := size_span (size t) in
  let w := c * CELL_SIZE + (c - 1) * CELL_GAP in
  let h := r * CELL_SIZE + (r - 1) * CELL_GAP in
  (w, h).

(** ** The packer (lines 338-368) *)

(** Python's [range(a, b)]. *)
Definition range (a b : Z) : list Z := seqZ a (b - a).

(** [occupancy.get((rr, cc))] taken as a truth value: a missing key gives
    [None], which is false. *)
Definition occupied (occupancy : gmap (Z * Z) bool) (rr cc : Z) : bool :=
  default false (occupancy !! (rr, cc)).

(** Lines 348-355: [ok] after the two nested loops; leaving both loops at the
    first occupied cell is the short-circuit of [forallb]. *)
Definition rect_ok (occupancy : gmap (Z * Z) bool) (r c rspan cspan : Z) : bool :=
  forallb (λ rr, forallb (λ cc, negb (occupied occupancy rr cc)) (range c (c + cspan)))
          (range r (r + rspan)).

(** Lines 357-359: [occupancy[(rr, cc)] = True] over the rectangle. *)
Definition mark_rect (occupancy : gmap (Z * Z) bool) (r c rspan cspan : Z)
  : gmap (Z * Z) bool :=
  foldl (λ occ rr, foldl (λ occ' cc, <[(rr, cc) := true]> occ') occ (range c (c + cspan)))
        occupancy (range r (r + rspan)).

(** Lines 345-360: one pass of [for c in range(columns)] at row [r], over the
    columns [cols] still to try.  [Some (c, occupancy')] is the [return r, c];
    [None] is the loop running to its end. *)
Fixpoint scan_row (occupancy : gmap (Z * Z) bool) (columns r rspan cspan : Z)
    (cols : list Z) : option (Z * gmap (Z * Z) bool) :=
  match cols with
  | [] => None
  | c :: cols' =>
      if bool_decide (c + cspan > columns) then
        scan_row occupancy columns r rspan cspan cols'
      else if rect_ok occupancy r c rspan cspan then
        Some (c, mark_rect occupancy r c rspan cspan)
      else scan_row occupancy columns r rspan cspan cols'
  end.

(** Lines 344-361: [while True] from row [r] on; [fuel] bounds the number of
    rows tried, [None] is fuel running out. *)
Fixpoint first_fit_from (fuel : nat) (occupancy : gmap (Z * Z) bool)
    (columns rspan cspan r : Z) : option (Z * Z * gmap (Z * Z) bool) :=
  match fuel with
  | O => None
  | S fuel' =>
      match scan_row occupancy columns r rspan cspan (range 0 columns) with
      | Some (c, occupancy') => Some (r, c, occupancy')
      | None => first_fit_from fuel' occupancy columns rspan cspan (r + 1)
      end
  end.

(** [first_fit(rspan, cspan)] (lines 342-361), with the occupancy it closes
    over passed in and out. *)
Definition first_fit (fuel : nat) (occupancy : gmap (Z * Z) bool)
    (columns rspan cspan : Z) : option (Z * Z * gmap (Z * Z) bool) :=
  first_fit_from fuel occupancy columns rspan cspan 0.

(** A returned pair [(t, (r, c, rspan, cspan))]. *)
Definition position : Type := loc * (Z * Z * Z * Z).

(** Lines 363-367: the loop over [tiles], threading the store, the occupancy
    and the list of positions built so far. *)
Fixpoint pack_loop (fuel : nat) (columns : Z) (tiles : list loc)
    (σ : store) (occupancy : gmap (Z * Z) bool) (positions : list position)
  : option (store * gmap (Z * Z) bool * list position) :=
  match tiles with
  | [] => Some (σ, occupancy, positions)
  | t :: tiles' =>
      let '(rspan, cspan) := size_span (size (σ t)) in
      match first_fit fuel occupancy columns rspan cspan with
      | None => None
      | Some (r, c, occupancy') =>
          pack_loop fuel columns tiles'
            (<[t := set_row_col (σ t) r c]> σ) occupancy'
            (positions ++ [(t, (r, c, rspan, cspan))])
      end
  end.

(** [TileGrid._pack_tiles(tiles, columns)]: the store after the call and the
    returned list. *)
Definition _pack_tiles (fuel : nat) (σ : store) (tiles : list loc) (columns : Z)
  : option (store * list position) :=
  match pack_loop fuel columns tiles σ ∅ [] with
  | Some (σ', _, positions) => Some (σ', positions)
  | None => None
  end.

(** ** Reordering (lines 378-382 and 409-416) *)

(** [l[k]]: a negative index counts from the end, an index out of range
    raises [IndexError] ([None]). *)
Definition getitem {A} (l : list A) (k : Z) : option A :=
  let n := Z.of_nat (length l) in
  if bool_decide (0 ≤ k < n) then l !! Z.to_nat k
  else if bool_decide (- n ≤ k < 0) then l !! Z.to_nat (n + k)
  else None.

(** [l[k] = x] *)
Definition setitem {A} (l : list A) (k : Z) (x : A) : option (list A) :=
  let n := Z.of_nat (length l) in
  if bool_decide (0 ≤ k < n) then Some (<[Z.to_nat k := x]> l)
  else if bool_decide (- n ≤ k < 0) then Some (<[Z.to_nat (n + k) := x]> l)
  else None.

(** [for i, t in enumerate(...)] from index [i] on. *)
Fixpoint index_of_from (σ : store) (tiles : list loc) (tile : loc) (i : Z) : option Z :=
  match tiles with
  | [] => None
  | t :: tiles' =>
      if bool_decide (id (σ t) = id (σ tile)) then Some i
      else index_of_from σ tiles' tile (i + 1)
  end.

(** [TileGrid._index_of(tile)] on [self.state.tiles]. *)
Definition _index_of (σ : store) (tiles : list loc) (tile : loc) : option Z :=
  index_of_from σ tiles tile 0.

(** [tiles[i], tiles[j] = tiles[j], tiles[i]]: the right-hand side is read
    first, then the two items are stored from left to right. *)
Definition swap_items (tiles : list loc) (i j : Z) : option (list loc) :=
  match getitem tiles j, getitem tiles i with
  | Some tj, Some ti =>
      match setitem tiles i tj with
      | Some tiles' => setitem tiles' j ti
      | None => None
      end
  | _, _ => None
  end.

(** [TileGrid.move_tile(tile, delta)]: the tile list afterwards and whether
    [rebuild()] is called; [None] is an [IndexError]. *)
Definition move_tile (σ : store) (tiles : list loc) (tile : loc) (delta : Z)
  : option (list loc * bool) :=
  match _index_of σ tiles tile with
  | None => Some (tiles, false)
  | Some i =>
      let j := Z.max 0 (Z.min (Z.of_nat (length tiles) - 1) (i + delta)) in
      if bool_decide (i ≠ j) then
        match swap_items tiles i j with
        | Some tiles' => Some (tiles', true)
        | None => None
        end
      else Some (tiles, false)
  end.

(** ** The application state and the column commands *)

Record AppState := mkAppState {
  theme : string;
  columns : Z;
  tiles : option (list loc)
}.

(** [MainWindow._change_columns(delta)] (lines 551-553): the assignment to
    [self.state.columns]; the [rebuild()] that follows does not write it. *)
Definition _change_columns (state : AppState) (delta : Z) : AppState :=
  {| theme := theme state;
     columns := Z.max 2 (Z.min 8 (columns state + delta));
     tiles := tiles state |}.

(** Qt's [QSpinBox], as much as [_open_settings] uses: a value kept inside
    [minimum, maximum] by every setter.  A new box has the range 0..99 and
    the value 0. *)
Record QSpinBox := mkSpin { minimum : Z; maximum : Z; spin_value : Z }.

Definition QSpinBox_new : QSpinBox := mkSpin 0 99 0.

Definition setRange (lo hi : Z) (sb : QSpinBox) : QSpinBox :=
  let hi' := Z.max lo hi in
  mkSpin lo hi' (Z.max lo (Z.min hi' (spin_value sb))).

Definition setValue (v : Z) (sb : QSpinBox) : QSpinBox :=
  mkSpin (minimum sb) (maximum sb) (Z.max (minimum sb) (Z.min (maximum sb) v)).

(** What the user does with the settings dialog: the values entered in the
    spin box one after the other, the theme text left in the combo box, and
    whether the dialog is accepted. *)
Record dialog_run := mkRun {
  spin_edits : list Z;
  theme_text : string;
  accepted : bool
}.

(** [TileGrid._open_settings] (lines 465-491), the state it leaves. *)
Definition _open_settings (state : AppState) (run : dialog_run) : AppState :=
  let col_spin := setValue (columns state) (setRange 2 8 QSpinBox_new) in
  let col_spin := foldl (λ sb v, setValue v sb) col_spin (spin_edits run) in
  if accepted run then
    {| theme := theme_text run; columns := spin_value col_spin; tiles := tiles state |}
  else state.

(** ** Values read from and written to JSON *)

(** What [json.load] can return and [json.dump] accepts.  A real number is
    kept as its literal: the program never looks into one. *)
#[warnings="-register-all"]
Inductive value :=
| VNone
| VBool (b : bool)
| VInt (n : Z)
| VFloat (literal : string)
| VStr (s : string)
| VList (items : list value)
| VDict (entries : gmap string value).

(** A [Tile] instance as the constructor builds it: the call does not
    check the annotations, so a field holds whatever value it was given. *)
Record TileObj := mkTileObj {
  o_id : value;
  o_title : value;
  o_color : value;
  o_icon_path : value;
  o_action_type : value;
  o_action_value : value;
  o_size : value;
  o_row : value;
  o_col : value
}.

(** An [AppState] instance as [load] builds it. *)
Record AppStateObj := mkAppStateObj {
  o_theme : value;
  o_columns : value;
  o_tiles : list TileObj
}.

(** A tile that respects its annotations, as an instance. *)
Definition obj_of_tile (t : Tile) : TileObj :=
  {| o_id := VStr (id t);
     o_title := VStr (title t);
     o_color := VStr (color t);
     o_icon_path := match icon_path t with Some p => VStr p | None => VNone end;
     o_action_type := VStr (action_type t);
     o_action_value := VStr (action_value t);
     o_size := VStr (size t);
     o_row := VInt (row t);
     o_col := VInt (col t) |}.

(** [dataclasses.asdict(t)] *)
Definition asdict (t : TileObj) : gmap string value :=
  <["id" := o_id t]> (<["title" := o_title t]> (<["color" := o_color t]>
  (<["icon_path" := o_icon_path t]> (<["action_type" := o_action_type t]>
  (<["action_value" := o_action_value t]> (<["size" := o_size t]>
  (<["row" := o_row t]> (<["col" := o_col t]> ∅)))))))).

Definition Tile_fields : list string :=
  ["id"; "title"; "color"; "icon_path"; "action_type"; "action_value";
   "size"; "row"; "col"].

(** [Tile] called with the keyword arguments [kw]: a keyword that is no field and a
    missing [id] or [title] raise [TypeError] ([None]); the other fields
    have the defaults of lines 57-63. *)
Definition Tile_of_kwargs (kw : gmap string value) : option TileObj :=
  if bool_decide (dom kw ⊆ list_to_set Tile_fields) then
    match kw !! "id", kw !! "title" with
    | Some i, Some t =>
        Some {| o_id := i;
                o_title := t;
                o_color := default (VStr "#0078D7") (kw !! "color");
                o_icon_path := default VNone (kw !! "icon_path");
                o_action_type := default (VStr "url") (kw !! "action_type");
                o_action_value := default (VStr "") (kw !! "action_value");
                o_size := default (VStr "small") (kw !! "size");
                o_row := default (VInt 0) (kw !! "row");
                o_col := default (VInt 0) (kw !! "col") |}
    | _, _ => None
    end
  else None.

(** [Tile] called with the value [t] unpacked as keywords: [t] must be a mapping. *)
Definition Tile_of_value (t : value) : option TileObj :=
  match t with
  | VDict kw => Tile_of_kwargs kw
  | _ => None
  end.

(** The items a [for] loop draws from a value: the elements of a list, the
    characters of a string, the keys of a dictionary; anything else is not
    iterable ([None]). *)
Definition iterate (v : value) : option (list value) :=
  match v with
  | VList items => Some items
  | VStr s => Some ((λ a, VStr (String a EmptyString)) <$> String.list_ascii_of_string s)
  | VDict entries => Some (VStr <$> (map_to_list entries).*1)
  | _ => None
  end.

(** ** ConfigManager (lines 71-116) *)

(** A path of the file system either cannot be opened ([Blocked]: a
    directory, a file without permission) or is a file with a content. *)
Inductive node (text : Type) :=
| Blocked
| File (content : text).
Arguments Blocked {text}.
Arguments File {text} content.

Section ConfigManager.
(** The [json] module and the platform are not part of the program: the
    content of a file is of some type [text]; [json_loads] is [json.load]
    on a content, [None] when decoding or parsing raises; [json_dumps] is
    the text [json.dump(..., indent=2)] writes; [platform] is
    [sys.platform] and [home] is [os.path.expanduser("~")]. *)
Context {text : Type}.
Variable json_loads : text → option value.
Variable json_dumps : value → text.
Variable platform : string.
Variable home : string.

(** The list [defaults] of [_default_state] (lines 100-115). *)
Definition default_tiles : list Tile :=
  [ mkTile "tile_browser" "Browser" "#0078D7" None
           "url" "https://www.example.com" "wide" 0 0;
    mkTile "tile_docs" "Documents" "#107C10" None
           "file" home "small" 0 0;
    mkTile "tile_cmd" "Notepad" "#D83B01" None
           "command"
           (if String.prefix "win" platform then "notepad"
            else if bool_decide (platform = "darwin") then "open -a TextEdit"
            else "gedit")
           "small" 0 0;
    mkTile "tile_clock" "Clock" "#5C2D91" None
           "builtin" "clock" "large" 0 0;
    mkTile "tile_settings" "Settings" "#FFB900" None
           "builtin" "settings" "small" 0 0 ].

(** [ConfigManager._default_state] (lines 99-116). *)
Definition _default_state : AppStateObj :=
  {| o_theme := VStr "dark";
     o_columns := VInt DEFAULT_COLUMNS;
     o_tiles := obj_of_tile <$> default_tiles |}.

(** [data.get(key, dflt)]: [data] must be a dictionary, any other value
    has no [get] ([AttributeError], [None]). *)
Definition data_get (data : value) (key : string) (dflt : value) : option value :=
  match data with
  | VDict entries => Some (default dflt (entries !! key))
  | _ => None
  end.

(** The body of the [try] (lines 79-86) on an existing path; [None] is an
    exception raised somewhere in it. *)
Definition load_body (n : node text) : option AppStateObj :=
  content ← match n with Blocked => None | File content => Some content end;
  data ← json_loads content;
  tiles_value ← data_get data "tiles" (VList []);
  items ← iterate tiles_value;
  tiles ← mapM Tile_of_value items;
  theme ← data_get data "theme" (VStr "dark");
  columns ← data_get data "columns" (VInt DEFAULT_COLUMNS);
  Some {| o_theme := theme; o_columns := columns; o_tiles := tiles |}.

(** [ConfigManager.load] (lines 75-88) for [self.path = path]. *)
Definition load (fs : gmap string (node text)) (path : string) : AppStateObj :=
  match fs !! path with
  | None => _default_state
  | Some n =>
      match load_body n with
      | Some state => state
      | None => _default_state
      end
  end.

(** The [payload] of [save] (lines 91-95); [state.tiles or []] is the
    empty list for [None]. *)
Definition payload (σ : store) (state : AppState) : gmap string value :=
  <["theme" := VStr (theme state)]>
  (<["columns" := VInt (columns state)]>
  (<["tiles" := VList ((λ t, VDict (asdict (obj_of_tile (σ t))))
                        <$> default [] (tiles state))]> ∅)).

(** [ConfigManager.save] (lines 90-97): the file system afterwards;
    [None] when [open(self.path, "w")] raises. *)
Definition save (σ : store) (fs : gmap string (node text)) (path : string)
    (state : AppState) : option (gmap string (node text)) :=
  match fs !! path with
  | Some Blocked => None
  | _ => Some (<[path := File (json_dumps (VDict (payload σ state)))]> fs)
  end.
End ConfigManager.

(** ** The other commands of the grid and of the window *)

(** [TileGrid.start_drag] (lines 370-376) for [btn.tile = tile]: the tile
    list afterwards and whether [rebuild()] is called; [None] is an
    [IndexError]. *)
Definition start_drag (σ : store) (tiles : list loc) (tile : loc)
  : option (list loc * bool) :=
  match _index_of σ tiles tile with
  | None => Some (tiles, false)
  | Some idx =>
      if bool_decide (idx < Z.of_nat (length tiles) - 1) then
        match swap_items tiles idx (idx + 1) with
        | Some tiles' => Some (tiles', true)
        | None => None
        end
      else Some (tiles, false)
  end.

(** [TileGrid.delete_tile] (lines 430-434); [confirmed] is the answer Yes to
    the question box. *)
Definition delete_tile (confirmed : bool) (σ : store) (tiles : list loc) (tile : loc)
  : list loc * bool :=
  if confirmed then (filter (λ t, id (σ t) ≠ id (σ tile)) tiles, true)
  else (tiles, false).

(** A button of the grid: its tile, the cell rectangle it is added at and
    the pixel size it is fixed to. *)
Record button := mkButton {
  b_tile : loc;
  b_row : Z;
  b_col : Z;
  b_rowspan : Z;
  b_colspan : Z;
  b_size : Z * Z
}.

(** [TileGrid.rebuild] (lines 328-336) on the list [state.tiles]: the store
    and the buttons afterwards.  A button is made after the packer has
    returned, from the tile as the packer left it. *)
Definition rebuild (fuel : nat) (σ : store) (tiles : list loc) (columns : Z)
  : option (store * list button) :=
  match _pack_tiles fuel σ tiles columns with
  | Some (σ', positions) =>
      Some (σ', (λ p : position,
                   let '(t, (r, c, rspan, cspan)) := p in
                   mkButton t r c rspan cspan (tile_pixel_size (σ' t)))
                <$> positions)
  | None => None
  end.

(** A reference no live object has: one more than the largest of them. *)
Definition fresh_loc (live : list loc) : loc := S (foldr Nat.max 0%nat live).

(** The id given to a new tile, [f"tile_{int(time.time())}"], with [now] the
    time in whole seconds. *)
Definition tile_id (now : Z) : string := "tile_" +:+ pretty now.

(** [t.id = i] *)
Definition set_id (t : Tile) (i : string) : Tile :=
  {| id := i; title := title t; color := color t; icon_path := icon_path t;
     action_type := action_type t; action_value := action_value t;
     size := size t; row := row t; col := col t |}.

Definition as_str (v : value) : option string :=
  match v with VStr s => Some s | _ => None end.

Definition as_int (v : value) : option Z :=
  match v with VInt n => Some n | _ => None end.

Definition as_opt_str (v : value) : option (option string) :=
  match v with VNone => Some None | VStr s => Some (Some s) | _ => None end.

(** An instance whose fields respect the annotations, read as a [Tile];
    [None] for an instance that does not respect them. *)
Definition tile_of_obj (o : TileObj) : option Tile :=
  i ← as_str (o_id o);
  ti ← as_str (o_title o);
  c ← as_str (o_color o);
  ip ← as_opt_str (o_icon_path o);
  aty ← as_str (o_action_type o);
  av ← as_str (o_action_value o);
  sz ← as_str (o_size o);
  r ← as_int (o_row o);
  cl ← as_int (o_col o);
  Some (mkTile i ti c ip aty av sz r cl).

(** Lines 425-427 of [duplicate_tile], the statements before [rebuild()]:
    the copy is built by the constructor from [asdict(tile)], gets a new id
    and is appended.  The store and the tile list at that point; [None] is
    the constructor raising. *)
Definition duplicate_tile_append (now : Z) (σ : store) (tiles : list loc) (tile : loc)
  : option (store * list loc) :=
  o ← Tile_of_kwargs (asdict (obj_of_tile (σ tile)));
  t ← tile_of_obj o;
  let l := fresh_loc (tile :: tiles) in
  Some (<[l := set_id t (tile_id now)]> σ, tiles ++ [l]).

(** [TileGrid.duplicate_tile] (lines 424-428): the copy is appended and the
    grid is rebuilt.  The store, the tile list and the buttons the method
    leaves; [None] when the copy cannot be built or the packer runs out of
    fuel. *)
Definition duplicate_tile (fuel : nat) (now : Z) (σ : store) (tiles : list loc)
    (tile : loc) (columns : Z) : option (store * list loc * list button) :=
  match duplicate_tile_append now σ tiles tile with
  | Some (σ1, tiles1) =>
      match rebuild fuel σ1 tiles1 columns with
      | Some (σ', buttons) => Some (σ', tiles1, buttons)
      | None => None
      end
  | None => None
  end.

(** The texts in the widgets of the editor dialog when it is accepted. *)
Record editor_form := mkForm {
  title_text : string;
  color_text : string;
  size_text : string;
  icon_text : string;
  action_text : string;
  value_text : string
}.

(** The tile a [TileEditor] works on (line 203): the one it is given, or a
    new one. *)
Definition editor_tile (now : Z) (tile : option Tile) : Tile :=
  match tile with
  | Some t => t
  | None => mkTile (tile_id now) "New Tile" "#0078D7" None "url" "" "small" 0 0
  end.

(** [TileEditor.get_tile] (lines 289-296); [strip] is [str.strip]. *)
Definition get_tile (strip : string → string) (form : editor_form) (t : Tile) : Tile :=
  {| id := id t;
     title := if decide (strip (title_text form) = "") then "Tile"
              else strip (title_text form);
     color := color_text form;
     icon_path := if decide (strip (icon_text form) = "") then None
                  else Some (strip (icon_text form));
     action_type := action_text form;
     action_value := strip (value_text form);
     size := size_text form;
     row := row t;
     col := col t |}.


(** Lines 540-543 of [add_tile] for an accepted dialog, the statements
    before [rebuild()]: the editor makes a new tile, the form is written
    into it and it is appended. *)
Definition add_tile_append (now : Z) (strip : string → string) (form : editor_form)
    (σ : store) (tiles : list loc) : store * list loc :=
  let l := fresh_loc tiles in
  (<[l := get_tile strip form (editor_tile now None)]> σ, tiles ++ [l]).

(** [MainWindow.add_tile] (lines 539-544): the new tile is appended and
    the grid is rebuilt.  The store, the tile list and the new buttons the
    method leaves ([None] for the buttons when nothing is rebuilt); the
    result is [None] when the packer runs out of fuel. *)
Definition add_tile (fuel : nat) (accepted_dialog : bool) (now : Z)
    (strip : string → string) (form : editor_form) (σ : store) (tiles : list loc)
    (columns : Z) : option (store * list loc * option (list button)) :=
  if accepted_dialog then
    let '(σ1, tiles1) := add_tile_append now strip form σ tiles in
    match rebuild fuel σ1 tiles1 columns with
    | Some (σ', buttons) => Some (σ', tiles1, Some buttons)
    | None => None
    end
  else Some (σ, tiles, None).

(** What [activate_tile] asks the platform to do. *)
Inductive effect :=
| Nothing
| OpenBrowser (url : string)
| StartFile (path : string)
| Spawn (argv : list string)
| SpawnShell (command : string) (executable : option string)
| SettingsDialog.

(** [TileGrid.activate_tile] (lines 436-463). *)
Definition activate_tile (platform : string) (t : Tile) : effect :=
  if decide (action_type t = "url") then
    if decide (action_value t = "") then Nothing else OpenBrowser (action_value t)
  else if decide (action_type t = "file") then
    if decide (action_value t = "") then Nothing
    else if String.prefix "win" platform then StartFile (action_value t)
    else if decide (platform = "darwin") then Spawn ["open"; action_value t]
    else Spawn ["xdg-open"; action_value t]
  else if decide (action_type t = "command") then
    if decide (action_value t = "") then Nothing
    else if String.prefix "win" platform then SpawnShell (action_value t) None
    else SpawnShell (action_value t) (Some "/bin/bash")
  else if decide (action_type t = "builtin") then
    if decide (action_value t = "settings") then SettingsDialog
    else Nothing
  else Nothing.

(** The two style sheets of [apply_theme] (lines 493-505). *)
Inductive stylesheet := DarkSheet | LightSheet.

Definition apply_theme (th : string) : stylesheet :=
  if decide (th = "dark") then DarkSheet else LightSheet.

(** [MainWindow.toggle_theme] (lines 546-549), the state it leaves. *)
Definition toggle_theme (state : AppState) : AppState :=
  {| theme := if decide (theme state = "dark") then "light" else "dark";
     columns := columns state;
     tiles := tiles state |}.

(** [MainWindow._auto_save] (lines 555-559): a failing [save] is reported
    and the file system stays as it is. *)
Definition _auto_save {text : Type} (json_dumps : value → text) (σ : store)
    (fs : gmap string (node text)) (path : string) (state : AppState)
  : gmap string (node text) :=
  match save json_dumps σ fs path state with
  | Some fs' => fs'
  | None => fs
  end.

(** ** Specification vocabulary for the packer *)

(** The cell [(rr, cc)] lies in the rectangle [(r, c, rspan, cspan)]. *)
Definition covers (p : Z * Z * Z * Z) (rr cc : Z) : Prop :=
  let '(r, c, rspan, cspan) := p in r ≤ rr < r + rspan ∧ c ≤ cc < c + cspan.

(** The cell is covered by one of the rectangles placed so far. *)
Definition taken (placed : list (Z * Z * Z * Z)) (rr cc : Z) : Prop :=
  ∃ p, p ∈ placed ∧ covers p rr cc.

(** A rectangle of the given spans fits at [(r, c)]: the column is one of
    [range(columns)], the rectangle ends inside the grid and none of its
    cells is taken. *)
Definition fits (columns : Z) (placed : list (Z * Z * Z * Z))
    (rspan cspan r c : Z) : Prop :=
  0 ≤ c < columns ∧ c + cspan ≤ columns ∧
  ∀ rr cc, covers (r, c, rspan, cspan) rr cc → ¬ taken placed rr cc.

(** [(r, c)] is the first fit in row-major order: it fits, and every
    position that fits is in a later row, or in the same row at the same or
    a later column. *)
Definition first_fit_position (columns : Z) (placed : list (Z * Z * Z * Z))
    (rspan cspan r c : Z) : Prop :=
  0 ≤ r ∧ fits columns placed rspan cspan r c ∧
  ∀ r' c', 0 ≤ r' → fits columns placed rspan cspan r' c' →
           r < r' ∨ (r = r' ∧ c ≤ c').

(** The occupancy dictionary marks exactly the cells of the rectangles
    placed so far. *)
Definition occ_agrees (occupancy : gmap (Z * Z) bool)
    (placed : list (Z * Z * Z * Z)) : Prop :=
  ∀ rr cc, occupied occupancy rr cc = true ↔ taken placed rr cc.

(** Every marked cell is in a row below [h]. *)
Definition occ_below (occupancy : gmap (Z * Z) bool) (h : Z) : Prop :=
  ∀ rr cc, occupied occupancy rr cc = true → rr < h.

(** Two tiles agree on every field but [row] and [col]. *)
Definition same_but_position (t t' : Tile) : Prop :=
  id t' = id t ∧ title t' = title t ∧ color t' = color t ∧
  icon_path t' = icon_path t ∧ action_type t' = action_type t ∧
  action_value t' = action_value t ∧ size t' = size t.

(** The column span [SIZE_MAP] gives a tile. *)
Definition colspan (t : Tile) : Z := (size_span (size t)).2.

(** The test the column loop applies to a column [c] of row [r]. *)
Definition candidate (occupancy : gmap (Z * Z) bool)
    (columns rspan cspan r c : Z) : Prop :=
  c + cspan ≤ columns ∧ rect_ok occupancy r c rspan cspan = true.

(** The position [p] is the one the packer has to give its tile when the
    positions [before] were given first: the spans are those of the tile's
    size, and the place is the first fit among the rectangles of [before]. *)
Definition placed_first_fit (σ : store) (columns : Z) (before : list position)
    (p : position) : Prop :=
  let '(t, (r, c, rspan, cspan)) := p in
  (rspan, cspan) = size_span (size (σ t)) ∧
  first_fit_position columns (before.*2) rspan cspan r c.

(** ** Sample data for the worked instances *)

(** A store whose objects 0 to 4 are the five default tiles (on Linux, with
    the home directory [/home/u]); every other reference holds a small
    placeholder. *)
Definition demo_store : store := λ l,
  default (mkTile "tile_x" "Tile" "#0078D7" None "url" "" "small" 0 0)
          (default_tiles "linux" "/home/u" !! l).

(** The positions the packer gives these five tiles in four columns. *)
Definition demo_positions : list position :=
  [ (0%nat, (0, 0, 1, 2)); (1%nat, (0, 2, 1, 1)); (2%nat, (0, 3, 1, 1));
    (3%nat, (1, 0, 2, 2)); (4%nat, (1, 2, 1, 1)) ].

(** A store in which every object has the same id, as tiles made within
    one second have (the id is [tile_] followed by the time in seconds);
    only the titles differ. *)
Definition twin_store : store := λ l,
  mkTile "tile_1700000000" (if decide (l = 0%nat) then "First" else "Second")
         "#0078D7" None "url" "" "small" 0 0.



(** A state to save: the light theme, six columns, the browser and the
    clock tile of [demo_store]. *)
Definition demo_state : AppState := mkAppState "light" 6 (Some [0; 3]%nat).

(** A parsed configuration that names a theme and one tile and leaves the
    column count out. *)
Definition demo_document : value :=
  VDict (<["theme" := VStr "light"]>
         (<["tiles" := VList [VDict (<["id" := VStr "a"]> (<["title" := VStr "A"]> ∅))]]> ∅)).

(** A stand-in for [json.load] on three file contents: the document above,
    a JSON list, and everything else, which does not parse. *)
Definition demo_loads (content : string) : option value :=
  if decide (content = "config") then Some demo_document
  else if decide (content = "[]") then Some (VList [])
  else None.

(** A file system with the configuration at [config.json]. *)
Definition demo_fs : gmap string (node string) :=
  <["config.json" := File "config"]> (<["list.json" := File "[]"]> (<["dir" := Blocked]> ∅)).

(** The reorder in the words of the specification: the tile at index [k]
    changes places with the element at the index [k + delta] clamped to the
    indices of the list (nothing moves when the two indices are equal). *)
Definition swap_with_clamped (tiles : list loc) (k : nat) (delta : Z) : list loc :=
  let j := Z.to_nat (Z.max 0 (Z.min (Z.of_nat (length tiles) - 1) (Z.of_nat k + delta))) in
  match tiles !! k, tiles !! j with
  | Some tk, Some tj => <[j := tk]> (<[k := tj]> tiles)
  | _, _ => tiles
  end.

(** * Proofs *)

(** ** Ranges, the free test and marking *)

Lemma elem_of_range a b k : k ∈ range a b ↔ a ≤ k < b.
Proof. unfold range. rewrite elem_of_seqZ. lia. Qed.

Lemma rect_ok_true (occupancy : gmap (Z * Z) bool) (r c rspan cspan : Z) :
  rect_ok occupancy r c rspan cspan = true ↔
  ∀ rr cc, covers (r, c, rspan, cspan) rr cc → occupied occupancy rr cc = false.
Proof.
  unfold rect_ok, covers. rewrite forallb_forall. split.
  - intros H rr cc [Hr Hc].
    specialize (H rr). rewrite <- list_elem_of_In, elem_of_range in H.
    specialize (H Hr). rewrite forallb_forall in H.
    specialize (H cc). rewrite <- list_elem_of_In, elem_of_range in H.
    apply negb_true_iff, H, Hc.
  - intros H rr Hr. rewrite <- list_elem_of_In, elem_of_range in Hr.
    apply forallb_forall. intros cc Hc.
    rewrite <- list_elem_of_In, elem_of_range in Hc.
    apply negb_true_iff, H. done.
Qed.

Lemma mark_row_lookup (occupancy : gmap (Z * Z) bool) (rr : Z) (cols : list Z)
    (k : Z * Z) :
  foldl (λ occ' cc, <[(rr, cc) := true]> occ') occupancy cols !! k =
  if bool_decide (k.1 = rr ∧ k.2 ∈ cols) then Some true else occupancy !! k.
Proof.
  revert occupancy. induction cols as [|c cols IH]; intros occupancy; simpl.
  - case_bool_decide as H; [|done]. destruct H as [_ H]. by apply elem_of_nil in H.
  - rewrite IH. destruct k as [kr kc]; simpl.
    rewrite lookup_insert. clear IH.
    destruct (decide ((rr, c) = (kr, kc))) as [Heq|Hne].
    + injection Heq as <- <-.
      rewrite (bool_decide_eq_true_2 (rr = rr ∧ c ∈ c :: cols));
        [|split; [done|set_solver]].
      by destruct (bool_decide (rr = rr ∧ c ∈ cols)).
    + rewrite (bool_decide_ext (kr = rr ∧ kc ∈ c :: cols) (kr = rr ∧ kc ∈ cols));
        [done|].
      rewrite elem_of_cons. split; [|tauto].
      intros [-> [->|?]]; [done|tauto].
Qed.

Lemma mark_rect_lookup (occupancy : gmap (Z * Z) bool) (r c rspan cspan rr cc : Z) :
  mark_rect occupancy r c rspan cspan !! (rr, cc) =
  if bool_decide (r ≤ rr < r + rspan ∧ c ≤ cc < c + cspan) then Some true
  else occupancy !! (rr, cc).
Proof.
  unfold mark_rect.
  assert (∀ (rows : list Z) (occ : gmap (Z * Z) bool),
    foldl (λ occ rr, foldl (λ occ' cc, <[(rr, cc) := true]> occ') occ
                       (range c (c + cspan))) occ rows !! (rr, cc) =
    if bool_decide (rr ∈ rows ∧ c ≤ cc < c + cspan) then Some true
    else occ !! (rr, cc)) as Hrows.
  { induction rows as [|x rows IH]; intros occ; simpl.
    - done.
    - rewrite IH, mark_row_lookup. simpl. clear IH.
      pose proof (elem_of_cons rows rr x) as Hcons.
      pose proof (elem_of_range c (c + cspan) cc) as Hcc.
      repeat case_bool_decide; try done; exfalso; tauto. }
  rewrite Hrows.
  pose proof (elem_of_range r (r + rspan) rr) as Hrr.
  repeat case_bool_decide; try done; exfalso; tauto.
Qed.

Lemma occupied_mark_rect (occupancy : gmap (Z * Z) bool) (r c rspan cspan rr cc : Z) :
  occupied (mark_rect occupancy r c rspan cspan) rr cc = true ↔
  covers (r, c, rspan, cspan) rr cc ∨ occupied occupancy rr cc = true.
Proof.
  unfold occupied, covers. rewrite mark_rect_lookup.
  case_bool_decide; simpl; [tauto|]. tauto.
Qed.

(** ** One row of the scan, and the scan over the rows *)

Lemma range_unfold a b :
  range a b = if decide (a < b) then a :: range (a + 1) b else [].
Proof.
  unfold range. case_decide.
  - rewrite seqZ_cons by lia. do 2 f_equal; lia.
  - by rewrite seqZ_nil by lia.
Qed.

Lemma scan_row_step (occupancy : gmap (Z * Z) bool) columns r rspan cspan c cols :
  scan_row occupancy columns r rspan cspan (c :: cols) =
  if decide (candidate occupancy columns rspan cspan r c)
  then Some (c, mark_rect occupancy r c rspan cspan)
  else scan_row occupancy columns r rspan cspan cols.
Proof.
  simpl. unfold candidate.
  case_bool_decide; case_decide; try done.
  - lia.
  - destruct (rect_ok occupancy r c rspan cspan) eqn:E; [done|].
    exfalso. destruct H0 as [_ H0]. done.
  - destruct (rect_ok occupancy r c rspan cspan) eqn:E; [|done].
    exfalso. apply H0. split; [lia|done].
Qed.

Lemma scan_row_range_Some (occupancy : gmap (Z * Z) bool) columns r rspan cspan n :
  ∀ a b c occupancy',
    n = Z.to_nat (b - a) →
    scan_row occupancy columns r rspan cspan (range a b) = Some (c, occupancy') →
    a ≤ c < b ∧ candidate occupancy columns rspan cspan r c ∧
    occupancy' = mark_rect occupancy r c rspan cspan ∧
    ∀ c', a ≤ c' < c → ¬ candidate occupancy columns rspan cspan r c'.
Proof.
  induction n as [|n IH]; intros a b c occupancy' Hn; rewrite range_unfold;
    case_decide; try done; try lia.
  rewrite scan_row_step. case_decide as Hc.
  - intros [= <- <-].
    split; [lia|]. split; [done|]. split; [done|]. intros c' Hc'. lia.
  - intros Hrest. apply IH in Hrest; [|lia].
    destruct Hrest as (Hb & Hcand & Hocc & Hmin).
    split; [lia|]. split; [done|]. split; [done|].
    intros c' Hc'. destruct (decide (c' = a)) as [->|]; [done|].
    apply Hmin. lia.
Qed.

Lemma scan_row_range_None (occupancy : gmap (Z * Z) bool) columns r rspan cspan n :
  ∀ a b,
    n = Z.to_nat (b - a) →
    scan_row occupancy columns r rspan cspan (range a b) = None →
    ∀ c', a ≤ c' < b → ¬ candidate occupancy columns rspan cspan r c'.
Proof.
  induction n as [|n IH]; intros a b Hn; rewrite range_unfold;
    case_decide; try done; try lia.
  rewrite scan_row_step. case_decide as Hc; [done|].
  intros Hrest c' Hc'. destruct (decide (c' = a)) as [->|]; [done|].
  eapply IH; [|done|]; lia.
Qed.

Lemma first_fit_from_spec (occupancy : gmap (Z * Z) bool) columns rspan cspan fuel :
  ∀ r0 r c occupancy',
    first_fit_from fuel occupancy columns rspan cspan r0 = Some (r, c, occupancy') →
    r0 ≤ r ∧ 0 ≤ c < columns ∧ candidate occupancy columns rspan cspan r c ∧
    occupancy' = mark_rect occupancy r c rspan cspan ∧
    ∀ r' c', r0 ≤ r' → 0 ≤ c' < columns →
             candidate occupancy columns rspan cspan r' c' →
             r < r' ∨ (r = r' ∧ c ≤ c').
Proof.
  induction fuel as [|fuel IH]; intros r0 r c occupancy'; simpl; [done|].
  destruct (scan_row occupancy columns r0 rspan cspan (range 0 columns))
    as [[c0 occ0]|] eqn:Hscan.
  - intros [= <- <- <-].
    eapply scan_row_range_Some in Hscan; [|done].
    destruct Hscan as (Hb & Hcand & Hocc & Hmin).
    split; [lia|]. split; [lia|]. split; [done|]. split; [done|].
    intros r' c' Hr' Hc' Hcand'.
    destruct (decide (r0 = r')) as [<-|]; [|lia].
    right. split; [done|].
    destruct (decide (c0 ≤ c')); [done|]. exfalso. apply (Hmin c'); [lia|done].
  - intros Hrec. apply IH in Hrec.
    destruct Hrec as (Hr & Hb & Hcand & Hocc & Hmin).
    split; [lia|]. split; [lia|]. split; [done|]. split; [done|].
    intros r' c' Hr' Hc' Hcand'.
    destruct (decide (r0 = r')) as [<-|]; [|apply Hmin; [lia|done..]].
    exfalso. eapply scan_row_range_None in Hscan; [by apply Hscan|done|lia].
Qed.

(** More fuel does not change a result. *)
Lemma first_fit_from_fuel_mono (occupancy : gmap (Z * Z) bool) columns rspan cspan fuel :
  ∀ fuel' r0 res,
    first_fit_from fuel occupancy columns rspan cspan r0 = Some res →
    (fuel ≤ fuel')%nat →
    first_fit_from fuel' occupancy columns rspan cspan r0 = Some res.
Proof.
  induction fuel as [|fuel IH]; intros fuel' r0 res; simpl; [done|].
  intros Hres Hle. destruct fuel' as [|fuel']; [lia|]. simpl.
  destruct (scan_row occupancy columns r0 rspan cspan (range 0 columns))
    as [[c0 occ0]|]; [done|].
  apply IH; [done|lia].
Qed.

(** If some column of row [r1] passes the test, the scan started at an
    earlier row returns once it has fuel for the rows up to [r1]. *)
Lemma first_fit_from_total (occupancy : gmap (Z * Z) bool) columns rspan cspan r1 c1 :
  0 ≤ c1 < columns →
  candidate occupancy columns rspan cspan r1 c1 →
  ∀ fuel r0,
    r0 ≤ r1 → (Z.to_nat (r1 - r0) < fuel)%nat →
    is_Some (first_fit_from fuel occupancy columns rspan cspan r0).
Proof.
  intros Hc1 Hcand. induction fuel as [|fuel IH]; intros r0 Hr0 Hfuel; [lia|].
  simpl.
  destruct (scan_row occupancy columns r0 rspan cspan (range 0 columns))
    as [[c0 occ0]|] eqn:Hscan; [by eexists|].
  destruct (decide (r0 = r1)) as [->|].
  - exfalso. eapply scan_row_range_None in Hscan; [by apply Hscan|done|lia].
  - apply IH; lia.
Qed.

(** ** The occupancy dictionary against the rectangles placed *)

Lemma taken_app placed p rr cc :
  taken (placed ++ [p]) rr cc ↔ taken placed rr cc ∨ covers p rr cc.
Proof.
  unfold taken. split.
  - intros (q & Hq & Hcov). apply elem_of_app in Hq as [Hq|Hq].
    + left. eauto.
    + apply list_elem_of_singleton in Hq as ->. by right.
  - intros [(q & Hq & Hcov)|Hcov].
    + exists q. split; [|done]. apply elem_of_app. by left.
    + exists p. split; [|done]. apply elem_of_app. right. by apply list_elem_of_singleton.
Qed.

Lemma occ_agrees_empty : occ_agrees ∅ [].
Proof.
  intros rr cc. unfold occupied, taken. rewrite lookup_empty. simpl. split; [done|].
  intros (p & Hp & _). by apply elem_of_nil in Hp.
Qed.

Lemma occ_agrees_mark (occupancy : gmap (Z * Z) bool) placed r c rspan cspan :
  occ_agrees occupancy placed →
  occ_agrees (mark_rect occupancy r c rspan cspan) (placed ++ [(r, c, rspan, cspan)]).
Proof.
  intros Hagree rr cc. specialize (Hagree rr cc).
  rewrite occupied_mark_rect, taken_app. tauto.
Qed.

Lemma candidate_fits (occupancy : gmap (Z * Z) bool) placed columns rspan cspan r c :
  occ_agrees occupancy placed →
  (0 ≤ c < columns ∧ candidate occupancy columns rspan cspan r c) ↔
  fits columns placed rspan cspan r c.
Proof.
  intros Hagree. unfold candidate, fits. rewrite rect_ok_true.
  assert (∀ rr cc, occupied occupancy rr cc = false ↔ ¬ taken placed rr cc) as Hfree.
  { intros rr cc. specialize (Hagree rr cc).
    destruct (occupied occupancy rr cc); split; try done.
    - intros Hno. exfalso. by apply Hno, Hagree.
    - intros _ Htaken. by apply Hagree in Htaken. }
  split.
  - intros (Hc & Hend & Hok). split; [done|]. split; [done|].
    intros rr cc Hcov. apply Hfree, Hok, Hcov.
  - intros (Hc & Hend & Hok). split; [done|]. split; [done|].
    intros rr cc Hcov. apply Hfree, Hok, Hcov.
Qed.

Lemma first_fit_correct (occupancy : gmap (Z * Z) bool) placed fuel columns
    rspan cspan r c occupancy' :
  occ_agrees occupancy placed →
  first_fit fuel occupancy columns rspan cspan = Some (r, c, occupancy') →
  first_fit_position columns placed rspan cspan r c ∧
  occupancy' = mark_rect occupancy r c rspan cspan ∧
  occ_agrees occupancy' (placed ++ [(r, c, rspan, cspan)]).
Proof.
  intros Hagree Hff. apply first_fit_from_spec in Hff.
  destruct Hff as (Hr & Hc & Hcand & -> & Hmin).
  split; [|split; [done|by apply occ_agrees_mark]].
  split; [done|]. split.
  - by apply (candidate_fits occupancy).
  - intros r' c' Hr' Hfit.
    apply (candidate_fits occupancy) in Hfit as [Hc' Hcand']; [|done].
    by apply Hmin.
Qed.

(** ** The loop over the tiles *)

Lemma size_insert_set_row_col (σ : store) t r c l :
  size ((<[t := set_row_col (σ t) r c]> σ) l) = size (σ l).
Proof.
  unfold insert, fn_insert. case_decide; by subst.
Qed.

Lemma pack_loop_spec fuel columns tiles :
  ∀ (σ : store) (occupancy : gmap (Z * Z) bool) (acc : list position) σ' occupancy' res,
    pack_loop fuel columns tiles σ occupancy acc = Some (σ', occupancy', res) →
    occ_agrees occupancy (acc.*2) →
    ∃ new,
      res = acc ++ new ∧ new.*1 = tiles ∧ occ_agrees occupancy' (res.*2) ∧
      ∀ pre p post, new = pre ++ p :: post →
                    placed_first_fit σ columns (acc ++ pre) p.
Proof.
  induction tiles as [|t tiles IH]; intros σ occupancy acc σ' occupancy' res; simpl.
  - intros [= <- <- <-] Hagree. exists []. rewrite app_nil_r.
    split; [done|]. split; [done|]. split; [done|].
    intros pre p post Hsplit. by destruct pre.
  - destruct (size_span (size (σ t))) as [rspan cspan] eqn:Hspan.
    destruct (first_fit fuel occupancy columns rspan cspan)
      as [[[r c] occ1]|] eqn:Hff; [|done].
    intros Hloop Hagree.
    destruct (first_fit_correct _ _ _ _ _ _ _ _ _ Hagree Hff) as (Hfirst & _ & Hagree1).
    apply IH in Hloop.
    2:{ by rewrite fmap_app. }
    destruct Hloop as (new & -> & Htiles & Hagree' & Hnew).
    exists ((t, (r, c, rspan, cspan)) :: new).
    split; [by rewrite <- app_assoc|].
    split; [simpl; by f_equal|]. split; [done|].
    intros pre p post Hsplit. destruct pre as [|p0 pre]; simpl in Hsplit.
    + injection Hsplit as <- _. rewrite app_nil_r. simpl. by rewrite Hspan.
    + injection Hsplit as <- Hsplit.
      specialize (Hnew pre p post Hsplit).
      rewrite <- app_assoc in Hnew. simpl in Hnew.
      destruct p as [t' [[[r' c'] rs'] cs']]. simpl in *.
      by rewrite size_insert_set_row_col in Hnew.
Qed.

Lemma pack_loop_store fuel columns tiles :
  ∀ (σ : store) (occupancy : gmap (Z * Z) bool) (acc : list position) σ' occupancy' res,
    pack_loop fuel columns tiles σ occupancy acc = Some (σ', occupancy', res) →
    ∃ new,
      res = acc ++ new ∧ new.*1 = tiles ∧
      (∀ l, same_but_position (σ l) (σ' l)) ∧
      (∀ l, l ∉ tiles → σ' l = σ l) ∧
      ∀ pre t r c rspan cspan post,
        new = pre ++ (t, (r, c, rspan, cspan)) :: post →
        t ∉ post.*1 → row (σ' t) = r ∧ col (σ' t) = c.
Proof.
  induction tiles as [|t0 tiles IH]; intros σ occupancy acc σ' occupancy' res; simpl.
  - intros [= <- <- <-]. exists []. rewrite app_nil_r.
    split; [done|]. split; [done|]. split; [by intros l; repeat split|].
    split; [done|]. intros pre t r c rspan cspan post Hsplit. by destruct pre.
  - destruct (size_span (size (σ t0))) as [rs0 cs0].
    destruct (first_fit fuel occupancy columns rs0 cs0)
      as [[[r0 c0] occ1]|]; [|done].
    intros Hloop. apply IH in Hloop.
    destruct Hloop as (new & -> & Htiles & Hsame & Hframe & Hpos).
    exists ((t0, (r0, c0, rs0, cs0)) :: new).
    split; [by rewrite <- app_assoc|]. split; [simpl; by f_equal|].
    assert (∀ l, l ≠ t0 → (<[t0 := set_row_col (σ t0) r0 c0]> σ) l = σ l) as Hne.
    { intros l Hl. unfold insert, fn_insert. by case_decide; subst. }
    assert ((<[t0 := set_row_col (σ t0) r0 c0]> σ) t0 = set_row_col (σ t0) r0 c0) as Heq.
    { unfold insert, fn_insert. by case_decide. }
    split; [|split].
    + intros l. specialize (Hsame l). destruct (decide (l = t0)) as [->|Hl].
      * rewrite Heq in Hsame. apply Hsame.
      * by rewrite Hne in Hsame.
    + intros l Hl. apply not_elem_of_cons in Hl as [Hl1 Hl2].
      by rewrite Hframe, Hne.
    + intros pre t r c rspan cspan post Hsplit Hlast.
      destruct pre as [|p0 pre]; simpl in Hsplit.
      * injection Hsplit as <- <- <- <- <- <-.
        rewrite Hframe, Heq; [done|]. by rewrite <- Htiles.
      * injection Hsplit as _ Hsplit. by eapply Hpos.
Qed.

(** ** Termination of the scan *)

Lemma size_span_eq sz :
  size_span sz =
  if decide (sz = "small") then (1, 1)
  else if decide (sz = "wide") then (1, 2)
  else if decide (sz = "large") then (2, 2)
  else (1, 1).
Proof.
  unfold size_span, SIZE_MAP. rewrite !lookup_insert, lookup_empty.
  repeat case_decide; by subst.
Qed.

Lemma size_span_cases sz :
  size_span sz = (1, 1) ∨ size_span sz = (1, 2) ∨ size_span sz = (2, 2).
Proof. rewrite size_span_eq. repeat case_decide; auto. Qed.

Lemma colspan_bounds t : 1 ≤ colspan t ≤ 2.
Proof.
  unfold colspan. destruct (size_span_cases (size t)) as [-> | [-> | ->]]; simpl; lia.
Qed.

Lemma occ_below_empty : occ_below ∅ 0.
Proof. intros rr cc. unfold occupied. by rewrite lookup_empty. Qed.

Lemma occ_below_mark (occupancy : gmap (Z * Z) bool) h r c rspan cspan :
  occ_below occupancy h →
  occ_below (mark_rect occupancy r c rspan cspan) (Z.max h (r + rspan)).
Proof.
  intros Hbelow rr cc. rewrite occupied_mark_rect. unfold covers.
  intros [[Hr _]|Hocc]; [lia|]. apply Hbelow in Hocc. lia.
Qed.

(** Every dictionary is finite, so its marked cells are below some row. *)
Lemma occ_below_exists (occupancy : gmap (Z * Z) bool) :
  ∃ h, 0 ≤ h ∧ occ_below occupancy h.
Proof.
  induction occupancy as [|k v m Hk _ IH] using map_first_key_ind.
  - exists 0. split; [done|]. apply occ_below_empty.
  - destruct IH as (h & Hh & Hbelow).
    exists (Z.max h (k.1 + 1)). split; [lia|].
    intros rr cc. unfold occupied. rewrite lookup_insert. case_decide as Heq.
    + subst k. simpl. lia.
    + intros Hocc. apply Hbelow in Hocc. lia.
Qed.

Lemma first_fit_total (occupancy : gmap (Z * Z) bool) h columns rspan cspan fuel :
  occ_below occupancy h → 0 < columns → cspan ≤ columns →
  (Z.to_nat h < fuel)%nat →
  is_Some (first_fit fuel occupancy columns rspan cspan).
Proof.
  intros Hbelow Hcols Hspan Hfuel. unfold first_fit.
  apply (first_fit_from_total occupancy columns rspan cspan (Z.max 0 h) 0);
    [lia| |lia|lia].
  split; [lia|]. apply rect_ok_true. intros rr cc [Hr _].
  destruct (occupied occupancy rr cc) eqn:Hocc; [|done].
  apply Hbelow in Hocc. lia.
Qed.

(** When the span is wider than the grid no column is ever tried with
    success, whatever the fuel: the loop of the source does not end. *)
Lemma first_fit_too_wide (occupancy : gmap (Z * Z) bool) columns rspan cspan fuel :
  columns < cspan → first_fit fuel occupancy columns rspan cspan = None.
Proof.
  intros Hwide. destruct (first_fit fuel occupancy columns rspan cspan)
    as [[[r c] occ']|] eqn:Hff; [|done].
  apply first_fit_from_spec in Hff as (_ & Hc & [Hend _] & _). lia.
Qed.

Lemma pack_loop_total columns tiles :
  ∀ (σ : store) (occupancy : gmap (Z * Z) bool) (acc : list position) h,
    occ_below occupancy h →
    Forall (λ t, colspan (σ t) ≤ columns) tiles →
    ∃ fuel0 result, ∀ fuel, (fuel0 ≤ fuel)%nat →
      pack_loop fuel columns tiles σ occupancy acc = Some result.
Proof.
  induction tiles as [|t tiles IH]; intros σ occupancy acc h Hbelow Hall.
  - exists O, (σ, occupancy, acc). done.
  - apply Forall_cons in Hall as [Ht Hall]. unfold colspan in Ht.
    pose proof (colspan_bounds (σ t)) as Hb. unfold colspan in Hb.
    destruct (size_span (size (σ t))) as [rspan cspan] eqn:Hspan. simpl in *.
    destruct (first_fit_total occupancy h columns rspan cspan (S (Z.to_nat h)))
      as [[[r c] occ1] Hff]; [done|lia|done|lia|].
    pose proof Hff as Hspec.
    apply first_fit_from_spec in Hspec as (_ & _ & _ & Hocc1 & _).
    destruct (IH (<[t := set_row_col (σ t) r c]> σ) occ1
                 (acc ++ [(t, (r, c, rspan, cspan))]) (Z.max h (r + rspan)))
      as (fuel1 & result & Hres).
    { subst occ1. by apply occ_below_mark. }
    { eapply Forall_impl; [exact Hall|]. intros l Hl. unfold colspan in *.
      by rewrite size_insert_set_row_col. }
    exists (Nat.max (S (Z.to_nat h)) fuel1), result. intros fuel Hfuel.
    simpl. rewrite Hspan. unfold first_fit.
    rewrite (first_fit_from_fuel_mono _ _ _ _ _ fuel 0 _ Hff) by lia.
    apply Hres. lia.
Qed.

(** ** [_pack_tiles] *)

Lemma pack_tiles_loop fuel (σ : store) tiles columns σ' positions :
  _pack_tiles fuel σ tiles columns = Some (σ', positions) →
  ∃ occupancy', pack_loop fuel columns tiles σ ∅ [] = Some (σ', occupancy', positions).
Proof.
  unfold _pack_tiles.
  destruct (pack_loop fuel columns tiles σ ∅ []) as [[[σ1 occ1] res]|]; [|done].
  intros [= <- <-]. by exists occ1.
Qed.

Lemma pack_tiles_placed fuel (σ : store) tiles columns σ' positions :
  _pack_tiles fuel σ tiles columns = Some (σ', positions) →
  positions.*1 = tiles ∧
  ∀ pre p post, positions = pre ++ p :: post → placed_first_fit σ columns pre p.
Proof.
  intros Hpack. apply pack_tiles_loop in Hpack as [occ' Hloop].
  apply pack_loop_spec in Hloop; [|apply occ_agrees_empty].
  destruct Hloop as (new & Hres & Htiles & _ & Hnew). simpl in Hres. subst new.
  split; [done|]. intros pre p post Hsplit. by apply (Hnew pre p post).
Qed.

Lemma pack_tiles_total (σ : store) tiles columns :
  Forall (λ t, colspan (σ t) ≤ columns) tiles →
  ∃ fuel0 σ' positions, ∀ fuel, (fuel0 ≤ fuel)%nat →
    _pack_tiles fuel σ tiles columns = Some (σ', positions).
Proof.
  intros Hall.
  destruct (pack_loop_total columns tiles σ ∅ [] 0 occ_below_empty Hall)
    as (fuel0 & [[σ' occ'] positions] & Hres).
  exists fuel0, σ', positions. intros fuel Hfuel.
  unfold _pack_tiles. by rewrite (Hres fuel Hfuel).
Qed.

Lemma pack_tiles_member fuel (σ : store) tiles columns σ' positions t r c rspan cspan :
  _pack_tiles fuel σ tiles columns = Some (σ', positions) →
  (t, (r, c, rspan, cspan)) ∈ positions →
  (rspan, cspan) = size_span (size (σ t)) ∧
  0 ≤ r ∧ 0 ≤ c ∧ c + cspan ≤ columns.
Proof.
  intros Hpack Hin. apply pack_tiles_placed in Hpack as [_ Hplaced].
  apply list_elem_of_split in Hin as (pre & post & ->).
  destruct (Hplaced pre _ post eq_refl) as (Hspan & Hr & (Hc & Hend & _) & _).
  split; [done|]. split; [done|]. split; [lia|done].
Qed.

Lemma pack_tiles_disjoint fuel (σ : store) tiles columns σ' positions
    (i j : nat) ti pi tj pj rr cc :
  _pack_tiles fuel σ tiles columns = Some (σ', positions) →
  i ≠ j →
  positions !! i = Some (ti, pi) → positions !! j = Some (tj, pj) →
  ¬ (covers pi rr cc ∧ covers pj rr cc).
Proof.
  intros Hpack. apply pack_tiles_placed in Hpack as [_ Hplaced].
  assert (∀ (i j : nat) ti pi tj pj,
    (i < j)%nat → positions !! i = Some (ti, pi) → positions !! j = Some (tj, pj) →
    ¬ (covers pi rr cc ∧ covers pj rr cc)) as Hlt.
  { clear i j ti pi tj pj. intros i j ti pi tj pj Hij Hi Hj [Hci Hcj].
    pose proof (take_drop_middle positions j (tj, pj) Hj) as Hsplit.
    symmetry in Hsplit. apply Hplaced in Hsplit.
    destruct pj as [[[r c] rspan] cspan].
    destruct Hsplit as (_ & _ & (_ & _ & Hfree) & _).
    apply (Hfree rr cc Hcj). exists pi. split; [|done].
    apply (list_elem_of_fmap_2 snd _ (ti, pi)).
    apply list_elem_of_lookup. exists i. rewrite lookup_take_lt; done. }
  intros Hij Hi Hj. destruct (decide (i < j)%nat) as [Hlt'|Hge].
  - by eapply Hlt.
  - intros [Hci Hcj]. eapply (Hlt j i); [lia|done..|by split].
Qed.

(** A tile wider than the grid is never placed: with such a tile in the
    list the packer returns with no amount of fuel. *)
Lemma pack_loop_too_wide fuel columns tiles :
  ∀ (σ : store) (occupancy : gmap (Z * Z) bool) (acc : list position),
    Exists (λ t, columns < colspan (σ t)) tiles →
    pack_loop fuel columns tiles σ occupancy acc = None.
Proof.
  induction tiles as [|t tiles IH]; intros σ occupancy acc Hex.
  - by apply Exists_nil in Hex.
  - simpl. unfold colspan in Hex.
    destruct (size_span (size (σ t))) as [rspan cspan] eqn:Hspan.
    destruct (first_fit fuel occupancy columns rspan cspan)
      as [[[r c] occ1]|] eqn:Hff; [|done].
    apply Exists_cons in Hex as [Hwide|Hex].
    + rewrite Hspan in Hwide. simpl in Hwide.
      by rewrite first_fit_too_wide in Hff.
    + apply IH. eapply Exists_impl; [exact Hex|]. intros l Hl. unfold colspan.
      by rewrite size_insert_set_row_col.
Qed.

Lemma pack_tiles_too_wide fuel (σ : store) tiles columns :
  Exists (λ t, columns < colspan (σ t)) tiles →
  _pack_tiles fuel σ tiles columns = None.
Proof. intros Hex. unfold _pack_tiles. by rewrite pack_loop_too_wide. Qed.

(** C1.  For every list of tiles and every column count, the positions
    [_pack_tiles] returns follow the list order and each one is the
    row-major first fit: with the rectangles of the tiles placed before it
    as the occupied cells, the position fits (its column is in range, it
    ends within [columns] and none of its cells is taken), and every
    position that fits is in a later row, or in the same row at the same
    or a later column.  The cells of every earlier rectangle count as
    occupied for every later tile.  The result is produced whenever every
    tile's column span is at most [columns]. *)
Theorem pack_tiles_first_fit (σ : store) (tiles : list loc) (columns : Z) :
  (∀ fuel σ' positions,
     _pack_tiles fuel σ tiles columns = Some (σ', positions) →
     positions.*1 = tiles ∧
     ∀ pre t r c rspan cspan post,
       positions = pre ++ (t, (r, c, rspan, cspan)) :: post →
       (rspan, cspan) = size_span (size (σ t)) ∧
       first_fit_position columns (pre.*2) rspan cspan r c) ∧
  (Forall (λ t, colspan (σ t) ≤ columns) tiles →
   ∃ fuel0 σ' positions, ∀ fuel, (fuel0 ≤ fuel)%nat →
     _pack_tiles fuel σ tiles columns = Some (σ', positions)).
Proof.
  split.
  - intros fuel σ' positions Hpack.
    apply pack_tiles_placed in Hpack as [Horder Hplaced].
    split; [done|]. intros pre t r c rspan cspan post Hsplit.
    apply (Hplaced pre (t, (r, c, rspan, cspan)) post Hsplit).
  - apply pack_tiles_total.
Qed.

(** C3.  When every tile's column span is at most the column count,
    [_pack_tiles] returns, and in the positions it returns the rectangles
    of two different entries share no cell and every rectangle lies within
    the columns of the grid: [0 <= col] and [col + colspan <= columns]
    (and its row is not negative). *)
Theorem pack_tiles_valid (σ : store) (tiles : list loc) (columns : Z) :
  Forall (λ t, colspan (σ t) ≤ columns) tiles →
  ∃ fuel0 σ' positions,
    (∀ fuel, (fuel0 ≤ fuel)%nat →
       _pack_tiles fuel σ tiles columns = Some (σ', positions)) ∧
    (∀ t r c rspan cspan,
       (t, (r, c, rspan, cspan)) ∈ positions →
       0 ≤ r ∧ 0 ≤ c ∧ c + cspan ≤ columns) ∧
    (∀ (i j : nat) ti pi tj pj,
       i ≠ j →
       positions !! i = Some (ti, pi) → positions !! j = Some (tj, pj) →
       ∀ rr cc, ¬ (covers pi rr cc ∧ covers pj rr cc)).
Proof.
  intros Hall.
  destruct (pack_tiles_total σ tiles columns Hall) as (fuel0 & σ' & positions & Hres).
  exists fuel0, σ', positions. split; [done|].
  pose proof (Hres fuel0 (Nat.le_refl _)) as Hpack. split.
  - intros t r c rspan cspan Hin.
    by destruct (pack_tiles_member _ _ _ _ _ _ _ _ _ _ _ Hpack Hin) as (_ & ? & ? & ?).
  - intros i j ti pi tj pj Hij Hi Hj rr cc.
    by eapply pack_tiles_disjoint.
Qed.

Lemma demo_pack :
  ∃ σ', _pack_tiles 3 demo_store [0; 1; 2; 3; 4]%nat 4 = Some (σ', demo_positions).
Proof. eexists. vm_compute. reflexivity. Qed.

Lemma demo_colspans :
  Forall (λ t, colspan (demo_store t) ≤ 4) [0; 1; 2; 3; 4]%nat.
Proof. repeat constructor; vm_compute; discriminate. Qed.

(** The large default tile goes to row 1, column 0: the first fit after the
    wide and the two small tiles of row 0. *)
Lemma pack_tiles_first_fit_witness :
  ∃ σ', _pack_tiles 3 demo_store [0; 1; 2; 3; 4]%nat 4 = Some (σ', demo_positions) ∧
        demo_positions.*1 = [0; 1; 2; 3; 4]%nat ∧
        first_fit_position 4 [(0, 0, 1, 2); (0, 2, 1, 1); (0, 3, 1, 1)] 2 2 1 0.
Proof.
  destruct demo_pack as [σ' Hpack]. exists σ'. split; [exact Hpack|].
  destruct (pack_tiles_first_fit demo_store [0; 1; 2; 3; 4]%nat 4) as [Hfirst _].
  destruct (Hfirst 3%nat σ' demo_positions Hpack) as [Horder Hplaced].
  split; [exact Horder|].
  exact (proj2 (Hplaced [(0%nat, (0, 0, 1, 2)); (1%nat, (0, 2, 1, 1)); (2%nat, (0, 3, 1, 1))]
                        3%nat 1 0 2 2 [(4%nat, (1, 2, 1, 1))] eq_refl)).
Defined.

Lemma pack_tiles_valid_witness :
  Forall (λ t, colspan (demo_store t) ≤ 4) [0; 1; 2; 3; 4]%nat ∧
  ∃ fuel0 σ' positions,
    (∀ fuel, (fuel0 ≤ fuel)%nat →
       _pack_tiles fuel demo_store [0; 1; 2; 3; 4]%nat 4 = Some (σ', positions)) ∧
    (∀ t r c rspan cspan,
       (t, (r, c, rspan, cspan)) ∈ positions → 0 ≤ r ∧ 0 ≤ c ∧ c + cspan ≤ 4) ∧
    (∀ (i j : nat) ti pi tj pj,
       i ≠ j →
       positions !! i = Some (ti, pi) → positions !! j = Some (tj, pj) →
       ∀ rr cc, ¬ (covers pi rr cc ∧ covers pj rr cc)).
Proof.
  split; [exact demo_colspans|].
  exact (pack_tiles_valid demo_store [0; 1; 2; 3; 4]%nat 4 demo_colspans).
Defined.

Lemma pack_tiles_listed fuel (σ : store) tiles columns σ' positions (i : nat) t :
  _pack_tiles fuel σ tiles columns = Some (σ', positions) →
  tiles !! i = Some t →
  ∃ r c,
    positions !! i
    = Some (t, (r, c, (size_span (size (σ t))).1, (size_span (size (σ t))).2)).
Proof.
  intros Hpack Hi.
  pose proof (pack_tiles_placed _ _ _ _ _ _ Hpack) as [Horder Hplaced].
  rewrite <- Horder, list_lookup_fmap in Hi.
  apply fmap_Some in Hi as ([t' [[[r c] rspan] cspan]] & Hp & Ht). simpl in Ht. subst t'.
  pose proof (take_drop_middle positions i _ Hp) as Hmid. symmetry in Hmid.
  destruct (Hplaced _ _ _ Hmid) as [Hspan _].
  exists r, c. by rewrite <- Hspan.
Qed.

(** C5.  [SIZE_MAP] gives "small" 1 row by 1 column, "wide" 1 row by 2
    columns and "large" 2 rows by 2 columns, and any other size string 1 by
    1.  The rendered button has the pixel size of these spans
    (140, 292 = 2 * 140 + 12).  The packer places every tile of the list
    with these spans: whenever it returns, the entry at the index of a
    listed tile is that tile with the row span and column span of its
    size, and no cell of its rectangle belongs to the rectangle of another
    entry; and it does return when every column span is at most the column
    count. *)
Theorem size_spans :
  size_span "small" = (1, 1) ∧ size_span "wide" = (1, 2) ∧ size_span "large" = (2, 2) ∧
  (∀ sz, sz ≠ "small" → sz ≠ "wide" → sz ≠ "large" → size_span sz = (1, 1)) ∧
  (∀ t, tile_pixel_size t =
        ((size_span (size t)).2 * 140 + ((size_span (size t)).2 - 1) * 12,
         (size_span (size t)).1 * 140 + ((size_span (size t)).1 - 1) * 12)) ∧
  (∀ t, size t = "small" → tile_pixel_size t = (140, 140)) ∧
  (∀ t, size t = "wide" → tile_pixel_size t = (292, 140)) ∧
  (∀ t, size t = "large" → tile_pixel_size t = (292, 292)) ∧
  (∀ t, size t ≠ "small" → size t ≠ "wide" → size t ≠ "large" →
        tile_pixel_size t = (140, 140)) ∧
  (∀ fuel (σ : store) tiles columns σ' positions t r c rspan cspan,
     _pack_tiles fuel σ tiles columns = Some (σ', positions) →
     (t, (r, c, rspan, cspan)) ∈ positions →
     (rspan, cspan) = size_span (size (σ t))) ∧
  (∀ fuel (σ : store) tiles columns σ' positions,
     _pack_tiles fuel σ tiles columns = Some (σ', positions) →
     length positions = length tiles ∧
     (∀ (i : nat) t,
        tiles !! i = Some t →
        ∃ r c,
          positions !! i
          = Some (t, (r, c, (size_span (size (σ t))).1, (size_span (size (σ t))).2)) ∧
          (size (σ t) = "small" → positions !! i = Some (t, (r, c, 1, 1))) ∧
          (size (σ t) = "wide" → positions !! i = Some (t, (r, c, 1, 2))) ∧
          (size (σ t) = "large" → positions !! i = Some (t, (r, c, 2, 2))) ∧
          ∀ (j : nat) tj pj rr cc,
            j ≠ i → positions !! j = Some (tj, pj) →
            covers (r, c, (size_span (size (σ t))).1, (size_span (size (σ t))).2) rr cc →
            ¬ covers pj rr cc)) ∧
  (∀ (σ : store) tiles columns,
     Forall (λ t, colspan (σ t) ≤ columns) tiles →
     ∃ fuel0 σ' positions, ∀ fuel, (fuel0 ≤ fuel)%nat →
       _pack_tiles fuel σ tiles columns = Some (σ', positions)).
Proof.
  assert (∀ sz, sz ≠ "small" → sz ≠ "wide" → sz ≠ "large" → size_span sz = (1, 1))
    as Hother.
  { intros sz H1 H2 H3. rewrite size_span_eq. by repeat case_decide. }
  split; [done|]. split; [done|]. split; [done|]. split; [exact Hother|].
  split; [|split; [|split; [|split; [|split; [|split; [|split]]]]]].
  - intros t. unfold tile_pixel_size, CELL_SIZE, CELL_GAP.
    by destruct (size_span (size t)).
  - intros t Hsz. unfold tile_pixel_size. by rewrite Hsz.
  - intros t Hsz. unfold tile_pixel_size. by rewrite Hsz.
  - intros t Hsz. unfold tile_pixel_size. by rewrite Hsz.
  - intros t H1 H2 H3. unfold tile_pixel_size. by rewrite Hother.
  - intros fuel σ tiles columns σ' positions t r c rspan cspan Hpack Hin.
    by destruct (pack_tiles_member _ _ _ _ _ _ _ _ _ _ _ Hpack Hin) as [? _].
  - intros fuel σ tiles columns σ' positions Hpack. split.
    + pose proof (pack_tiles_placed _ _ _ _ _ _ Hpack) as [Horder _].
      by rewrite <- Horder, length_fmap.
    + intros i t Hi.
      destruct (pack_tiles_listed _ _ _ _ _ _ _ _ Hpack Hi) as (r & c & Hp).
      exists r, c. split; [done|].
      split; [intros Hsz; by rewrite Hp, Hsz|].
      split; [intros Hsz; by rewrite Hp, Hsz|].
      split; [intros Hsz; by rewrite Hp, Hsz|].
      intros j tj pj rr cc Hji Hj Hcov Hcovj.
      by apply (pack_tiles_disjoint _ _ _ _ _ _ i j _ _ _ _ rr cc Hpack
                  ltac:(done) Hp Hj).
  - intros σ tiles columns. apply pack_tiles_total.
Qed.

Lemma size_spans_witness :
  ("huge" ≠ "small" ∧ "huge" ≠ "wide" ∧ "huge" ≠ "large" ∧ size_span "huge" = (1, 1)) ∧
  tile_pixel_size (demo_store 0%nat) = (292, 140) ∧
  Forall (λ t, colspan (demo_store t) ≤ 4) [0; 1; 2; 3; 4]%nat ∧
  ∃ σ',
    _pack_tiles 3 demo_store [0; 1; 2; 3; 4]%nat 4 = Some (σ', demo_positions) ∧
    (size (demo_store 0%nat) = "wide" ∧ ∃ r c, demo_positions !! 0%nat = Some (0%nat, (r, c, 1, 2))) ∧
    (size (demo_store 3%nat) = "large" ∧ ∃ r c, demo_positions !! 3%nat = Some (3%nat, (r, c, 2, 2))) ∧
    ∃ fuel0 σ'' positions, ∀ fuel, (fuel0 ≤ fuel)%nat →
      _pack_tiles fuel demo_store [0; 1; 2; 3; 4]%nat 4 = Some (σ'', positions).
Proof.
  destruct size_spans as (_ & _ & _ & Hother & _ & _ & Hwide & _ & _ & _ & Hplaced & Htotal).
  destruct demo_pack as [σ' Hpack].
  split; [|split; [|split]].
  - split; [discriminate|]. split; [discriminate|]. split; [discriminate|].
    apply Hother; discriminate.
  - apply Hwide. reflexivity.
  - exact demo_colspans.
  - exists σ'. split; [exact Hpack|].
    destruct (Hplaced 3%nat demo_store [0; 1; 2; 3; 4]%nat 4 σ' demo_positions Hpack)
      as [_ Hlisted].
    split; [|split].
    + split; [reflexivity|].
      destruct (Hlisted 0%nat 0%nat eq_refl) as (r & c & _ & _ & Hw & _).
      exists r, c. apply Hw. reflexivity.
    + split; [reflexivity|].
      destruct (Hlisted 3%nat 3%nat eq_refl) as (r & c & _ & _ & _ & Hl & _).
      exists r, c. apply Hl. reflexivity.
    + exact (Htotal demo_store [0; 1; 2; 3; 4]%nat 4 demo_colspans).
Defined.

(** C7.  [_pack_tiles] writes the positions into the tile objects
    themselves: the returned list pairs the tiles of the input in the
    input's order; every field other than [row] and [col] of every object
    is unchanged, and an object that is not in the list is unchanged
    altogether; after the call the [row] and [col] of a tile are the row
    and column of the position returned for it.  The program only builds
    lists of distinct tile objects, where each object has one entry; were
    an object listed twice, the entry meant is its last, the one written
    last. *)
Theorem pack_tiles_assigns fuel (σ : store) (tiles : list loc) (columns : Z)
    σ' positions :
  _pack_tiles fuel σ tiles columns = Some (σ', positions) →
  positions.*1 = tiles ∧
  (∀ l, same_but_position (σ l) (σ' l)) ∧
  (∀ l, l ∉ tiles → σ' l = σ l) ∧
  (∀ pre t r c rspan cspan post,
     positions = pre ++ (t, (r, c, rspan, cspan)) :: post →
     t ∉ post.*1 → row (σ' t) = r ∧ col (σ' t) = c) ∧
  (NoDup tiles →
   ∀ t r c rspan cspan,
     (t, (r, c, rspan, cspan)) ∈ positions → row (σ' t) = r ∧ col (σ' t) = c).
Proof.
  intros Hpack. apply pack_tiles_loop in Hpack as [occ' Hloop].
  apply pack_loop_store in Hloop.
  destruct Hloop as (new & Hres & Htiles & Hsame & Hframe & Hpos).
  simpl in Hres. subst new.
  split; [done|]. split; [done|]. split; [done|]. split; [exact Hpos|].
  intros Hnodup t r c rspan cspan Hin.
  apply list_elem_of_split in Hin as (pre & post & Hsplit).
  apply (Hpos pre t r c rspan cspan post Hsplit).
  rewrite <- Htiles, Hsplit, fmap_app, fmap_cons in Hnodup. simpl in Hnodup.
  apply NoDup_app in Hnodup as (_ & _ & Hnodup).
  by apply NoDup_cons in Hnodup as [? _].
Qed.

Lemma pack_tiles_assigns_witness :
  ∃ σ', _pack_tiles 3 demo_store [0; 1; 2; 3; 4]%nat 4 = Some (σ', demo_positions) ∧
        NoDup [0; 1; 2; 3; 4]%nat ∧
        row (σ' 3%nat) = 1 ∧ col (σ' 3%nat) = 0 ∧
        title (σ' 3%nat) = "Clock".
Proof.
  destruct demo_pack as [σ' Hpack]. exists σ'. split; [exact Hpack|].
  assert (NoDup [0; 1; 2; 3; 4]%nat) as Hnodup
    by (apply (bool_decide_unpack (NoDup [0; 1; 2; 3; 4]%nat)); vm_compute; exact I).
  split; [exact Hnodup|].
  destruct (pack_tiles_assigns 3%nat demo_store [0; 1; 2; 3; 4]%nat 4 σ' demo_positions Hpack)
    as (_ & Hsame & _ & _ & Hpos).
  destruct (Hpos Hnodup 3%nat 1 0 2 2) as [Hrow Hcol].
  { unfold demo_positions. do 3 apply list_elem_of_further. apply list_elem_of_here. }
  split; [exact Hrow|]. split; [exact Hcol|].
  destruct (Hsame 3%nat) as (_ & Htitle & _). rewrite Htitle. reflexivity.
Defined.

Lemma first_fit_finds (occupancy : gmap (Z * Z) bool) columns rspan cspan :
  0 < columns → cspan ≤ columns →
  ∃ fuel0 r c occupancy',
    (∀ fuel, (fuel0 ≤ fuel)%nat →
       first_fit fuel occupancy columns rspan cspan = Some (r, c, occupancy')) ∧
    0 ≤ r ∧ 0 ≤ c < columns ∧ candidate occupancy columns rspan cspan r c ∧
    occupancy' = mark_rect occupancy r c rspan cspan ∧
    ∀ r' c', 0 ≤ r' → 0 ≤ c' < columns →
             candidate occupancy columns rspan cspan r' c' →
             r < r' ∨ (r = r' ∧ c ≤ c').
Proof.
  intros Hcols Hspan.
  destruct (occ_below_exists occupancy) as (h & Hh & Hbelow).
  destruct (first_fit_total occupancy h columns rspan cspan (S (Z.to_nat h)))
    as [[[r c] occ'] Hff]; [done..|lia|].
  exists (S (Z.to_nat h)), r, c, occ'. split.
  - intros fuel Hfuel. by apply (first_fit_from_fuel_mono _ _ _ _ (S (Z.to_nat h))).
  - by apply first_fit_from_spec in Hff as (? & ? & ? & ? & ?).
Qed.

Lemma pack_tiles_total_fits (σ : store) tiles columns :
  Forall (λ t, colspan (σ t) ≤ columns) tiles →
  ∃ fuel0 σ' positions,
    (∀ fuel, (fuel0 ≤ fuel)%nat →
       _pack_tiles fuel σ tiles columns = Some (σ', positions)) ∧
    positions.*1 = tiles ∧
    ∀ pre t r c rspan cspan post,
      positions = pre ++ (t, (r, c, rspan, cspan)) :: post →
      (rspan, cspan) = size_span (size (σ t)) ∧
      0 ≤ r ∧ fits columns (pre.*2) rspan cspan r c.
Proof.
  intros Hall.
  destruct (pack_tiles_total σ tiles columns Hall) as (fuel0 & σ' & positions & Hres).
  exists fuel0, σ', positions. split; [done|].
  destruct (pack_tiles_placed _ _ _ _ _ _ (Hres fuel0 (Nat.le_refl _))) as [Horder Hplaced].
  split; [done|]. intros pre t r c rspan cspan post Hsplit.
  destruct (Hplaced pre _ post Hsplit) as (Hspan & Hr & Hfits & _). done.
Qed.

(** C8.  [_pack_tiles] terminates on every list of tiles whose column spans
    are at most the column count, and so on every list when there are at
    least two columns: from some amount of fuel on the result is there and
    no longer depends on the fuel, it has an entry for every tile of the
    list, and every entry fits where it is placed.  The loop of
    [first_fit] finds a fitting position in every occupancy dictionary when
    the grid has a column and the span is at most the column count: the
    position it returns is within the columns, passes the test of the loop
    (no cell of the rectangle is occupied), is the first such position in
    row-major order, and its cells are the ones marked. *)
Theorem pack_tiles_terminates (σ : store) (tiles : list loc) (columns : Z) :
  (Forall (λ t, colspan (σ t) ≤ columns) tiles →
   ∃ fuel0 σ' positions,
     (∀ fuel, (fuel0 ≤ fuel)%nat →
        _pack_tiles fuel σ tiles columns = Some (σ', positions)) ∧
     positions.*1 = tiles ∧
     ∀ pre t r c rspan cspan post,
       positions = pre ++ (t, (r, c, rspan, cspan)) :: post →
       (rspan, cspan) = size_span (size (σ t)) ∧
       0 ≤ r ∧ fits columns (pre.*2) rspan cspan r c) ∧
  (2 ≤ columns →
   ∃ fuel0 σ' positions,
     (∀ fuel, (fuel0 ≤ fuel)%nat →
        _pack_tiles fuel σ tiles columns = Some (σ', positions)) ∧
     positions.*1 = tiles ∧
     ∀ pre t r c rspan cspan post,
       positions = pre ++ (t, (r, c, rspan, cspan)) :: post →
       (rspan, cspan) = size_span (size (σ t)) ∧
       0 ≤ r ∧ fits columns (pre.*2) rspan cspan r c) ∧
  (∀ (occupancy : gmap (Z * Z) bool) rspan cspan,
     0 < columns → cspan ≤ columns →
     ∃ fuel0 r c occupancy',
       (∀ fuel, (fuel0 ≤ fuel)%nat →
          first_fit fuel occupancy columns rspan cspan = Some (r, c, occupancy')) ∧
       0 ≤ r ∧ 0 ≤ c < columns ∧ c + cspan ≤ columns ∧
       rect_ok occupancy r c rspan cspan = true ∧
       (∀ rr cc, r ≤ rr < r + rspan → c ≤ cc < c + cspan →
                 occupied occupancy rr cc = false) ∧
       (∀ r' c', 0 ≤ r' → 0 ≤ c' < columns → c' + cspan ≤ columns →
                 rect_ok occupancy r' c' rspan cspan = true →
                 r < r' ∨ (r = r' ∧ c ≤ c')) ∧
       occupancy' = mark_rect occupancy r c rspan cspan ∧
       (∀ rr cc, occupied occupancy' rr cc = true ↔
                 (r ≤ rr < r + rspan ∧ c ≤ cc < c + cspan) ∨
                 occupied occupancy rr cc = true)).
Proof.
  split; [apply pack_tiles_total_fits|]. split.
  - intros Hcols. apply pack_tiles_total_fits.
    apply Forall_forall. intros t _. pose proof (colspan_bounds (σ t)). lia.
  - intros occupancy rspan cspan Hcols Hspan.
    destruct (first_fit_finds occupancy columns rspan cspan Hcols Hspan)
      as (fuel0 & r & c & occ' & Hres & Hr & Hc & [Hend Hok] & Hocc & Hmin).
    exists fuel0, r, c, occ'. split; [done|]. split; [done|]. split; [done|].
    split; [done|]. split; [done|]. split.
    { intros rr cc Hrr Hcc. by apply (proj1 (rect_ok_true _ _ _ _ _) Hok). }
    split.
    { intros r' c' Hr' Hc' Hend' Hok'. by apply Hmin. }
    split; [done|]. intros rr cc. subst occ'. apply occupied_mark_rect.
Qed.

Lemma pack_tiles_terminates_witness :
  Forall (λ t, colspan (demo_store t) ≤ 4) [0; 1; 2; 3; 4]%nat ∧
  2 ≤ 4 ∧
  (∃ fuel0 σ' positions,
     (∀ fuel, (fuel0 ≤ fuel)%nat →
        _pack_tiles fuel demo_store [0; 1; 2; 3; 4]%nat 4 = Some (σ', positions)) ∧
     positions.*1 = [0; 1; 2; 3; 4]%nat) ∧
  (0 < 4 ∧ 2 ≤ 4 ∧
   ∃ fuel0 r c occupancy',
     (∀ fuel, (fuel0 ≤ fuel)%nat →
        first_fit fuel (<[(0, 0) := true]> ∅) 4 1 2 = Some (r, c, occupancy')) ∧
     rect_ok (<[(0, 0) := true]> ∅) r c 1 2 = true).
Proof.
  destruct (pack_tiles_terminates demo_store [0; 1; 2; 3; 4]%nat 4)
    as (Hlist & Hcols & Hfirst).
  split; [exact demo_colspans|]. split; [lia|]. split.
  - destruct (Hlist demo_colspans) as (fuel0 & σ' & positions & Hres & Horder & _).
    exists fuel0, σ', positions. split; [exact Hres|exact Horder].
  - split; [lia|]. split; [lia|].
    destruct (Hfirst (<[(0, 0) := true]> ∅) 1 2 ltac:(lia) ltac:(lia))
      as (fuel0 & r & c & occ' & Hres & _ & _ & _ & Hok & _).
    exists fuel0, r, c, occ'. split; [exact Hres|exact Hok].
Defined.

(** ** Columns *)

Lemma setValue_range v sb :
  minimum sb ≤ maximum sb →
  minimum (setValue v sb) = minimum sb ∧ maximum (setValue v sb) = maximum sb ∧
  minimum sb ≤ spin_value (setValue v sb) ≤ maximum sb.
Proof. intros Hrange. unfold setValue. simpl. lia. Qed.

Lemma spin_edits_range edits :
  ∀ sb, minimum sb ≤ maximum sb →
        minimum sb ≤ spin_value sb ≤ maximum sb →
        minimum sb ≤ spin_value (foldl (λ sb v, setValue v sb) sb edits) ≤ maximum sb.
Proof.
  induction edits as [|v edits IH]; intros sb Hrange Hvalue; simpl; [done|].
  destruct (setValue_range v sb Hrange) as (Hmin & Hmax & Hv).
  rewrite <- Hmin, <- Hmax. apply IH; rewrite ?Hmin, ?Hmax; done.
Qed.

(** C9.  After [_change_columns], whatever the column count before and
    whatever the delta, the column count is between 2 and 8; when the
    settings dialog is accepted it sets a column count between 2 and 8,
    whatever was entered in the spin box, and when it is cancelled it
    leaves the state as it was. *)
Theorem columns_in_range :
  (∀ state delta, 2 ≤ columns (_change_columns state delta) ≤ 8) ∧
  (∀ state run, accepted run = true → 2 ≤ columns (_open_settings state run) ≤ 8) ∧
  (∀ state run, accepted run = false → _open_settings state run = state).
Proof.
  split; [|split].
  - intros state delta. unfold _change_columns. simpl. lia.
  - intros state run Hacc. unfold _open_settings. rewrite Hacc. simpl.
    apply (spin_edits_range (spin_edits run)
             (setValue (columns state) (setRange 2 8 QSpinBox_new))); simpl; lia.
  - intros state run Hacc. unfold _open_settings. by rewrite Hacc.
Qed.

Lemma columns_in_range_witness :
  columns (_change_columns (mkAppState "dark" 100 None) 1) = 8 ∧
  accepted (mkRun [0; 12; -3] "light" true) = true ∧
  2 ≤ columns (_open_settings (mkAppState "dark" 100 None) (mkRun [0; 12; -3] "light" true)) ≤ 8 ∧
  accepted (mkRun [5] "light" false) = false ∧
  _open_settings (mkAppState "dark" 100 None) (mkRun [5] "light" false)
  = mkAppState "dark" 100 None.
Proof.
  destruct columns_in_range as (_ & Hset & Hkeep).
  split; [reflexivity|]. split; [reflexivity|].
  split; [apply Hset; reflexivity|].
  split; [reflexivity|]. apply Hkeep. reflexivity.
Defined.

(** ** Reordering *)

Lemma getitem_in_range {A} (l : list A) (k : Z) :
  0 ≤ k < Z.of_nat (length l) → getitem l k = l !! Z.to_nat k.
Proof. intros Hk. unfold getitem. by rewrite bool_decide_eq_true_2. Qed.

Lemma setitem_in_range {A} (l : list A) (k : Z) (x : A) :
  0 ≤ k < Z.of_nat (length l) → setitem l k x = Some (<[Z.to_nat k := x]> l).
Proof. intros Hk. unfold setitem. by rewrite bool_decide_eq_true_2. Qed.

Lemma index_of_from_Some (σ : store) tiles tile :
  ∀ i0 i,
    index_of_from σ tiles tile i0 = Some i →
    ∃ (k : nat) t,
      i = i0 + Z.of_nat k ∧ tiles !! k = Some t ∧ id (σ t) = id (σ tile) ∧
      ∀ (k' : nat) t', (k' < k)%nat → tiles !! k' = Some t' → id (σ t') ≠ id (σ tile).
Proof.
  induction tiles as [|t0 tiles IH]; intros i0 i; simpl; [done|].
  case_bool_decide as Hid.
  - intros [= <-]. exists O, t0. split; [lia|]. split; [done|]. split; [done|].
    intros k' t' Hk'. lia.
  - intros Hrec. apply IH in Hrec as (k & t & -> & Hk & Hidk & Hmin).
    exists (S k), t. split; [lia|]. split; [done|]. split; [done|].
    intros [|k'] t' Hk' Hlook; simpl in Hlook.
    + by injection Hlook as <-.
    + apply (Hmin k' t'); [lia|done].
Qed.

Lemma index_of_from_None (σ : store) tiles tile :
  ∀ i0, index_of_from σ tiles tile i0 = None ↔
        ∀ t, t ∈ tiles → id (σ t) ≠ id (σ tile).
Proof.
  induction tiles as [|t0 tiles IH]; intros i0; simpl.
  - split; [|done]. intros _ t Ht. by apply elem_of_nil in Ht.
  - case_bool_decide as Hid.
    + split; [done|]. intros Hall. exfalso. apply (Hall t0); [|done]. apply list_elem_of_here.
    + rewrite IH. split.
      * intros Hall t Ht. apply elem_of_cons in Ht as [->|Ht]; [done|by apply Hall].
      * intros Hall t Ht. apply Hall. by apply list_elem_of_further.
Qed.

Lemma swap_head_perm {A} (l : list A) (j : nat) (a y : A) :
  l !! j = Some y → y :: <[j := a]> l ≡ₚ a :: l.
Proof.
  revert j. induction l as [|b l IH]; intros j Hj; [done|].
  destruct j as [|j]; simpl in *.
  - injection Hj as ->. apply perm_swap.
  - rewrite (perm_swap b y), (IH j Hj). apply perm_swap.
Qed.

Lemma swap_perm {A} (l : list A) (i j : nat) (x y : A) :
  l !! i = Some x → l !! j = Some y → <[j := x]> (<[i := y]> l) ≡ₚ l.
Proof.
  revert i j. induction l as [|a l IH]; intros i j Hi Hj; [done|].
  destruct i as [|i], j as [|j]; simpl in *.
  - by injection Hi as ->.
  - injection Hi as ->. by apply swap_head_perm.
  - injection Hj as ->. by apply swap_head_perm.
  - by rewrite IH.
Qed.

Lemma swap_items_spec (tiles : list loc) (i j : nat) ti tj :
  tiles !! i = Some ti → tiles !! j = Some tj →
  swap_items tiles (Z.of_nat i) (Z.of_nat j) = Some (<[j := ti]> (<[i := tj]> tiles)).
Proof.
  intros Hi Hj. unfold swap_items.
  pose proof (lookup_lt_Some _ _ _ Hi) as Hli.
  pose proof (lookup_lt_Some _ _ _ Hj) as Hlj.
  rewrite !getitem_in_range, !Nat2Z.id, Hi, Hj by lia.
  rewrite setitem_in_range, Nat2Z.id by lia.
  rewrite setitem_in_range, Nat2Z.id; [done|]. rewrite length_insert. lia.
Qed.

Lemma index_of_in_list (σ : store) (tiles : list loc) tile :
  tile ∈ tiles → is_Some (_index_of σ tiles tile).
Proof.
  intros Hin. unfold _index_of.
  destruct (index_of_from σ tiles tile 0) eqn:E; [by eexists|].
  exfalso. by apply (proj1 (index_of_from_None σ tiles tile 0) E tile).
Qed.

Lemma index_of_first (σ : store) (tiles : list loc) tile (k : nat) :
  tiles !! k = Some tile →
  (∀ (k' : nat) t, (k' < k)%nat → tiles !! k' = Some t → id (σ t) ≠ id (σ tile)) →
  _index_of σ tiles tile = Some (Z.of_nat k).
Proof.
  intros Hk Hmin.
  destruct (index_of_in_list σ tiles tile) as [i Hi].
  { apply list_elem_of_lookup. by exists k. }
  rewrite Hi. f_equal. unfold _index_of in Hi.
  apply index_of_from_Some in Hi as (k0 & t0 & -> & Hk0 & Hid0 & Hmin0).
  rewrite Z.add_0_l.
  destruct (decide (k0 = k)) as [->|Hne]; [lia|]. exfalso.
  destruct (decide (k0 < k)%nat).
  - by apply (Hmin k0 t0).
  - apply (Hmin0 k tile); [lia|done..].
Qed.

Lemma index_of_Some (σ : store) (tiles : list loc) tile i :
  _index_of σ tiles tile = Some i →
  ∃ (k : nat) t,
    i = Z.of_nat k ∧ tiles !! k = Some t ∧ id (σ t) = id (σ tile) ∧
    ∀ (k' : nat) t', (k' < k)%nat → tiles !! k' = Some t' → id (σ t') ≠ id (σ tile).
Proof.
  unfold _index_of. intros Hi.
  apply index_of_from_Some in Hi as (k & t & -> & Hrest).
  exists k, t. split; [lia|done].
Qed.

(** With the index [_index_of] returns, [move_tile] does the exchange the
    specification describes, and raises no [IndexError]. *)
Lemma move_tile_found (σ : store) (tiles : list loc) tile delta (k : nat) :
  _index_of σ tiles tile = Some (Z.of_nat k) →
  ∃ rebuilt, move_tile σ tiles tile delta = Some (swap_with_clamped tiles k delta, rebuilt).
Proof.
  intros Hidx. destruct (index_of_Some _ _ _ _ Hidx) as (k0 & t & Hk0 & Hk & _).
  apply Nat2Z.inj in Hk0 as <-.
  pose proof (lookup_lt_Some _ _ _ Hk) as Hlen.
  unfold move_tile, swap_with_clamped. rewrite Hidx, Hk.
  set (j := Z.max 0 (Z.min (Z.of_nat (length tiles) - 1) (Z.of_nat k + delta))).
  assert (0 ≤ j < Z.of_nat (length tiles)) as Hj by lia.
  destruct (lookup_lt_is_Some_2 tiles (Z.to_nat j)) as [tj Htj]; [lia|].
  rewrite Htj. case_bool_decide as Hij.
  - replace (swap_items tiles (Z.of_nat k) j)
      with (swap_items tiles (Z.of_nat k) (Z.of_nat (Z.to_nat j))) by (f_equal; lia).
    rewrite (swap_items_spec tiles k (Z.to_nat j) t tj Hk Htj). by eexists.
  - assert (Z.to_nat j = k) as Hjk by (destruct (decide (Z.of_nat k = j)); [lia|tauto]).
    rewrite Hjk in *. simplify_eq.
    exists false. by rewrite !(list_insert_id tiles k t Hk).
Qed.

Lemma move_tile_not_found (σ : store) (tiles : list loc) tile delta :
  _index_of σ tiles tile = None → move_tile σ tiles tile delta = Some (tiles, false).
Proof. intros Hidx. unfold move_tile. by rewrite Hidx. Qed.

Lemma swap_with_clamped_spec (tiles : list loc) (k : nat) (delta : Z) :
  (k < length tiles)%nat →
  let j := Z.to_nat (Z.max 0 (Z.min (Z.of_nat (length tiles) - 1) (Z.of_nat k + delta))) in
  (j < length tiles)%nat ∧
  swap_with_clamped tiles k delta ≡ₚ tiles ∧
  length (swap_with_clamped tiles k delta) = length tiles ∧
  swap_with_clamped tiles k delta !! k = tiles !! j ∧
  swap_with_clamped tiles k delta !! j = tiles !! k ∧
  (∀ k' : nat, k' ≠ k → k' ≠ j → swap_with_clamped tiles k delta !! k' = tiles !! k') ∧
  (j = k → swap_with_clamped tiles k delta = tiles).
Proof.
  intros Hlen j. assert (j < length tiles)%nat as Hj by lia.
  destruct (lookup_lt_is_Some_2 tiles k Hlen) as [tk Hk].
  destruct (lookup_lt_is_Some_2 tiles j Hj) as [tj Htj].
  unfold swap_with_clamped. fold j. rewrite Hk, Htj.
  split; [done|]. split; [by apply swap_perm|].
  split; [by rewrite !length_insert|].
  split; [|split; [|split]].
  - destruct (decide (j = k)) as [Heq|Hne].
    + rewrite Heq in *. rewrite list_lookup_insert_eq by (rewrite length_insert; lia).
      congruence.
    + rewrite list_lookup_insert_ne by done.
      by rewrite list_lookup_insert_eq by lia.
  - by rewrite list_lookup_insert_eq by (rewrite length_insert; lia).
  - intros k' Hk1 Hk2. by rewrite !list_lookup_insert_ne.
  - intros Heq. rewrite Heq in *.
    assert (tj = tk) as -> by congruence.
    by rewrite !(list_insert_id tiles k tk Hk).
Qed.

(** X20.  What [move_tile] does on every input.  It raises no [IndexError]
    and leaves a permutation of the list, of the same length.  The tile it
    moves is the one at the index [_index_of] returns: the first tile of
    the list with the id of the given tile, which is the given tile itself
    when no earlier tile has its id.  With [i] this index and [j] the index
    [i + delta] clamped to the indices of the list, the list afterwards has
    the items at [i] and [j] exchanged and all other items in place; it is
    unchanged when [j = i], and when no tile of the list has the id.  For a
    tile of the list that no earlier tile shares its id with, this is the
    reorder of the specification. *)
Theorem move_tile_reorders (σ : store) (tiles : list loc) (tile : loc) (delta : Z) :
  ∃ tiles' rebuilt,
    move_tile σ tiles tile delta = Some (tiles', rebuilt) ∧
    tiles' ≡ₚ tiles ∧ length tiles' = length tiles ∧
    (∀ i, _index_of σ tiles tile = Some i →
       let j := Z.max 0 (Z.min (Z.of_nat (length tiles) - 1) (i + delta)) in
       0 ≤ i < Z.of_nat (length tiles) ∧ 0 ≤ j < Z.of_nat (length tiles) ∧
       (∃ t, tiles !! Z.to_nat i = Some t ∧ id (σ t) = id (σ tile)) ∧
       (∀ (k : nat) t, Z.of_nat k < i → tiles !! k = Some t → id (σ t) ≠ id (σ tile)) ∧
       tiles' !! Z.to_nat i = tiles !! Z.to_nat j ∧
       tiles' !! Z.to_nat j = tiles !! Z.to_nat i ∧
       (∀ k : nat, k ≠ Z.to_nat i → k ≠ Z.to_nat j → tiles' !! k = tiles !! k) ∧
       (i = j → tiles' = tiles)) ∧
    (tile ∈ tiles → is_Some (_index_of σ tiles tile)) ∧
    (∀ k : nat,
       tiles !! k = Some tile →
       (∀ (k' : nat) t, (k' < k)%nat → tiles !! k' = Some t → id (σ t) ≠ id (σ tile)) →
       _index_of σ tiles tile = Some (Z.of_nat k) ∧
       tiles' = swap_with_clamped tiles k delta) ∧
    ((∀ t, t ∈ tiles → id (σ t) ≠ id (σ tile)) →
     _index_of σ tiles tile = None ∧ tiles' = tiles).
Proof.
  destruct (_index_of σ tiles tile) as [i|] eqn:Hidx.
  - destruct (index_of_Some _ _ _ _ Hidx) as (k & t & -> & Hk & Hid & Hmin).
    destruct (move_tile_found σ tiles tile delta k Hidx) as [rebuilt Hmove].
    pose proof (lookup_lt_Some _ _ _ Hk) as Hlen.
    destruct (swap_with_clamped_spec tiles k delta Hlen)
      as (Hj & Hperm & Hlength & Hati & Hatj & Hothers & Hsame).
    exists (swap_with_clamped tiles k delta), rebuilt.
    split; [done|]. split; [done|]. split; [done|].
    split; [|split; [by eexists|split]].
    + intros i [= <-]. rewrite Nat2Z.id. simpl.
      split; [lia|]. split; [lia|]. split; [by exists t|].
      split; [intros k' t' Hk'; apply Hmin; lia|].
      split; [done|]. split; [done|]. split; [done|].
      intros Heq. apply Hsame. lia.
    + intros k0 Hk0 Hmin0.
      pose proof (index_of_first σ tiles tile k0 Hk0 Hmin0) as Hfirst.
      rewrite Hidx in Hfirst. injection Hfirst as Hfirst.
      apply Nat2Z.inj in Hfirst as ->. done.
    + intros Hnone. exfalso. apply (Hnone t); [|done].
      apply list_elem_of_lookup. by exists k.
  - exists tiles, false.
    split; [by apply move_tile_not_found|]. split; [done|]. split; [done|].
    split; [done|]. split; [|split; [|done]].
    + intros Hin. apply (index_of_in_list σ) in Hin. by rewrite Hidx in Hin.
    + intros k Hk Hmin. pose proof (index_of_first σ tiles tile k Hk Hmin) as Hfirst.
      by rewrite Hidx in Hfirst.
Qed.

Lemma move_tile_reorders_witness :
  (1%nat ∈ [0; 1; 2; 3; 4]%nat) ∧
  _index_of demo_store [0; 1; 2; 3; 4]%nat 1%nat = Some 1 ∧
  move_tile demo_store [0; 1; 2; 3; 4]%nat 1%nat 1 = Some ([0; 2; 1; 3; 4]%nat, true) ∧
  [0; 2; 1; 3; 4]%nat ≡ₚ [0; 1; 2; 3; 4]%nat.
Proof.
  destruct (move_tile_reorders demo_store [0; 1; 2; 3; 4]%nat 1%nat 1)
    as (tiles' & rebuilt & Hmove & Hperm & _ & _ & Hin & _).
  assert (1%nat ∈ [0; 1; 2; 3; 4]%nat) as Hmem
    by (apply list_elem_of_further, list_elem_of_here).
  split; [exact Hmem|].
  destruct (Hin Hmem) as [i Hi]. vm_compute in Hi. injection Hi as <-.
  split; [reflexivity|].
  vm_compute in Hmove. injection Hmove as <- <-.
  split; [reflexivity|exact Hperm].
Defined.

(** The reorder of the specification is not what [move_tile] does on every
    list: it is missed on two tiles made in the same second, which have
    the same id. *)
Lemma move_tile_misses_clamped_swap :
  ¬ (∀ (σ : store) (tiles : list loc) (tile : loc) (delta : Z) (k : nat),
       tiles !! k = Some tile →
       ∃ rebuilt,
         move_tile σ tiles tile delta = Some (swap_with_clamped tiles k delta, rebuilt)).
Proof.
  intros Hclaim.
  destruct (Hclaim twin_store [0; 1]%nat 1%nat 1 1%nat eq_refl) as [rebuilt Hmove].
  vm_compute in Hmove. discriminate.
Qed.

(** C10.  The list [0; 1] holds two different tile objects with the id
    [tile_1700000000], as two tiles made in the same second have.  The
    second tile is the last of the list, so moving it forward should leave
    the list as it is (the clamped target is its own index 1); [move_tile]
    looks the tile up by its id, finds the first tile at index 0 and
    exchanges the two.  Moving the second tile back should exchange the
    two; [move_tile] finds the first tile, whose clamped target is its own
    index 0, and does nothing. *)
Theorem move_tile_same_id_evaluated :
  twin_store 0%nat ≠ twin_store 1%nat ∧
  id (twin_store 0%nat) = id (twin_store 1%nat) ∧
  [0; 1]%nat !! 1%nat = Some 1%nat ∧
  _index_of twin_store [0; 1]%nat 1%nat = Some 0 ∧
  move_tile twin_store [0; 1]%nat 1%nat 1 = Some ([1; 0]%nat, true) ∧
  swap_with_clamped [0; 1]%nat 1 1 = [0; 1]%nat ∧
  move_tile twin_store [0; 1]%nat 1%nat (-1) = Some ([0; 1]%nat, false) ∧
  swap_with_clamped [0; 1]%nat 1 (-1) = [1; 0]%nat.
Proof. repeat split; try reflexivity. discriminate. Qed.

(** ** ConfigManager *)

Lemma Tile_of_kwargs_asdict (o : TileObj) : Tile_of_kwargs (asdict o) = Some o.
Proof.
  unfold Tile_of_kwargs. rewrite bool_decide_eq_true_2.
  - by destruct o.
  - unfold asdict, Tile_fields. rewrite !dom_insert_L, dom_empty_L. set_solver.
Qed.

Lemma asdict_dom (o : TileObj) : dom (asdict o) = list_to_set Tile_fields.
Proof.
  unfold asdict, Tile_fields. rewrite !dom_insert_L, dom_empty_L. set_solver.
Qed.

Lemma mapM_Tile_of_value_asdict (objs : list TileObj) :
  mapM Tile_of_value ((λ o, VDict (asdict o)) <$> objs) = Some objs.
Proof.
  induction objs as [|o objs IH]; [done|].
  rewrite fmap_cons. cbn [mapM]. rewrite IH.
  cbn [Tile_of_value]. by rewrite Tile_of_kwargs_asdict.
Qed.

Lemma obj_of_tile_inj t t' : obj_of_tile t = obj_of_tile t' → t = t'.
Proof.
  destruct t as [i ti c ip at_ av s r cl], t' as [i' ti' c' ip' at_' av' s' r' cl'].
  unfold obj_of_tile. simpl. intros H. injection H as -> -> -> Hip -> -> -> -> ->.
  f_equal. by destruct ip, ip'; simplify_eq.
Qed.

Section ConfigManager_facts.
Context {text : Type}.
Variable json_loads : text → option value.
Variable json_dumps : value → text.
Variable platform : string.
Variable home : string.

Lemma load_body_dict content entries :
  json_loads content = Some (VDict entries) →
  load_body json_loads (File content) =
  match iterate (default (VList []) (entries !! "tiles")) ≫= mapM Tile_of_value with
  | Some tiles =>
      Some {| o_theme := default (VStr "dark") (entries !! "theme");
              o_columns := default (VInt 4) (entries !! "columns");
              o_tiles := tiles |}
  | None => None
  end.
Proof.
  intros Hload. unfold load_body. simpl. rewrite Hload. simpl.
  destruct (iterate (default (VList []) (entries !! "tiles"))) as [items|]; [|done].
  simpl. by destruct (mapM Tile_of_value items).
Qed.

(** C2.  [load] always returns a state.  It returns the default state
    (theme "dark", 4 columns, the five built-in tiles) when the path does
    not exist, when the file cannot be read, when parsing fails, when the
    parsed value is not an object, and when the tiles cannot be built;
    in every other case it returns the state built from the parsed object,
    with "dark", 4 and the empty tile list in place of a missing "theme",
    "columns" and "tiles". *)
Theorem load_falls_back (fs : gmap string (node text)) (path : string) :
  (o_theme (_default_state platform home) = VStr "dark" ∧
   o_columns (_default_state platform home) = VInt 4 ∧
   o_tiles (_default_state platform home) = obj_of_tile <$> default_tiles platform home ∧
   id <$> default_tiles platform home =
     ["tile_browser"; "tile_docs"; "tile_cmd"; "tile_clock"; "tile_settings"]) ∧
  (fs !! path = None →
   load json_loads platform home fs path = _default_state platform home) ∧
  (fs !! path = Some Blocked →
   load json_loads platform home fs path = _default_state platform home) ∧
  (∀ content,
     fs !! path = Some (File content) → json_loads content = None →
     load json_loads platform home fs path = _default_state platform home) ∧
  (∀ content data,
     fs !! path = Some (File content) → json_loads content = Some data →
     (∀ entries, data ≠ VDict entries) →
     load json_loads platform home fs path = _default_state platform home) ∧
  (∀ content entries,
     fs !! path = Some (File content) → json_loads content = Some (VDict entries) →
     iterate (default (VList []) (entries !! "tiles")) ≫= mapM Tile_of_value = None →
     load json_loads platform home fs path = _default_state platform home) ∧
  (∀ content entries tiles,
     fs !! path = Some (File content) → json_loads content = Some (VDict entries) →
     iterate (default (VList []) (entries !! "tiles")) ≫= mapM Tile_of_value = Some tiles →
     load json_loads platform home fs path =
     {| o_theme := default (VStr "dark") (entries !! "theme");
        o_columns := default (VInt 4) (entries !! "columns");
        o_tiles := tiles |}) ∧
  (∀ content entries,
     fs !! path = Some (File content) → json_loads content = Some (VDict entries) →
     entries !! "tiles" = None →
     o_tiles (load json_loads platform home fs path) = []).
Proof.
  split; [by repeat split|].
  split; [intros Hfs; unfold load; by rewrite Hfs|].
  split; [intros Hfs; unfold load; by rewrite Hfs|].
  split; [intros content Hfs Hparse; unfold load, load_body; rewrite Hfs; simpl;
          by rewrite Hparse|].
  split.
  { intros content data Hfs Hparse Hnodict. unfold load, load_body.
    rewrite Hfs. simpl. rewrite Hparse. simpl.
    destruct data; try done. by exfalso; eapply Hnodict. }
  split.
  { intros content entries Hfs Hparse Hbuild. unfold load. rewrite Hfs.
    by rewrite (load_body_dict _ _ Hparse), Hbuild. }
  split.
  { intros content entries tiles Hfs Hparse Hbuild. unfold load. rewrite Hfs.
    by rewrite (load_body_dict _ _ Hparse), Hbuild. }
  intros content entries Hfs Hparse Hmissing. unfold load. rewrite Hfs.
  rewrite (load_body_dict _ _ Hparse), Hmissing. done.
Qed.

(** C6.  [save] writes, at its path, the JSON text of an object with
    exactly the keys "theme", "columns" and "tiles": the theme and the
    column count of the state as they are, and the list, in order, of the
    field dictionaries of the tiles (all nine fields, each with the
    tile's value), which is the empty list when [state.tiles] is [None].
    No other path changes, and the write succeeds unless the path cannot
    be opened. *)
Theorem save_writes_payload (σ : store) (fs : gmap string (node text))
    (path : string) (state : AppState) :
  (fs !! path ≠ Some Blocked → is_Some (save json_dumps σ fs path state)) ∧
  (∀ fs',
     save json_dumps σ fs path state = Some fs' →
     ∃ entries,
       fs' !! path = Some (File (json_dumps (VDict entries))) ∧
       (∀ p, p ≠ path → fs' !! p = fs !! p) ∧
       dom entries = {["theme"; "columns"; "tiles"]} ∧
       entries !! "theme" = Some (VStr (theme state)) ∧
       entries !! "columns" = Some (VInt (columns state)) ∧
       entries !! "tiles" =
         Some (VList ((λ t, VDict (asdict (obj_of_tile (σ t))))
                        <$> default [] (tiles state))) ∧
       (tiles state = None → entries !! "tiles" = Some (VList []))) ∧
  (∀ t,
     dom (asdict (obj_of_tile t)) = list_to_set Tile_fields ∧
     asdict (obj_of_tile t) !! "id" = Some (VStr (id t)) ∧
     asdict (obj_of_tile t) !! "title" = Some (VStr (title t)) ∧
     asdict (obj_of_tile t) !! "color" = Some (VStr (color t)) ∧
     asdict (obj_of_tile t) !! "icon_path" =
       Some (match icon_path t with Some p => VStr p | None => VNone end) ∧
     asdict (obj_of_tile t) !! "action_type" = Some (VStr (action_type t)) ∧
     asdict (obj_of_tile t) !! "action_value" = Some (VStr (action_value t)) ∧
     asdict (obj_of_tile t) !! "size" = Some (VStr (size t)) ∧
     asdict (obj_of_tile t) !! "row" = Some (VInt (row t)) ∧
     asdict (obj_of_tile t) !! "col" = Some (VInt (col t))).
Proof.
  split; [|split].
  - intros Hopen. unfold save.
    destruct (fs !! path) as [[|content]|]; [done|by eexists..].
  - intros fs' Hsave. unfold save in Hsave.
    assert (fs' = <[path := File (json_dumps (VDict (payload σ state)))]> fs) as ->.
    { destruct (fs !! path) as [[|content]|]; [done|by injection Hsave..]. }
    exists (payload σ state).
    split; [by rewrite lookup_insert_eq|].
    split; [intros p Hp; by rewrite lookup_insert_ne|].
    split; [unfold payload; rewrite !dom_insert_L, dom_empty_L; set_solver|].
    split; [done|]. split; [done|]. split; [done|].
    intros Hnone. unfold payload. by rewrite Hnone.
  - intros t. split; [apply asdict_dom|]. by repeat split.
Qed.

(** C4.  Saving a state whose [tiles] is a list and loading from the same
    path gives the state back: the same theme, the same column count, and
    a tile list of the same length whose tiles have, field for field, the
    values of the saved ones.  The [json] module is taken to read back
    the document it has written. *)
Theorem save_load_roundtrip (σ : store) (fs fs' : gmap string (node text))
    (path : string) (state : AppState) (l : list loc) :
  json_loads (json_dumps (VDict (payload σ state))) = Some (VDict (payload σ state)) →
  tiles state = Some l →
  save json_dumps σ fs path state = Some fs' →
  load json_loads platform home fs' path =
    {| o_theme := VStr (theme state);
       o_columns := VInt (columns state);
       o_tiles := (λ t, obj_of_tile (σ t)) <$> l |} ∧
  length (o_tiles (load json_loads platform home fs' path)) = length l ∧
  (∀ (i : nat) t,
     l !! i = Some t →
     o_tiles (load json_loads platform home fs' path) !! i = Some (obj_of_tile (σ t))) ∧
  (∀ t t', obj_of_tile t = obj_of_tile t' → t = t').
Proof.
  intros Hjson Htiles Hsave.
  assert (load json_loads platform home fs' path =
          {| o_theme := VStr (theme state);
             o_columns := VInt (columns state);
             o_tiles := (λ t, obj_of_tile (σ t)) <$> l |}) as Hload.
  { unfold save in Hsave.
    assert (fs' = <[path := File (json_dumps (VDict (payload σ state)))]> fs) as ->.
    { destruct (fs !! path) as [[|content]|]; [done|by injection Hsave..]. }
    unfold load. rewrite lookup_insert_eq.
    rewrite (load_body_dict _ _ Hjson).
    unfold payload at 1. rewrite Htiles.
    rewrite lookup_insert_ne, lookup_insert_ne, lookup_insert_eq by done.
    simpl.
    replace ((λ t, VDict (asdict (obj_of_tile (σ t)))) <$> l)
      with ((λ o, VDict (asdict o)) <$> ((λ t, obj_of_tile (σ t)) <$> l))
      by (by rewrite <- list_fmap_compose).
    rewrite mapM_Tile_of_value_asdict. done. }
  rewrite Hload. simpl. split; [done|]. split; [by rewrite length_fmap|].
  split; [|exact obj_of_tile_inj].
  intros i t Hi. by rewrite list_lookup_fmap, Hi.
Qed.
End ConfigManager_facts.

(** ** Worked instances for the configuration *)

Lemma load_falls_back_witness :
  demo_fs !! "none.json" = None ∧
  load demo_loads "linux" "/home/u" demo_fs "none.json" = _default_state "linux" "/home/u" ∧
  demo_fs !! "dir" = Some Blocked ∧
  load demo_loads "linux" "/home/u" demo_fs "dir" = _default_state "linux" "/home/u" ∧
  demo_fs !! "list.json" = Some (File "[]") ∧ demo_loads "[]" = Some (VList []) ∧
  load demo_loads "linux" "/home/u" demo_fs "list.json" = _default_state "linux" "/home/u" ∧
  demo_fs !! "config.json" = Some (File "config") ∧
  demo_loads "config" = Some demo_document ∧
  load demo_loads "linux" "/home/u" demo_fs "config.json" =
    {| o_theme := VStr "light";
       o_columns := VInt 4;
       o_tiles := [ mkTileObj (VStr "a") (VStr "A") (VStr "#0078D7") VNone (VStr "url")
                              (VStr "") (VStr "small") (VInt 0) (VInt 0) ] |}.
Proof.
  split; [reflexivity|]. split.
  { apply (proj1 (proj2 (load_falls_back demo_loads "linux" "/home/u" demo_fs "none.json"))).
    reflexivity. }
  split; [reflexivity|]. split.
  { apply (proj1 (proj2 (proj2 (load_falls_back demo_loads "linux" "/home/u" demo_fs "dir")))).
    reflexivity. }
  split; [reflexivity|]. split; [reflexivity|]. split.
  { destruct (load_falls_back demo_loads "linux" "/home/u" demo_fs "list.json")
      as (_ & _ & _ & _ & Hnodict & _).
    apply (Hnodict "[]" (VList [])); [reflexivity|reflexivity|discriminate]. }
  split; [reflexivity|]. split; [reflexivity|].
  destruct (load_falls_back demo_loads "linux" "/home/u" demo_fs "config.json")
    as (_ & _ & _ & _ & _ & _ & Hbuilt & _).
  unfold demo_document in Hbuilt.
  apply (Hbuilt "config" _ _ eq_refl eq_refl eq_refl).
Defined.

Lemma save_writes_payload_witness :
  (∅ : gmap string (node value)) !! "config.json" ≠ Some Blocked ∧
  ∃ fs',
    save (λ v, v) demo_store ∅ "config.json" demo_state = Some fs' ∧
    ∃ entries,
      fs' !! "config.json" = Some (File (VDict entries)) ∧
      dom entries = {["theme"; "columns"; "tiles"]} ∧
      entries !! "theme" = Some (VStr "light") ∧
      entries !! "columns" = Some (VInt 6).
Proof.
  assert ((∅ : gmap string (node value)) !! "config.json" ≠ Some Blocked) as Hopen
    by discriminate.
  split; [exact Hopen|].
  destruct (save_writes_payload (λ v, v) demo_store ∅ "config.json" demo_state)
    as (Hok & Hwrite & _).
  destruct (Hok Hopen) as [fs' Hfs']. exists fs'. split; [exact Hfs'|].
  destruct (Hwrite fs' Hfs') as (entries & Hfile & _ & Hdom & Htheme & Hcols & _).
  exists entries. repeat split; assumption.
Defined.

Lemma save_load_roundtrip_witness :
  ∃ fs',
    tiles demo_state = Some [0; 3]%nat ∧
    save (λ v, v) demo_store ∅ "config.json" demo_state = Some fs' ∧
    load Some "linux" "/home/u" fs' "config.json" =
      {| o_theme := VStr "light";
         o_columns := VInt 6;
         o_tiles := [obj_of_tile (demo_store 0%nat); obj_of_tile (demo_store 3%nat)] |}.
Proof.
  eexists. split; [reflexivity|]. split; [reflexivity|].
  exact (proj1 (save_load_roundtrip Some (λ v, v) "linux" "/home/u" demo_store ∅ _
                  "config.json" demo_state [0; 3]%nat eq_refl eq_refl eq_refl)).
Defined.

(** * More of the program *)

(** ** The packer: when it returns, how far down it goes, repacking *)

(** X1.  [_pack_tiles] returns (with some amount of fuel) exactly when the
    column span of every tile is at most the column count; with a tile
    wider than the grid, so with no column at all or with one column and a
    wide or large tile, the loop of [first_fit] never ends. *)
Theorem pack_tiles_returns_iff (σ : store) (tiles : list loc) (columns : Z) :
  (∃ fuel, is_Some (_pack_tiles fuel σ tiles columns)) ↔
  Forall (λ t, colspan (σ t) ≤ columns) tiles.
Proof.
  split.
  - intros [fuel Hsome].
    destruct (decide (Forall (λ t, colspan (σ t) ≤ columns) tiles)) as [|Hno]; [done|].
    exfalso. apply not_Forall_Exists in Hno; [|intros t; apply _].
    rewrite (pack_tiles_too_wide fuel σ tiles columns) in Hsome.
    + by destruct Hsome.
    + eapply Exists_impl; [exact Hno|]. intros t Ht. simpl in Ht. lia.
  - intros Hall. destruct (pack_tiles_total σ tiles columns Hall)
      as (fuel0 & σ' & positions & Hres).
    exists fuel0. rewrite (Hres fuel0); [by eexists|lia].
Qed.

Lemma first_fit_row_le columns placed rspan cspan r c h :
  first_fit_position columns placed rspan cspan r c →
  0 ≤ h →
  (∀ p rr cc, p ∈ placed → covers p rr cc → rr < h) →
  r ≤ h.
Proof.
  intros (Hr & (Hc & Hend & _) & Hmin) Hh Hbelow.
  destruct (Hmin h 0 Hh) as [Hlt|[-> _]]; [|lia|lia].
  split; [lia|]. split; [lia|].
  intros rr cc [Hrr _] (p & Hp & Hcov). apply (Hbelow p rr cc Hp) in Hcov. lia.
Qed.

Lemma pack_tiles_row_bound fuel (σ : store) tiles columns σ' positions :
  _pack_tiles fuel σ tiles columns = Some (σ', positions) →
  ∀ (n : nat) pre t r c rspan cspan post,
    positions = pre ++ (t, (r, c, rspan, cspan)) :: post →
    length pre = n →
    0 ≤ r ≤ 2 * Z.of_nat n ∧ 1 ≤ rspan ≤ 2.
Proof.
  intros Hpack. pose proof (pack_tiles_placed _ _ _ _ _ _ Hpack) as [_ Hplaced].
  induction n as [n IH] using lt_wf_ind.
  intros pre t r c rspan cspan post Hsplit Hlen.
  destruct (Hplaced pre _ post Hsplit) as [Hspan Hfirst].
  assert (1 ≤ rspan ≤ 2) as Hrs.
  { destruct (size_span_cases (size (σ t))) as [Heq | [Heq | Heq]];
      rewrite Heq in Hspan; injection Hspan as -> ->; lia. }
  split; [|done]. split; [apply Hfirst|].
  apply (first_fit_row_le columns (pre.*2) rspan cspan r c); [done|lia|].
  intros p rr cc Hp Hcov.
  apply list_elem_of_fmap in Hp as ([tp gp] & -> & Hin). simpl in Hcov.
  apply list_elem_of_lookup in Hin as [j Hj].
  pose proof (lookup_lt_Some _ _ _ Hj) as Hjlt.
  pose proof (take_drop_middle pre j (tp, gp) Hj) as Hmid.
  destruct gp as [[[rp cp] rsp] csp].
  destruct (IH j ltac:(lia) (take j pre) tp rp cp rsp csp
               (drop (S j) pre ++ (t, (r, c, rspan, cspan)) :: post)) as [Hrp Hrsp].
  { rewrite Hsplit, <- Hmid at 1. by rewrite <- app_assoc. }
  { rewrite length_take. lia. }
  destruct Hcov as [Hrr _]. lia.
Qed.

Lemma first_fit_from_fuel_enough (occupancy : gmap (Z * Z) bool) columns rspan cspan fuel :
  ∀ fuel' r0 r c occupancy',
    first_fit_from fuel occupancy columns rspan cspan r0 = Some (r, c, occupancy') →
    (Z.to_nat (r - r0) < fuel')%nat →
    first_fit_from fuel' occupancy columns rspan cspan r0 = Some (r, c, occupancy').
Proof.
  induction fuel as [|fuel IH]; intros fuel' r0 r c occupancy'; simpl; [done|].
  intros Hres Hfuel. destruct fuel' as [|fuel']; [lia|]. simpl.
  destruct (scan_row occupancy columns r0 rspan cspan (range 0 columns))
    as [[c0 occ0]|]; [done|].
  pose proof (first_fit_from_spec _ _ _ _ _ _ _ _ _ Hres) as (Hr & _).
  apply IH; [done|lia].
Qed.

Lemma pack_loop_fuel_enough fuel fuel' columns tiles :
  ∀ (σ : store) (occupancy : gmap (Z * Z) bool) (acc new : list position) σ' occupancy',
    pack_loop fuel columns tiles σ occupancy acc = Some (σ', occupancy', acc ++ new) →
    (∀ t r c rspan cspan, (t, (r, c, rspan, cspan)) ∈ new → (Z.to_nat r < fuel')%nat) →
    pack_loop fuel' columns tiles σ occupancy acc = Some (σ', occupancy', acc ++ new).
Proof.
  induction tiles as [|t0 tiles IH]; intros σ occupancy acc new σ' occupancy'; simpl;
    [done|].
  destruct (size_span (size (σ t0))) as [rs0 cs0].
  destruct (first_fit fuel occupancy columns rs0 cs0) as [[[r0 c0] occ1]|] eqn:Hff;
    [|done].
  intros Hloop Hrows.
  destruct (pack_loop_store _ _ _ _ _ _ _ _ _ Hloop) as (new' & Hres & _).
  rewrite <- app_assoc in Hres. apply app_inv_head in Hres. simpl in Hres. subst new.
  unfold first_fit in *.
  rewrite (first_fit_from_fuel_enough _ _ _ _ _ fuel' _ _ _ _ Hff).
  2:{ rewrite Z.sub_0_r. apply (Hrows t0 r0 c0 rs0 cs0). apply list_elem_of_here. }
  unfold position in *.
  assert (acc ++ (t0, (r0, c0, rs0, cs0)) :: new'
          = (acc ++ [(t0, (r0, c0, rs0, cs0))]) ++ new') as Heq
    by (by rewrite (cons_middle _ acc new'), app_assoc).
  rewrite Heq in Hloop. rewrite Heq.
  apply IH; [done|].
  intros t r c rspan cspan Hin. apply (Hrows t r c rspan cspan).
  by apply list_elem_of_further.
Qed.

(** X2.  The packer leaves no gap it could have used: the first tile is
    placed at row 0, column 0, and the tile at index [n] of the list is
    placed in one of the rows 0 to [2 * n].  So, when every column span is at
    most the column count, a fuel of twice the number of tiles is enough:
    no call of [first_fit] looks at more rows than that. *)
Theorem pack_tiles_rows_bounded (σ : store) (tiles : list loc) (columns : Z) :
  (∀ fuel σ' positions,
     _pack_tiles fuel σ tiles columns = Some (σ', positions) →
     (∀ t r c rspan cspan post,
        positions = (t, (r, c, rspan, cspan)) :: post → r = 0 ∧ c = 0) ∧
     (∀ pre t r c rspan cspan post,
        positions = pre ++ (t, (r, c, rspan, cspan)) :: post →
        0 ≤ r ≤ 2 * Z.of_nat (length pre))) ∧
  (Forall (λ t, colspan (σ t) ≤ columns) tiles →
   is_Some (_pack_tiles (2 * length tiles) σ tiles columns)).
Proof.
  split.
  - intros fuel σ' positions Hpack. split.
    + intros t r c rspan cspan post Hsplit.
      destruct (pack_tiles_row_bound _ _ _ _ _ _ Hpack 0%nat [] t r c rspan cspan post
                  Hsplit eq_refl) as [Hr _].
      pose proof (pack_tiles_placed _ _ _ _ _ _ Hpack) as [_ Hplaced].
      destruct (Hplaced [] _ post Hsplit) as (_ & _ & (Hc & Hend & _) & Hmin).
      split; [lia|].
      destruct (Hmin 0 0) as [Hlt|[_ Hle]]; [lia| |lia|lia].
      split; [lia|]. split; [lia|].
      intros rr cc _ (p & Hp & _). by apply elem_of_nil in Hp.
    + intros pre t r c rspan cspan post Hsplit.
      by destruct (pack_tiles_row_bound _ _ _ _ _ _ Hpack _ pre t r c rspan cspan post
                     Hsplit eq_refl).
  - intros Hall.
    destruct (pack_tiles_total σ tiles columns Hall) as (fuel0 & σ' & positions & Hres).
    pose proof (Hres fuel0 (Nat.le_refl _)) as Hpack.
    destruct (pack_tiles_loop _ _ _ _ _ _ Hpack) as [occ' Hloop].
    pose proof (pack_tiles_placed _ _ _ _ _ _ Hpack) as [Horder _].
    unfold _pack_tiles.
    rewrite (pack_loop_fuel_enough fuel0 (2 * length tiles) columns tiles σ ∅ []
               positions σ' occ' Hloop); [by eexists|].
    intros t r c rspan cspan Hin.
    apply list_elem_of_split in Hin as (pre & post & Hsplit).
    destruct (pack_tiles_row_bound _ _ _ _ _ _ Hpack _ pre t r c rspan cspan post
                Hsplit eq_refl) as [Hr _].
    assert (length pre < length tiles)%nat.
    { rewrite <- Horder, Hsplit, length_fmap, length_app. simpl. lia. }
    lia.
Qed.

Lemma pack_tiles_rows_bounded_witness :
  Forall (λ t, colspan (demo_store t) ≤ 4) [0; 1; 2; 3; 4]%nat ∧
  is_Some (_pack_tiles (2 * length [0; 1; 2; 3; 4]%nat) demo_store [0; 1; 2; 3; 4]%nat 4) ∧
  ∃ σ', _pack_tiles 3 demo_store [0; 1; 2; 3; 4]%nat 4 = Some (σ', demo_positions) ∧
        0 ≤ 1 ≤ 2 * Z.of_nat (length (take 3 demo_positions)).
Proof.
  destruct (pack_tiles_rows_bounded demo_store [0; 1; 2; 3; 4]%nat 4) as [Hrows Hfuel].
  split; [exact demo_colspans|]. split; [exact (Hfuel demo_colspans)|].
  destruct demo_pack as [σ' Hpack]. exists σ'. split; [exact Hpack|].
  destruct (Hrows 3%nat σ' demo_positions Hpack) as [_ Hbound].
  exact (Hbound (take 3 demo_positions) 3%nat 1 0 2 2 [(4%nat, (1, 2, 1, 1))] eq_refl).
Defined.

Lemma pack_loop_sizes fuel columns tiles :
  ∀ (σ1 σ2 : store) (occupancy : gmap (Z * Z) bool) (acc : list position)
    σ1' occupancy' res,
    Forall (λ l, size (σ1 l) = size (σ2 l)) tiles →
    pack_loop fuel columns tiles σ1 occupancy acc = Some (σ1', occupancy', res) →
    ∃ σ2', pack_loop fuel columns tiles σ2 occupancy acc = Some (σ2', occupancy', res).
Proof.
  induction tiles as [|t tiles IH]; intros σ1 σ2 occupancy acc σ1' occupancy' res Hsz;
    simpl.
  - intros [= <- <- <-]. by eexists.
  - apply Forall_cons in Hsz as [Ht Hsz]. rewrite <- Ht.
    destruct (size_span (size (σ1 t))) as [rspan cspan].
    destruct (first_fit fuel occupancy columns rspan cspan) as [[[r c] occ1]|]; [|done].
    apply IH. eapply Forall_impl; [exact Hsz|]. intros l Hl. simpl in Hl.
    by rewrite !size_insert_set_row_col.
Qed.

(** X3.  The positions depend on the sizes of the tiles, their order and
    the column count only, not on the rows and columns stored in the tiles:
    two stores whose listed tiles have the same sizes get the same
    positions.  So packing again right after packing changes nothing: the
    same positions are returned and every tile object is left as it is. *)
Theorem pack_tiles_repack (fuel : nat) (σ : store) (tiles : list loc) (columns : Z)
    σ' positions :
  _pack_tiles fuel σ tiles columns = Some (σ', positions) →
  (∀ σ2 : store,
     Forall (λ l, size (σ l) = size (σ2 l)) tiles →
     ∃ σ2', _pack_tiles fuel σ2 tiles columns = Some (σ2', positions)) ∧
  (∃ σ'', _pack_tiles fuel σ' tiles columns = Some (σ'', positions) ∧
          ∀ l, σ'' l = σ' l).
Proof.
  intros Hpack. destruct (pack_tiles_loop _ _ _ _ _ _ Hpack) as [occ' Hloop].
  assert (∀ σ2 : store,
            Forall (λ l, size (σ l) = size (σ2 l)) tiles →
            ∃ σ2', _pack_tiles fuel σ2 tiles columns = Some (σ2', positions)) as Hsizes.
  { intros σ2 Hsz.
    destruct (pack_loop_sizes _ _ _ _ _ _ _ _ _ _ Hsz Hloop) as [σ2' Hloop2].
    exists σ2'. unfold _pack_tiles. by rewrite Hloop2. }
  split; [exact Hsizes|].
  destruct (pack_loop_store _ _ _ _ _ _ _ _ _ Hloop)
    as (new & Hnew & Horder & Hsame & _ & Hpos).
  simpl in Hnew. subst new.
  destruct (Hsizes σ') as [σ'' Hpack2].
  { apply Forall_forall. intros l _. by destruct (Hsame l) as (_ & _ & _ & _ & _ & _ & ->). }
  exists σ''. split; [done|].
  destruct (pack_tiles_loop _ _ _ _ _ _ Hpack2) as [occ'' Hloop2].
  destruct (pack_loop_store _ _ _ _ _ _ _ _ _ Hloop2)
    as (new & Hnew & _ & Hsame2 & Hframe2 & Hpos2).
  simpl in Hnew. subst new.
  intros l. destruct (decide (l ∈ tiles)) as [Hin|Hout]; [|by apply Hframe2].
  apply list_elem_of_split_r in Hin as (l1 & l2 & Htiles & Hlast).
  rewrite Htiles in Horder.
  apply fmap_app_inv in Horder as (pre & rest & Hpre & Hrest & Hsplit).
  symmetry in Hrest. apply fmap_cons_inv in Hrest as ([t g] & post & Ht & Hpost & ->).
  simpl in Ht. subst t. destruct g as [[[r c] rspan] cspan].
  rewrite Hpost in Hlast.
  destruct (Hpos pre l r c rspan cspan post Hsplit Hlast) as [Hr Hc].
  destruct (Hpos2 pre l r c rspan cspan post Hsplit Hlast) as [Hr2 Hc2].
  destruct (Hsame2 l) as (H1 & H2 & H3 & H4 & H5 & H6 & H7).
  destruct (σ' l), (σ'' l). simpl in *. by subst.
Qed.

Lemma pack_tiles_repack_witness :
  ∃ σ' σ'',
    _pack_tiles 3 demo_store [0; 1; 2; 3; 4]%nat 4 = Some (σ', demo_positions) ∧
    _pack_tiles 3 σ' [0; 1; 2; 3; 4]%nat 4 = Some (σ'', demo_positions) ∧
    σ'' 3%nat = σ' 3%nat.
Proof.
  destruct demo_pack as [σ' Hpack].
  destruct (pack_tiles_repack 3 demo_store [0; 1; 2; 3; 4]%nat 4 σ' demo_positions Hpack)
    as (_ & σ'' & Hagain & Hsame).
  exists σ', σ''. split; [exact Hpack|]. split; [exact Hagain|]. apply Hsame.
Defined.

Lemma unit_cell_first_fit columns placed r c (n : Z) :
  0 ≤ n →
  (∀ rr cc, taken placed rr cc ↔
            ∃ j, 0 ≤ j < n ∧ rr = j `div` columns ∧ cc = j `mod` columns) →
  first_fit_position columns placed 1 1 r c →
  r = n `div` columns ∧ c = n `mod` columns.
Proof.
  intros Hn Htaken (Hr & (Hc & Hend & Hfree) & Hmin).
  assert (0 < columns) as Hcols by lia.
  pose proof (Z.div_mod n columns ltac:(lia)) as Hdm.
  pose proof (Z.mod_pos_bound n columns Hcols) as Hmod.
  assert (0 ≤ n `div` columns) as Hq by (apply Z.div_pos; lia).
  assert (n ≤ r * columns + c) as Hge.
  { destruct (decide (n ≤ r * columns + c)) as [|Hlt]; [done|]. exfalso.
    apply (Hfree r c); [unfold covers; lia|].
    apply Htaken. exists (r * columns + c). split; [nia|]. split.
    - apply (Z.div_unique_pos _ _ r c); lia.
    - apply (Z.mod_unique_pos _ _ r c); lia. }
  destruct (Hmin (n `div` columns) (n `mod` columns) Hq) as [Hlt|[-> Hle]].
  - split; [lia|]. split; [lia|].
    intros rr cc Hcov Htk. apply Htaken in Htk as (j & Hj & Hjr & Hjc).
    unfold covers in Hcov.
    pose proof (Z.div_mod j columns ltac:(lia)) as Hdmj.
    assert (j = n) by nia. lia.
  - exfalso. nia.
  - split; [done|]. nia.
Qed.

Lemma pack_tiles_small_cells fuel (σ : store) tiles columns σ' positions :
  Forall (λ t, size_span (size (σ t)) = (1, 1)) tiles →
  _pack_tiles fuel σ tiles columns = Some (σ', positions) →
  ∀ (n : nat) pre t r c rspan cspan post,
    positions = pre ++ (t, (r, c, rspan, cspan)) :: post →
    length pre = n →
    r = Z.of_nat n `div` columns ∧ c = Z.of_nat n `mod` columns ∧
    rspan = 1 ∧ cspan = 1.
Proof.
  intros Hsmall Hpack.
  pose proof (pack_tiles_placed _ _ _ _ _ _ Hpack) as [Horder Hplaced].
  induction n as [n IH] using lt_wf_ind.
  intros pre t r c rspan cspan post Hsplit Hlen.
  destruct (Hplaced pre _ post Hsplit) as [Hspan Hfirst].
  assert (t ∈ tiles) as Hin.
  { rewrite <- Horder, Hsplit, fmap_app, fmap_cons. simpl.
    apply elem_of_app. right. apply list_elem_of_here. }
  rewrite (proj1 (Forall_forall _ _) Hsmall t Hin) in Hspan.
  injection Hspan as -> ->.
  destruct (unit_cell_first_fit columns (pre.*2) r c (Z.of_nat n)) as [-> ->];
    [lia| |done|done].
  intros rr cc. split.
  - intros (p & Hp & Hcov).
    apply list_elem_of_fmap in Hp as ([tp gp] & -> & Hpin). simpl in Hcov.
    apply list_elem_of_lookup in Hpin as [j Hj].
    pose proof (lookup_lt_Some _ _ _ Hj) as Hjlt.
    pose proof (take_drop_middle pre j (tp, gp) Hj) as Hmid.
    destruct gp as [[[rp cp] rsp] csp].
    destruct (IH j ltac:(lia) (take j pre) tp rp cp rsp csp
                 (drop (S j) pre ++ (t, (r, c, 1, 1)) :: post)) as (-> & -> & -> & ->).
    { rewrite Hsplit, <- Hmid at 1. by rewrite <- app_assoc. }
    { rewrite length_take. lia. }
    exists (Z.of_nat j). unfold covers in Hcov. split; [lia|]. lia.
  - intros (j & Hj & -> & ->).
    destruct (lookup_lt_is_Some_2 pre (Z.to_nat j)) as [[tp gp] Hp]; [lia|].
    pose proof (take_drop_middle pre (Z.to_nat j) (tp, gp) Hp) as Hmid.
    destruct gp as [[[rp cp] rsp] csp].
    destruct (IH (Z.to_nat j) ltac:(lia) (take (Z.to_nat j) pre) tp rp cp rsp csp
                 (drop (S (Z.to_nat j)) pre ++ (t, (r, c, 1, 1)) :: post))
      as (-> & -> & -> & ->).
    { rewrite Hsplit, <- Hmid at 1. by rewrite <- app_assoc. }
    { rewrite length_take. lia. }
    exists (Z.of_nat (Z.to_nat j) `div` columns, Z.of_nat (Z.to_nat j) `mod` columns, 1, 1).
    split.
    + apply (list_elem_of_fmap_2 snd _ (tp, _)). apply list_elem_of_lookup. eauto.
    + unfold covers. rewrite Z2Nat.id by lia. lia.
Qed.

(** X4.  A list of tiles that all span one cell (size "small", or a size
    [SIZE_MAP] does not know) fills the grid row by row, left to right: the
    tile at index [i] is placed at row [i div columns], column
    [i mod columns]. *)
Theorem pack_tiles_small_row_major fuel (σ : store) (tiles : list loc) (columns : Z)
    σ' positions (i : nat) t r c rspan cspan :
  Forall (λ t, size_span (size (σ t)) = (1, 1)) tiles →
  _pack_tiles fuel σ tiles columns = Some (σ', positions) →
  positions !! i = Some (t, (r, c, rspan, cspan)) →
  r = Z.of_nat i `div` columns ∧ c = Z.of_nat i `mod` columns ∧
  rspan = 1 ∧ cspan = 1.
Proof.
  intros Hsmall Hpack Hi.
  pose proof (take_drop_middle positions i _ Hi) as Hmid.
  apply (pack_tiles_small_cells fuel σ tiles columns σ' positions Hsmall Hpack i
           (take i positions) t r c rspan cspan (drop (S i) positions)); [done|].
  rewrite length_take. apply lookup_lt_Some in Hi. lia.
Qed.

Lemma pack_tiles_small_row_major_witness :
  Forall (λ t, size_span (size (twin_store t)) = (1, 1)) [0; 1; 2; 3; 4]%nat ∧
  ∃ σ',
    _pack_tiles 3 twin_store [0; 1; 2; 3; 4]%nat 3
    = Some (σ', [ (0%nat, (0, 0, 1, 1)); (1%nat, (0, 1, 1, 1)); (2%nat, (0, 2, 1, 1));
                  (3%nat, (1, 0, 1, 1)); (4%nat, (1, 1, 1, 1)) ]) ∧
    1 = Z.of_nat 4 `div` 3 ∧ 1 = Z.of_nat 4 `mod` 3.
Proof.
  assert (Forall (λ t, size_span (size (twin_store t)) = (1, 1)) [0; 1; 2; 3; 4]%nat)
    as Hsmall by (repeat constructor).
  split; [exact Hsmall|].
  eexists. split; [vm_compute; reflexivity|].
  destruct (pack_tiles_small_row_major 3 twin_store [0; 1; 2; 3; 4]%nat 3 _ _ 4%nat
              4%nat 1 1 1 1 Hsmall eq_refl eq_refl) as (Hr & Hc & _).
  split; [exact Hr|exact Hc].
Defined.

(** ** The buttons of the grid *)

(** X5.  After [rebuild] there is one button per tile, in the order of the
    list; every button has the pixel size of the cells it spans (140 pixels
    per cell and 12 per gap between them), spans what [SIZE_MAP] gives its
    tile, lies within the columns of the grid, and no two buttons share a
    cell. *)
Theorem rebuild_buttons fuel (σ : store) (tiles : list loc) (columns : Z) σ' buttons :
  rebuild fuel σ tiles columns = Some (σ', buttons) →
  b_tile <$> buttons = tiles ∧
  (∀ b, b ∈ buttons →
     (b_rowspan b, b_colspan b) = size_span (size (σ' (b_tile b))) ∧
     b_size b = (b_colspan b * 140 + (b_colspan b - 1) * 12,
                 b_rowspan b * 140 + (b_rowspan b - 1) * 12) ∧
     0 ≤ b_row b ∧ 0 ≤ b_col b ∧ b_col b + b_colspan b ≤ columns) ∧
  (∀ (i j : nat) bi bj,
     i ≠ j → buttons !! i = Some bi → buttons !! j = Some bj →
     ∀ rr cc,
       ¬ (covers (b_row bi, b_col bi, b_rowspan bi, b_colspan bi) rr cc ∧
          covers (b_row bj, b_col bj, b_rowspan bj, b_colspan bj) rr cc)).
Proof.
  unfold rebuild.
  destruct (_pack_tiles fuel σ tiles columns) as [[σ1 positions]|] eqn:Hpack; [|done].
  intros [= <- <-].
  pose proof (pack_tiles_placed _ _ _ _ _ _ Hpack) as [Horder _].
  destruct (pack_tiles_loop _ _ _ _ _ _ Hpack) as [occ' Hloop].
  destruct (pack_loop_store _ _ _ _ _ _ _ _ _ Hloop) as (_ & _ & _ & Hsame & _).
  split; [|split].
  - rewrite <- Horder, <- list_fmap_compose. apply list_fmap_ext.
    by intros _ [t [[[r c] rs] cs]] _.
  - intros b Hb. apply list_elem_of_fmap in Hb as ([t [[[r c] rs] cs]] & -> & Hin).
    simpl.
    destruct (pack_tiles_member _ _ _ _ _ _ _ _ _ _ _ Hpack Hin) as (Hspan & Hr & Hc & Hend).
    destruct (Hsame t) as (_ & _ & _ & _ & _ & _ & Hsize).
    unfold tile_pixel_size. rewrite Hsize, <- Hspan. done.
  - intros i j bi bj Hij Hi Hj rr cc.
    rewrite list_lookup_fmap in Hi, Hj.
    destruct (positions !! i) as [[ti [[[ri ci] rsi] csi]]|] eqn:Hpi; [|done].
    destruct (positions !! j) as [[tj [[[rj cj] rsj] csj]]|] eqn:Hpj; [|done].
    injection Hi as <-. injection Hj as <-.
    cbn [b_row b_col b_rowspan b_colspan].
    exact (pack_tiles_disjoint _ _ _ _ _ _ i j _ _ _ _ rr cc Hpack Hij Hpi Hpj).
Qed.

Lemma rebuild_buttons_witness :
  ∃ σ' buttons,
    rebuild 3 demo_store [0; 1; 2; 3; 4]%nat 4 = Some (σ', buttons) ∧
    b_tile <$> buttons = [0; 1; 2; 3; 4]%nat ∧
    buttons !! 3%nat = Some (mkButton 3%nat 1 0 2 2 (292, 292)).
Proof.
  destruct (rebuild 3 demo_store [0; 1; 2; 3; 4]%nat 4) as [[σ' buttons]|] eqn:Hre.
  - exists σ', buttons. split; [reflexivity|].
    split; [exact (proj1 (rebuild_buttons _ _ _ _ _ _ Hre))|].
    vm_compute in Hre. injection Hre as _ <-. reflexivity.
  - vm_compute in Hre. discriminate.
Defined.

(** ** Reordering, deleting and duplicating *)

Lemma start_drag_as_move (σ : store) (tiles : list loc) (tile : loc) :
  start_drag σ tiles tile = move_tile σ tiles tile 1.
Proof.
  unfold start_drag, move_tile.
  destruct (_index_of σ tiles tile) as [i|] eqn:Hidx; [|done].
  destruct (index_of_Some _ _ _ _ Hidx) as (k & t & -> & Hk & _).
  apply lookup_lt_Some in Hk.
  case_bool_decide as Hlast.
  - replace (Z.max 0 (Z.min (Z.of_nat (length tiles) - 1) (Z.of_nat k + 1)))
      with (Z.of_nat k + 1) by lia.
    rewrite bool_decide_eq_true_2 by lia. done.
  - replace (Z.max 0 (Z.min (Z.of_nat (length tiles) - 1) (Z.of_nat k + 1)))
      with (Z.of_nat k) by lia.
    rewrite bool_decide_eq_false_2; [done|]. intros Hne. by apply Hne.
Qed.

Lemma move_tile_perm (σ : store) (tiles : list loc) tile delta tiles' rebuilt :
  move_tile σ tiles tile delta = Some (tiles', rebuilt) → tiles' ≡ₚ tiles.
Proof.
  destruct (_index_of σ tiles tile) as [i|] eqn:Hidx.
  - destruct (index_of_Some _ _ _ _ Hidx) as (k & t & -> & Hk & _).
    destruct (move_tile_found σ tiles tile delta k Hidx) as [b Hmove].
    rewrite Hmove. intros [= <- <-].
    apply lookup_lt_Some in Hk.
    by destruct (swap_with_clamped_spec tiles k delta Hk) as (_ & Hperm & _).
  - rewrite (move_tile_not_found σ tiles tile delta Hidx). by intros [= <- <-].
Qed.

(** X6.  Dragging a tile is moving it forward by one: [start_drag] does on
    every list and tile what [move_tile] does with delta [+1], so it
    exchanges the tile found for the given id with its successor and leaves
    the list alone when that tile is the last; the list stays a
    permutation. *)
Theorem start_drag_moves_forward (σ : store) (tiles : list loc) (tile : loc) :
  start_drag σ tiles tile = move_tile σ tiles tile 1 ∧
  ∃ tiles' rebuilt,
    start_drag σ tiles tile = Some (tiles', rebuilt) ∧ tiles' ≡ₚ tiles ∧
    (∀ k : nat,
       _index_of σ tiles tile = Some (Z.of_nat k) →
       (S k < length tiles)%nat →
       tiles' !! k = tiles !! S k ∧ tiles' !! S k = tiles !! k ∧ rebuilt = true) ∧
    (∀ k : nat,
       _index_of σ tiles tile = Some (Z.of_nat k) →
       S k = length tiles → tiles' = tiles ∧ rebuilt = false).
Proof.
  split; [apply start_drag_as_move|].
  rewrite start_drag_as_move.
  destruct (move_tile σ tiles tile 1) as [[tiles' rebuilt]|] eqn:Hmove.
  - exists tiles', rebuilt. split; [done|].
    split; [by eapply move_tile_perm|]. split.
    + intros k Hidx Hk.
      destruct (move_tile_found σ tiles tile 1 k Hidx) as [b Hfound].
      assert (tiles' = swap_with_clamped tiles k 1) as -> by congruence.
      destruct (swap_with_clamped_spec tiles k 1 ltac:(lia)) as (_ & _ & _ & Hk1 & Hk2 & _).
      replace (Z.to_nat (Z.max 0 (Z.min (Z.of_nat (length tiles) - 1) (Z.of_nat k + 1))))
        with (S k) in * by lia.
      split; [done|]. split; [done|].
      unfold move_tile in Hmove. rewrite Hidx in Hmove.
      rewrite bool_decide_eq_true_2 in Hmove by lia.
      destruct (swap_items tiles (Z.of_nat k) _); by simplify_eq.
    + intros k Hidx Hk. unfold move_tile in Hmove. rewrite Hidx in Hmove.
      rewrite bool_decide_eq_false_2 in Hmove by lia. by simplify_eq.
  - exfalso. destruct (_index_of σ tiles tile) as [i|] eqn:Hidx.
    + destruct (index_of_Some _ _ _ _ Hidx) as (k & t & -> & _).
      destruct (move_tile_found σ tiles tile 1 k Hidx) as [b Hfound]. congruence.
    + rewrite (move_tile_not_found σ tiles tile 1 Hidx) in Hmove. done.
Qed.

Lemma start_drag_moves_forward_witness :
  _index_of demo_store [0; 1; 2; 3; 4]%nat 3%nat = Some (Z.of_nat 3) ∧
  (S 3 < length [0; 1; 2; 3; 4]%nat)%nat ∧
  start_drag demo_store [0; 1; 2; 3; 4]%nat 3%nat = Some ([0; 1; 2; 4; 3]%nat, true) ∧
  _index_of demo_store [0; 1; 2; 3; 4]%nat 4%nat = Some (Z.of_nat 4) ∧
  S 4 = length [0; 1; 2; 3; 4]%nat ∧
  start_drag demo_store [0; 1; 2; 3; 4]%nat 4%nat = Some ([0; 1; 2; 3; 4]%nat, false).
Proof.
  split; [reflexivity|]. split; [simpl; lia|].
  destruct (start_drag_moves_forward demo_store [0; 1; 2; 3; 4]%nat 3%nat)
    as (_ & tiles' & rebuilt & Hdrag & _ & Hswap & _).
  destruct (Hswap 3%nat eq_refl ltac:(simpl; lia)) as (_ & _ & ->).
  split.
  { rewrite Hdrag. vm_compute in Hdrag. by injection Hdrag as <-. }
  split; [reflexivity|]. split; [reflexivity|].
  destruct (start_drag_moves_forward demo_store [0; 1; 2; 3; 4]%nat 4%nat)
    as (_ & tiles'' & rebuilt' & Hdrag' & _ & _ & Hlast).
  destruct (Hlast 4%nat eq_refl eq_refl) as [-> ->]. exact Hdrag'.
Defined.

(** X7.  A confirmed [delete_tile] removes every tile that has the id of
    the given tile, the given tile and any other tile with the same id,
    and nothing else: the tiles with another id stay, in their order.
    Afterwards [_index_of] finds no tile for the id.  An unconfirmed
    [delete_tile] leaves the list as it is. *)
Theorem delete_tile_removes_id (σ : store) (tiles : list loc) (tile : loc) :
  (∀ t, t ∈ (delete_tile true σ tiles tile).1 ↔ t ∈ tiles ∧ id (σ t) ≠ id (σ tile)) ∧
  (delete_tile true σ tiles tile).1 `sublist_of` tiles ∧
  _index_of σ (delete_tile true σ tiles tile).1 tile = None ∧
  (tile ∈ tiles → (length (delete_tile true σ tiles tile).1 < length tiles)%nat) ∧
  ((∀ t, t ∈ tiles → id (σ t) ≠ id (σ tile)) → (delete_tile true σ tiles tile).1 = tiles) ∧
  delete_tile false σ tiles tile = (tiles, false).
Proof.
  unfold delete_tile. simpl.
  split; [intros t; rewrite list_elem_of_filter; tauto|].
  split; [apply sublist_filter|].
  split; [|split; [|split; [|done]]].
  - apply index_of_from_None. intros t Ht. by apply list_elem_of_filter in Ht as [? _].
  - intros Hin. apply (length_filter_lt _ _ tile Hin). intros Hne. by apply Hne.
  - intros Hall. induction tiles as [|t tiles IH]; [done|].
    rewrite filter_cons. rewrite decide_True.
    + f_equal. apply IH. intros t' Ht'. apply Hall. by apply list_elem_of_further.
    + apply Hall. apply list_elem_of_here.
Qed.

Lemma delete_tile_removes_id_witness :
  (1%nat ∈ [0; 1; 2]%nat) ∧
  delete_tile true twin_store [0; 1; 2]%nat 1%nat = ([], true) ∧
  (length (delete_tile true demo_store [0; 1; 2]%nat 1%nat).1 < length [0; 1; 2]%nat)%nat ∧
  (delete_tile true demo_store [0; 1; 2]%nat 1%nat).1 = [0; 2]%nat.
Proof.
  assert (1%nat ∈ [0; 1; 2]%nat) as Hin
    by (apply list_elem_of_further, list_elem_of_here).
  destruct (delete_tile_removes_id demo_store [0; 1; 2]%nat 1%nat)
    as (_ & _ & _ & Hshorter & _).
  split; [exact Hin|]. split; [reflexivity|]. split; [exact (Hshorter Hin)|].
  reflexivity.
Defined.

Lemma index_of_unique_ids (σ : store) (tiles : list loc) tile (k : nat) :
  NoDup ((λ t, id (σ t)) <$> tiles) →
  tiles !! k = Some tile →
  _index_of σ tiles tile = Some (Z.of_nat k).
Proof.
  intros Hids Hk. apply index_of_first; [done|].
  intros k' t Hk' Ht Hid.
  assert (k' = k); [|lia].
  apply (NoDup_lookup _ k' k (id (σ tile)) Hids).
  - by rewrite list_lookup_fmap, Ht; simpl; rewrite Hid.
  - by rewrite list_lookup_fmap, Hk.
Qed.

(** X8.  When the ids of the tiles are pairwise different, moving a tile
    that is not the last forward by one and then back by one gives the
    list back, and so does moving a tile that is not the first back and
    then forward. *)
Theorem move_tile_there_and_back (σ : store) (tiles : list loc) (tile : loc) (k : nat) :
  NoDup ((λ t, id (σ t)) <$> tiles) →
  tiles !! k = Some tile →
  ((S k < length tiles)%nat →
   ∃ tiles1 b1 b2,
     move_tile σ tiles tile 1 = Some (tiles1, b1) ∧
     tiles1 !! S k = Some tile ∧ tiles1 !! k = tiles !! S k ∧
     move_tile σ tiles1 tile (-1) = Some (tiles, b2)) ∧
  ((0 < k)%nat →
   ∃ tiles1 b1 b2,
     move_tile σ tiles tile (-1) = Some (tiles1, b1) ∧
     tiles1 !! (k - 1)%nat = Some tile ∧ tiles1 !! k = tiles !! (k - 1)%nat ∧
     move_tile σ tiles1 tile 1 = Some (tiles, b2)).
Proof.
  intros Hids Hk. pose proof (lookup_lt_Some _ _ _ Hk) as Hlen.
  assert (∀ (delta : Z) (k1 : nat),
    Z.of_nat k1 = Z.of_nat k + delta → (k1 < length tiles)%nat → k1 ≠ k →
    ∃ tiles1 b1 b2,
      move_tile σ tiles tile delta = Some (tiles1, b1) ∧
      tiles1 !! k1 = Some tile ∧ tiles1 !! k = tiles !! k1 ∧
      move_tile σ tiles1 tile (- delta) = Some (tiles, b2)) as Hboth.
  { intros delta k1 Hk1 Hlen1 Hne.
    pose proof (index_of_unique_ids σ tiles tile k Hids Hk) as Hidx.
    destruct (move_tile_found σ tiles tile delta k Hidx) as [b1 Hmove1].
    destruct (swap_with_clamped_spec tiles k delta Hlen)
      as (_ & Hperm & Hlength & Hatk & Hatj & Hothers & _).
    replace (Z.to_nat (Z.max 0 (Z.min (Z.of_nat (length tiles) - 1) (Z.of_nat k + delta))))
      with k1 in * by lia.
    set (tiles1 := swap_with_clamped tiles k delta) in *.
    rewrite Hk in Hatj.
    assert (NoDup ((λ t, id (σ t)) <$> tiles1)) as Hids1.
    { eapply NoDup_Permutation_proper; [|exact Hids]. by apply fmap_Permutation. }
    pose proof (index_of_unique_ids σ tiles1 tile k1 Hids1 Hatj) as Hidx1.
    destruct (move_tile_found σ tiles1 tile (- delta) k1 Hidx1) as [b2 Hmove2].
    exists tiles1, b1, b2. split; [done|]. split; [done|]. split; [done|].
    rewrite Hmove2. do 2 f_equal.
    destruct (swap_with_clamped_spec tiles1 k1 (- delta) ltac:(lia))
      as (_ & _ & _ & Hatk1 & Hatj1 & Hothers1 & _).
    replace (Z.to_nat (Z.max 0 (Z.min (Z.of_nat (length tiles1) - 1)
                                      (Z.of_nat k1 + - delta))))
      with k in * by lia.
    apply list_eq. intros i.
    destruct (decide (i = k1)) as [->|Hi1]; [by rewrite Hatk1, Hatk|].
    destruct (decide (i = k)) as [->|Hi]; [by rewrite Hatj1, Hatj|].
    by rewrite Hothers1, Hothers. }
  split.
  - intros Hnext. apply (Hboth 1 (S k)); lia.
  - intros Hprev. destruct (Hboth (-1) (k - 1)%nat) as (tiles1 & b1 & b2 & H); [lia..|].
    by exists tiles1, b1, b2.
Qed.

Lemma move_tile_there_and_back_witness :
  NoDup ((λ t, id (demo_store t)) <$> [0; 1; 2; 3; 4]%nat) ∧
  [0; 1; 2; 3; 4]%nat !! 2%nat = Some 2%nat ∧
  (S 2 < length [0; 1; 2; 3; 4]%nat)%nat ∧
  ∃ b1 b2,
    move_tile demo_store [0; 1; 2; 3; 4]%nat 2%nat 1 = Some ([0; 1; 3; 2; 4]%nat, b1) ∧
    move_tile demo_store [0; 1; 3; 2; 4]%nat 2%nat (-1) = Some ([0; 1; 2; 3; 4]%nat, b2).
Proof.
  assert (NoDup ((λ t, id (demo_store t)) <$> [0; 1; 2; 3; 4]%nat)) as Hids
    by (apply (bool_decide_unpack (NoDup ((λ t, id (demo_store t)) <$> [0; 1; 2; 3; 4]%nat)));
        vm_compute; exact I).
  split; [exact Hids|]. split; [reflexivity|]. split; [simpl; lia|].
  destruct (move_tile_there_and_back demo_store [0; 1; 2; 3; 4]%nat 2%nat 2%nat Hids eq_refl)
    as [Hforward _].
  destruct (Hforward ltac:(simpl; lia)) as (tiles1 & b1 & b2 & Hmove1 & _ & _ & Hmove2).
  exists b1, b2.
  assert (tiles1 = [0; 1; 3; 2; 4]%nat) as ->.
  { vm_compute in Hmove1. by injection Hmove1 as <-. }
  split; [exact Hmove1|exact Hmove2].
Defined.

Lemma fresh_loc_above (live : list loc) l : l ∈ live → (l < fresh_loc live)%nat.
Proof.
  unfold fresh_loc. induction live as [|x live IH]; intros Hin.
  - by apply elem_of_nil in Hin.
  - apply elem_of_cons in Hin as [->|Hin]; simpl; [lia|].
    specialize (IH Hin). lia.
Qed.

Lemma fresh_loc_new (live : list loc) : fresh_loc live ∉ live.
Proof. intros Hin. apply fresh_loc_above in Hin. lia. Qed.

Lemma tile_of_obj_of_tile t : tile_of_obj (obj_of_tile t) = Some t.
Proof. by destruct t as [? ? ? [?|] ? ? ? ? ?]. Qed.

Lemma duplicate_tile_result now (σ : store) (tiles : list loc) tile :
  duplicate_tile_append now σ tiles tile
  = Some (<[fresh_loc (tile :: tiles) := set_id (σ tile) (tile_id now)]> σ,
          tiles ++ [fresh_loc (tile :: tiles)]).
Proof.
  unfold duplicate_tile_append. rewrite Tile_of_kwargs_asdict. simpl.
  by rewrite tile_of_obj_of_tile.
Qed.

Lemma NoDup_snoc_fresh (tiles : list loc) l : NoDup tiles → l ∉ tiles → NoDup (tiles ++ [l]).
Proof.
  intros Hnd Hl. apply NoDup_app. split; [done|]. split.
  - intros x Hx Hx'. apply list_elem_of_singleton in Hx'. by subst.
  - apply NoDup_singleton.
Qed.

(** *** What a rebuild leaves *)

Lemma rebuild_positions fuel (σ : store) tiles columns σ' buttons :
  rebuild fuel σ tiles columns = Some (σ', buttons) →
  ∃ positions,
    _pack_tiles fuel σ tiles columns = Some (σ', positions) ∧
    buttons = (λ p : position,
                 let '(t, (r, c, rspan, cspan)) := p in
                 mkButton t r c rspan cspan (tile_pixel_size (σ' t))) <$> positions.
Proof.
  unfold rebuild.
  destruct (_pack_tiles fuel σ tiles columns) as [[σ1 positions]|]; [|done].
  intros [= <- <-]. by exists positions.
Qed.

Lemma rebuild_total (σ : store) tiles columns :
  Forall (λ t, colspan (σ t) ≤ columns) tiles →
  ∃ fuel0 σ' buttons, ∀ fuel, (fuel0 ≤ fuel)%nat →
    rebuild fuel σ tiles columns = Some (σ', buttons).
Proof.
  intros Hall.
  destruct (pack_tiles_total σ tiles columns Hall) as (fuel0 & σ' & positions & Hres).
  eexists fuel0, σ', _. intros fuel Hfuel. unfold rebuild. by rewrite (Hres fuel Hfuel).
Qed.

Lemma pack_tiles_written fuel (σ : store) tiles columns σ' positions t r c rspan cspan :
  _pack_tiles fuel σ tiles columns = Some (σ', positions) →
  NoDup tiles →
  (t, (r, c, rspan, cspan)) ∈ positions →
  row (σ' t) = r ∧ col (σ' t) = c.
Proof.
  intros Hpack Hnodup Hin. apply pack_tiles_loop in Hpack as [occ' Hloop].
  apply pack_loop_store in Hloop.
  destruct Hloop as (new & Hres & Htiles & _ & _ & Hpos). simpl in Hres. subst new.
  apply list_elem_of_split in Hin as (pre & post & Hsplit).
  apply (Hpos pre t r c rspan cspan post Hsplit).
  rewrite <- Htiles, Hsplit, fmap_app, fmap_cons in Hnodup. simpl in Hnodup.
  apply NoDup_app in Hnodup as (_ & _ & Hnodup).
  by apply NoDup_cons in Hnodup as [? _].
Qed.


Lemma rebuild_facts fuel (σ : store) tiles columns σ' buttons :
  rebuild fuel σ tiles columns = Some (σ', buttons) →
  b_tile <$> buttons = tiles ∧
  (∀ l, same_but_position (σ l) (σ' l)) ∧
  (∀ l, l ∉ tiles → σ' l = σ l) ∧
  (NoDup tiles →
   ∀ b, b ∈ buttons → row (σ' (b_tile b)) = b_row b ∧ col (σ' (b_tile b)) = b_col b) ∧
  (NoDup tiles →
   ∀ t t', t ∈ tiles → t' ∈ tiles → t ≠ t' →
           (row (σ' t), col (σ' t)) ≠ (row (σ' t'), col (σ' t'))).
Proof.
  intros Hre. destruct (rebuild_positions _ _ _ _ _ _ Hre) as (positions & Hpack & ->).
  pose proof (pack_tiles_placed _ _ _ _ _ _ Hpack) as [Horder _].
  destruct (pack_tiles_loop _ _ _ _ _ _ Hpack) as [occ' Hloop].
  destruct (pack_loop_store _ _ _ _ _ _ _ _ _ Hloop) as (_ & _ & _ & Hsame & Hframe & _).
  split; [|split; [done|split; [done|split]]].
  - rewrite <- Horder, <- list_fmap_compose. apply list_fmap_ext.
    by intros _ [t [[[r c] rs] cs]] _.
  - intros Hnodup b Hb.
    apply list_elem_of_fmap in Hb as ([t [[[r c] rs] cs]] & -> & Hin). simpl.
    by apply (pack_tiles_written _ _ _ _ _ _ _ _ _ _ _ Hpack Hnodup Hin).
  - intros Hnodup t t' Ht Ht' Hne Heq.
    apply list_elem_of_lookup in Ht as [i Hi]. apply list_elem_of_lookup in Ht' as [j Hj].
    destruct (pack_tiles_listed _ _ _ _ _ _ _ _ Hpack Hi) as (r & c & Hpi).
    destruct (pack_tiles_listed _ _ _ _ _ _ _ _ Hpack Hj) as (r' & c' & Hpj).
    assert (i ≠ j) as Hij by (intros ->; congruence).
    pose proof (list_elem_of_lookup_2 _ _ _ Hpi) as Hini.
    pose proof (list_elem_of_lookup_2 _ _ _ Hpj) as Hinj.
    destruct (pack_tiles_written _ _ _ _ _ _ _ _ _ _ _ Hpack Hnodup Hini) as [Hr Hc].
    destruct (pack_tiles_written _ _ _ _ _ _ _ _ _ _ _ Hpack Hnodup Hinj) as [Hr' Hc'].
    injection Heq as Heqr Heqc.
    apply (pack_tiles_disjoint _ _ _ _ _ _ i j _ _ _ _ r c Hpack Hij Hpi Hpj).
    assert (∀ sz, 1 ≤ (size_span sz).1 ∧ 1 ≤ (size_span sz).2) as Hspans.
    { intros sz. destruct (size_span_cases sz) as [-> | [-> | ->]]; simpl; lia. }
    pose proof (Hspans (size (σ t))). pose proof (Hspans (size (σ t'))).
    unfold covers. split; lia.
Qed.

(** X9.  Every command that changes the tile list keeps it free of
    repeated tile objects: moving, dragging, deleting, duplicating and
    adding a tile all turn a list of distinct objects into a list of
    distinct objects, at the point where the new tile is appended and when
    the method has rebuilt the grid. *)
Theorem commands_keep_tiles_distinct (σ : store) (tiles : list loc) :
  NoDup tiles →
  (∀ tile delta tiles' rebuilt,
     move_tile σ tiles tile delta = Some (tiles', rebuilt) → NoDup tiles') ∧
  (∀ tile tiles' rebuilt,
     start_drag σ tiles tile = Some (tiles', rebuilt) → NoDup tiles') ∧
  (∀ confirmed tile, NoDup (delete_tile confirmed σ tiles tile).1) ∧
  (∀ now tile σ' tiles',
     duplicate_tile_append now σ tiles tile = Some (σ', tiles') → NoDup tiles') ∧
  (∀ now strip form, NoDup (add_tile_append now strip form σ tiles).2) ∧
  (∀ fuel now tile columns σ' tiles' buttons,
     duplicate_tile fuel now σ tiles tile columns = Some (σ', tiles', buttons) →
     NoDup tiles') ∧
  (∀ fuel accepted_dialog now strip form columns σ' tiles' buttons,
     add_tile fuel accepted_dialog now strip form σ tiles columns
     = Some (σ', tiles', buttons) →
     NoDup tiles').
Proof.
  intros Hnd.
  assert (∀ now tile σ' tiles',
    duplicate_tile_append now σ tiles tile = Some (σ', tiles') → NoDup tiles') as Hdup.
  { intros now tile σ' tiles'. rewrite duplicate_tile_result. intros [= _ <-].
    apply NoDup_snoc_fresh; [done|]. intros Hin.
    apply (fresh_loc_new (tile :: tiles)). by apply list_elem_of_further. }
  assert (∀ now strip form, NoDup (add_tile_append now strip form σ tiles).2) as Hadd.
  { intros now strip form. unfold add_tile_append. simpl.
    apply NoDup_snoc_fresh; [done|apply fresh_loc_new]. }
  split; [|split; [|split; [|split; [done|split; [done|split]]]]].
  - intros tile delta tiles' rebuilt Hmove.
    eapply NoDup_Permutation_proper; [|exact Hnd]. by eapply move_tile_perm.
  - intros tile tiles' rebuilt Hdrag. rewrite start_drag_as_move in Hdrag.
    eapply NoDup_Permutation_proper; [|exact Hnd]. by eapply move_tile_perm.
  - intros [|] tile; unfold delete_tile; simpl; [by apply NoDup_filter|done].
  - intros fuel now tile columns σ' tiles' buttons. unfold duplicate_tile.
    destruct (duplicate_tile_append now σ tiles tile) as [[σ1 tiles1]|] eqn:Happ; [|done].
    destruct (rebuild fuel σ1 tiles1 columns) as [[σ2 buttons2]|]; [|done].
    intros [= _ <- _]. by eapply Hdup.
  - intros fuel [|] now strip form columns σ' tiles' buttons; unfold add_tile.
    + specialize (Hadd now strip form).
      destruct (add_tile_append now strip form σ tiles) as [σ1 tiles1].
      destruct (rebuild fuel σ1 tiles1 columns) as [[σ2 buttons2]|]; [|done].
      by intros [= _ <- _].
    + by intros [= _ <- _].
Qed.

Lemma commands_keep_tiles_distinct_witness :
  NoDup [0; 1; 2]%nat ∧
  duplicate_tile_append 1700000000 demo_store [0; 1; 2]%nat 1%nat
    = Some (<[3%nat := set_id (demo_store 1%nat) "tile_1700000000"]> demo_store,
            [0; 1; 2; 3]%nat) ∧
  NoDup [0; 1; 2; 3]%nat ∧
  ∃ σ' buttons,
    duplicate_tile 3 1700000000 demo_store [0; 1; 2]%nat 1%nat 4
    = Some (σ', [0; 1; 2; 3]%nat, buttons).
Proof.
  assert (NoDup [0; 1; 2]%nat) as Hnd
    by (apply (bool_decide_unpack (NoDup [0; 1; 2]%nat)); vm_compute; exact I).
  split; [exact Hnd|].
  destruct (commands_keep_tiles_distinct demo_store [0; 1; 2]%nat Hnd)
    as (_ & _ & _ & Hdup & _).
  split; [reflexivity|]. split; [exact (Hdup 1700000000 1%nat _ _ eq_refl)|].
  destruct (duplicate_tile 3 1700000000 demo_store [0; 1; 2]%nat 1%nat 4)
    as [[[σ' tiles'] buttons]|] eqn:Hfull.
  - exists σ', buttons. vm_compute in Hfull. by injection Hfull as _ <- _.
  - vm_compute in Hfull. discriminate.
Defined.

Lemma duplicate_tile_unfold fuel now (σ : store) (tiles : list loc) tile columns :
  duplicate_tile fuel now σ tiles tile columns
  = match rebuild fuel (<[fresh_loc (tile :: tiles) := set_id (σ tile) (tile_id now)]> σ)
                  (tiles ++ [fresh_loc (tile :: tiles)]) columns with
    | Some (σ', buttons) => Some (σ', tiles ++ [fresh_loc (tile :: tiles)], buttons)
    | None => None
    end.
Proof. unfold duplicate_tile. by rewrite duplicate_tile_result. Qed.

(** X10.  [duplicate_tile] raises no exception and returns whenever the
    column spans of the tiles and of the tile to copy are at most the
    column count.  When it returns it has appended one new tile object; the
    new tile has the id made from the time and is equal to the original in
    every field but the id, the row and the column; no field but the row
    and the column of any other tile has changed, and objects outside the
    list are untouched.  The grid has been rebuilt: there is one button per
    tile, every tile carries the position of its button, and the copy and
    the original, both in the list, are at different positions. *)
Theorem duplicate_tile_copies (now : Z) (σ : store) (tiles : list loc) (tile : loc)
    (columns : Z) :
  (Forall (λ t, colspan (σ t) ≤ columns) (tile :: tiles) →
   ∃ fuel0 σ' l buttons, ∀ fuel, (fuel0 ≤ fuel)%nat →
     duplicate_tile fuel now σ tiles tile columns = Some (σ', tiles ++ [l], buttons)) ∧
  (∀ fuel σ' tiles' buttons,
     duplicate_tile fuel now σ tiles tile columns = Some (σ', tiles', buttons) →
     ∃ l,
       tiles' = tiles ++ [l] ∧ (l ∉ tiles) ∧ l ≠ tile ∧
       id (σ' l) = tile_id now ∧
       title (σ' l) = title (σ tile) ∧ color (σ' l) = color (σ tile) ∧
       icon_path (σ' l) = icon_path (σ tile) ∧
       action_type (σ' l) = action_type (σ tile) ∧
       action_value (σ' l) = action_value (σ tile) ∧
       size (σ' l) = size (σ tile) ∧
       (∀ l', l' ≠ l → same_but_position (σ l') (σ' l')) ∧
       (∀ l', l' ∉ tiles → l' ≠ l → σ' l' = σ l') ∧
       b_tile <$> buttons = tiles ++ [l] ∧
       (NoDup tiles →
        ∀ b, b ∈ buttons →
             row (σ' (b_tile b)) = b_row b ∧ col (σ' (b_tile b)) = b_col b) ∧
       (NoDup tiles → tile ∈ tiles →
        (row (σ' l), col (σ' l)) ≠ (row (σ' tile), col (σ' tile)))).
Proof.
  pose proof (fresh_loc_new (tile :: tiles)) as Hnew.
  apply not_elem_of_cons in Hnew as [Hne Hout].
  set (l := fresh_loc (tile :: tiles)) in *.
  set (σ1 := <[l := set_id (σ tile) (tile_id now)]> σ).
  assert (σ1 l = set_id (σ tile) (tile_id now)) as Hl
    by (unfold σ1, insert, fn_insert; by rewrite decide_True).
  assert (∀ l', l' ≠ l → σ1 l' = σ l') as Hothers
    by (intros l' Hl'; unfold σ1, insert, fn_insert; by rewrite decide_False).
  split.
  - intros Hall. apply Forall_cons in Hall as [Htile Hall].
    destruct (rebuild_total σ1 (tiles ++ [l]) columns) as (fuel0 & σ' & buttons & Hres).
    { apply Forall_app. split.
      - apply Forall_forall. intros t Ht. rewrite Hothers by (intros ->; done).
        by apply (proj1 (Forall_forall _ _) Hall).
      - apply Forall_singleton. by rewrite Hl. }
    exists fuel0, σ', l, buttons. intros fuel Hfuel.
    rewrite duplicate_tile_unfold. fold l σ1. by rewrite (Hres fuel Hfuel).
  - intros fuel σ' tiles' buttons. rewrite duplicate_tile_unfold. fold l σ1.
    destruct (rebuild fuel σ1 (tiles ++ [l]) columns) as [[σ2 buttons2]|] eqn:Hre; [|done].
    intros [= <- <- <-]. exists l.
    destruct (rebuild_facts _ _ _ _ _ _ Hre) as (Hbt & Hsame & Hframe & Hwritten & Hdistinct).
    split; [done|]. split; [done|]. split; [done|].
    destruct (Hsame l) as (H1 & H2 & H3 & H4 & H5 & H6 & H7). rewrite Hl in *.
    repeat (split; [done|]).
    split; [|split; [|split; [done|split]]].
    + intros l' Hl'. specialize (Hsame l'). by rewrite Hothers in Hsame.
    + intros l' Hout' Hl'. rewrite Hframe, Hothers; [done..|].
      intros Hin. apply elem_of_app in Hin as [Hin|Hin]; [done|].
      by apply list_elem_of_singleton in Hin.
    + intros Hnd. apply Hwritten. by apply NoDup_snoc_fresh.
    + intros Hnd Hin. apply Hdistinct.
      * by apply NoDup_snoc_fresh.
      * apply elem_of_app. right. apply list_elem_of_here.
      * apply elem_of_app. by left.
      * done.
Qed.

Lemma tile_id_inj now now' : tile_id now = tile_id now' → now = now'.
Proof.
  unfold tile_id. intros Heq. apply (inj (String.append "tile_")) in Heq.
  by apply (inj pretty) in Heq.
Qed.

Lemma shared_id_found (σ2 : store) (tiles : list loc) l1 l2 :
  id (σ2 l1) = id (σ2 l2) →
  (∃ i, _index_of σ2 ((tiles ++ [l1]) ++ [l2]) l2 = Some i ∧
        i ≤ Z.of_nat (length tiles)) ∧
  (l1 ∉ (delete_tile true σ2 ((tiles ++ [l1]) ++ [l2]) l2).1) ∧
  (l2 ∉ (delete_tile true σ2 ((tiles ++ [l1]) ++ [l2]) l2).1).
Proof.
  intros Hid. split; [|split].
  - destruct (index_of_in_list σ2 ((tiles ++ [l1]) ++ [l2]) l2) as [i Hi].
    { apply elem_of_app. right. apply list_elem_of_here. }
    exists i. split; [done|].
    destruct (index_of_Some _ _ _ _ Hi) as (k & t & -> & Hk & _ & Hmin).
    destruct (decide (k ≤ length tiles)%nat) as [|Hgt]; [lia|]. exfalso.
    apply (Hmin (length tiles) l1); [lia| |done].
    rewrite lookup_app_l by (rewrite length_app; simpl; lia).
    by rewrite lookup_app_r, Nat.sub_diag.
  - unfold delete_tile. simpl. rewrite list_elem_of_filter.
    intros [Hne _]. by apply Hne.
  - unfold delete_tile. simpl. rewrite list_elem_of_filter.
    intros [Hne _]. by apply Hne.
Qed.

(** X11.  The id of a new tile is the time in seconds, so tiles made at
    different seconds have different ids and tiles made in the same second
    have the same id.  After two duplications in one second the two new
    tiles are different objects with one id: [_index_of] for the second
    returns an index before its own, and deleting the second deletes the
    first as well.  This holds where the copies are appended and, since a
    rebuild writes no id, after the two calls of the method. *)
Theorem duplicates_share_id (now : Z) (σ : store) (tiles : list loc) (tile : loc) :
  (∀ now', tile_id now = tile_id now' ↔ now = now') ∧
  (∃ σ1 σ2 l1 l2,
     duplicate_tile_append now σ tiles tile = Some (σ1, tiles ++ [l1]) ∧
     duplicate_tile_append now σ1 (tiles ++ [l1]) tile
     = Some (σ2, (tiles ++ [l1]) ++ [l2]) ∧
     l1 ≠ l2 ∧ id (σ2 l1) = tile_id now ∧ id (σ2 l2) = tile_id now ∧
     (∃ i, _index_of σ2 ((tiles ++ [l1]) ++ [l2]) l2 = Some i ∧
           i ≤ Z.of_nat (length tiles)) ∧
     (l1 ∉ (delete_tile true σ2 ((tiles ++ [l1]) ++ [l2]) l2).1) ∧
     (l2 ∉ (delete_tile true σ2 ((tiles ++ [l1]) ++ [l2]) l2).1)) ∧
  (∀ fuel columns σ1 tiles1 buttons1 σ2 tiles2 buttons2,
     duplicate_tile fuel now σ tiles tile columns = Some (σ1, tiles1, buttons1) →
     duplicate_tile fuel now σ1 tiles1 tile columns = Some (σ2, tiles2, buttons2) →
     ∃ l1 l2,
       tiles1 = tiles ++ [l1] ∧ tiles2 = (tiles ++ [l1]) ++ [l2] ∧
       l1 ≠ l2 ∧ id (σ2 l1) = tile_id now ∧ id (σ2 l2) = tile_id now ∧
       (∃ i, _index_of σ2 tiles2 l2 = Some i ∧ i ≤ Z.of_nat (length tiles)) ∧
       (l1 ∉ (delete_tile true σ2 tiles2 l2).1) ∧
       (l2 ∉ (delete_tile true σ2 tiles2 l2).1)).
Proof.
  split; [|split].
  { intros now'. split; [apply tile_id_inj|by intros ->]. }
  - set (l1 := fresh_loc (tile :: tiles)).
    set (σ1 := <[l1 := set_id (σ tile) (tile_id now)]> σ).
    set (l2 := fresh_loc (tile :: tiles ++ [l1])).
    set (σ2 := <[l2 := set_id (σ1 tile) (tile_id now)]> σ1).
    exists σ1, σ2, l1, l2.
    split; [apply duplicate_tile_result|]. split; [apply duplicate_tile_result|].
    assert (l1 ≠ l2) as Hne.
    { assert (l1 < l2)%nat; [|lia]. apply fresh_loc_above.
      apply list_elem_of_further, elem_of_app. right. apply list_elem_of_here. }
    assert (id (σ2 l1) = tile_id now) as Hid1.
    { unfold σ2, σ1, insert, fn_insert.
      rewrite decide_False by done. by rewrite decide_True. }
    assert (id (σ2 l2) = tile_id now) as Hid2.
    { unfold σ2, insert, fn_insert. by rewrite decide_True. }
    split; [done|]. split; [done|]. split; [done|].
    apply shared_id_found. congruence.
  - intros fuel columns σ1 tiles1 buttons1 σ2 tiles2 buttons2.
    rewrite duplicate_tile_unfold.
    set (l1 := fresh_loc (tile :: tiles)).
    set (σa := <[l1 := set_id (σ tile) (tile_id now)]> σ).
    destruct (rebuild fuel σa (tiles ++ [l1]) columns) as [[σ1' b1]|] eqn:Hre1; [|done].
    intros [= <- <- <-]. rewrite duplicate_tile_unfold.
    set (l2 := fresh_loc (tile :: tiles ++ [l1])).
    set (σb := <[l2 := set_id (σ1' tile) (tile_id now)]> σ1').
    destruct (rebuild fuel σb ((tiles ++ [l1]) ++ [l2]) columns) as [[σ2' b2]|] eqn:Hre2;
      [|done].
    intros [= <- <- <-]. exists l1, l2.
    assert (l1 ≠ l2) as Hne.
    { assert (l1 < l2)%nat; [|lia]. apply fresh_loc_above.
      apply list_elem_of_further, elem_of_app. right. apply list_elem_of_here. }
    destruct (rebuild_facts _ _ _ _ _ _ Hre1) as (_ & Hsame1 & _).
    destruct (rebuild_facts _ _ _ _ _ _ Hre2) as (_ & Hsame2 & _).
    assert (id (σ2' l1) = tile_id now) as Hid1.
    { destruct (Hsame2 l1) as [-> _]. unfold σb, insert, fn_insert.
      rewrite decide_False by done.
      destruct (Hsame1 l1) as [-> _]. unfold σa, insert, fn_insert.
      by rewrite decide_True. }
    assert (id (σ2' l2) = tile_id now) as Hid2.
    { destruct (Hsame2 l2) as [-> _]. unfold σb, insert, fn_insert.
      by rewrite decide_True. }
    split; [done|]. split; [done|]. split; [done|]. split; [done|]. split; [done|].
    apply shared_id_found. congruence.
Qed.

(** ** Editing, activating, the theme *)




Lemma add_tile_unfold fuel now strip form (σ : store) (tiles : list loc) columns :
  add_tile fuel true now strip form σ tiles columns
  = match rebuild fuel (<[fresh_loc tiles := get_tile strip form (editor_tile now None)]> σ)
                  (tiles ++ [fresh_loc tiles]) columns with
    | Some (σ', buttons) => Some (σ', tiles ++ [fresh_loc tiles], Some buttons)
    | None => None
    end.
Proof. done. Qed.



(** X13.  [toggle_theme] always leaves the theme "dark" or "light" and
    always changes the style sheet [apply_theme] shows, also when the theme
    was neither of the two (such a theme shows the light sheet and is
    toggled to "dark").  Toggling twice gives the state back exactly when
    the theme was "dark" or "light".  Columns and tiles are not touched. *)
Theorem toggle_theme_flips (state : AppState) :
  (theme (toggle_theme state) = "dark" ∨ theme (toggle_theme state) = "light") ∧
  apply_theme (theme (toggle_theme state)) ≠ apply_theme (theme state) ∧
  (toggle_theme (toggle_theme state) = state ↔
   theme state = "dark" ∨ theme state = "light") ∧
  columns (toggle_theme state) = columns state ∧
  tiles (toggle_theme state) = tiles state.
Proof.
  destruct state as [th cols ts]. unfold toggle_theme, apply_theme. simpl.
  split; [case_decide; auto|]. split; [|split; [|done]].
  - repeat case_decide; congruence.
  - split.
    + intros Heq. injection Heq as Heq. repeat case_decide; auto.
    + intros [-> | ->]; reflexivity.
Qed.

(** X14.  Activating a tile does nothing when its action value is empty,
    and nothing when its action type is none of "url", "file", "command"
    and "builtin"; the settings dialog opens for the builtin "settings"
    tile only; a browser is only opened for a "url" tile, on its own
    value. *)
Theorem activate_tile_guards (platform : string) (t : Tile) :
  (action_value t = "" → activate_tile platform t = Nothing) ∧
  (action_type t ≠ "url" → action_type t ≠ "file" → action_type t ≠ "command" →
   action_type t ≠ "builtin" → activate_tile platform t = Nothing) ∧
  (activate_tile platform t = SettingsDialog ↔
   action_type t = "builtin" ∧ action_value t = "settings") ∧
  (∀ url, activate_tile platform t = OpenBrowser url ↔
          action_type t = "url" ∧ url = action_value t ∧ url ≠ "").
Proof.
  unfold activate_tile. split; [|split; [|split]].
  - intros Hempty. rewrite Hempty. repeat case_decide; try done.
  - intros H1 H2 H3 H4. by rewrite !decide_False.
  - split.
    + repeat case_decide; try done; destruct (String.prefix "win" platform); done.
    + intros [Hty Hval]. rewrite Hty, Hval. done.
  - intros url. split.
    + repeat case_decide; try done;
        try (destruct (String.prefix "win" platform); done).
      intros [= <-]. done.
    + intros (Hty & -> & Hne). rewrite Hty. simpl. by rewrite decide_False.
Qed.

Lemma activate_tile_guards_witness :
  action_value (mkTile "a" "A" "#000" None "command" "" "small" 0 0) = "" ∧
  activate_tile "linux" (mkTile "a" "A" "#000" None "command" "" "small" 0 0) = Nothing ∧
  activate_tile "linux" (demo_store 4%nat) = SettingsDialog ∧
  activate_tile "linux" (demo_store 0%nat) = OpenBrowser "https://www.example.com".
Proof.
  split; [reflexivity|]. split.
  { apply (proj1 (activate_tile_guards "linux" _)). reflexivity. }
  split.
  { apply (proj1 (proj2 (proj2 (activate_tile_guards "linux" (demo_store 4%nat))))).
    split; reflexivity. }
  apply (proj2 (proj2 (proj2 (activate_tile_guards "linux" (demo_store 0%nat))))).
  split; [reflexivity|]. split; [reflexivity|discriminate].
Defined.

(** ** The columns commands and the packer *)

(** X15.  Whatever the column count was, after [_change_columns] and after
    an accepted settings dialog the packer returns on every list of tiles:
    the two commands leave at least two columns, and no tile spans more. *)
Theorem columns_commands_unblock_packer (σ : store) (tiles : list loc) (state : AppState) :
  (∀ delta,
     ∃ fuel0 σ' positions, ∀ fuel, (fuel0 ≤ fuel)%nat →
       _pack_tiles fuel σ tiles (columns (_change_columns state delta))
       = Some (σ', positions)) ∧
  (∀ run, accepted run = true →
     ∃ fuel0 σ' positions, ∀ fuel, (fuel0 ≤ fuel)%nat →
       _pack_tiles fuel σ tiles (columns (_open_settings state run))
       = Some (σ', positions)).
Proof.
  assert (∀ cols, 2 ≤ cols → Forall (λ t, colspan (σ t) ≤ cols) tiles) as Hfit.
  { intros cols Hcols. apply Forall_forall. intros t _.
    pose proof (colspan_bounds (σ t)). lia. }
  split.
  - intros delta. apply pack_tiles_total, Hfit. unfold _change_columns. simpl. lia.
  - intros run Hacc. apply pack_tiles_total, Hfit.
    unfold _open_settings. rewrite Hacc. simpl.
    apply (spin_edits_range (spin_edits run)
             (setValue (columns state) (setRange 2 8 QSpinBox_new))); simpl; lia.
Qed.

Lemma columns_commands_unblock_packer_witness :
  (∀ fuel, _pack_tiles fuel demo_store [0; 1]%nat 0 = None) ∧
  accepted (mkRun [1] "dark" true) = true ∧
  ∃ fuel0 σ' positions, ∀ fuel, (fuel0 ≤ fuel)%nat →
    _pack_tiles fuel demo_store [0; 1]%nat
      (columns (_open_settings (mkAppState "dark" 0 (Some [0; 1]%nat))
                               (mkRun [1] "dark" true)))
    = Some (σ', positions).
Proof.
  split.
  { intros fuel. apply pack_tiles_too_wide. apply Exists_cons_hd. vm_compute. reflexivity. }
  split; [reflexivity|].
  apply (proj2 (columns_commands_unblock_packer demo_store [0; 1]%nat
                  (mkAppState "dark" 0 (Some [0; 1]%nat)))).
  reflexivity.
Defined.

(** ** More on the configuration *)

Lemma Tile_of_value_VStr s : Tile_of_value (VStr s) = None.
Proof. done. Qed.

Lemma tiles_value_accepted (v : value) (tiles : list TileObj) :
  iterate v ≫= mapM Tile_of_value = Some tiles ↔
  (∃ items, v = VList items ∧ mapM Tile_of_value items = Some tiles) ∨
  (tiles = [] ∧ (v = VStr "" ∨ v = VDict ∅)).
Proof.
  split.
  - destruct v as [| | | |s|items|entries]; simpl; try done.
    + destruct s as [|a s]; simpl; [intros [= <-]; auto|done].
    + intros Hitems. left. by exists items.
    + destruct (map_to_list entries) as [|[k x] rest] eqn:Hlist; simpl.
      * apply map_to_list_empty_iff in Hlist as ->. intros [= <-]. auto.
      * done.
  - intros [(items & -> & Hitems)|[-> [-> | ->]]]; simpl; [done..|].
    by rewrite map_to_list_empty.
Qed.

Lemma Tile_of_value_minimal i ti :
  Tile_of_value (VDict (<["id" := i]> (<["title" := ti]> ∅)))
  = Some (mkTileObj i ti (VStr "#0078D7") VNone (VStr "url") (VStr "") (VStr "small")
                    (VInt 0) (VInt 0)).
Proof.
  simpl. unfold Tile_of_kwargs.
  rewrite bool_decide_eq_true_2; [done|].
  unfold Tile_fields. rewrite !dom_insert_L, dom_empty_L.
  intros k Hk. apply elem_of_union in Hk as [Hk|Hk].
  - apply elem_of_singleton in Hk as ->. by apply (bool_decide_unpack _).
  - apply elem_of_union in Hk as [Hk|Hk]; [|by apply elem_of_empty in Hk].
    apply elem_of_singleton in Hk as ->. by apply (bool_decide_unpack _).
Qed.

Section ConfigManager_more.
Context {text : Type}.
Variable json_loads : text → option value.
Variable json_dumps : value → text.
Variable platform : string.
Variable home : string.

(** X16.  [load] takes the configuration from the file exactly when the
    file can be read and parses to an object whose "tiles" value (the empty
    list when the key is missing) is a list of entries the [Tile]
    constructor accepts, or is an empty string or an empty object, which
    count as no tiles; then the state has the theme and the column count
    of the object, whatever values they are, or "dark" and 4 when the key
    is missing.  In every other case it returns the default state. *)
Theorem load_uses_file_iff (fs : gmap string (node text)) (path : string) :
  (∀ state,
     (∃ n, fs !! path = Some n ∧ load_body json_loads n = Some state) ↔
     ∃ content entries tiles,
       fs !! path = Some (File content) ∧
       json_loads content = Some (VDict entries) ∧
       ((∃ items, default (VList []) (entries !! "tiles") = VList items ∧
                  mapM Tile_of_value items = Some tiles) ∨
        (tiles = [] ∧ (entries !! "tiles" = Some (VStr "") ∨
                       entries !! "tiles" = Some (VDict ∅)))) ∧
       state = {| o_theme := default (VStr "dark") (entries !! "theme");
                  o_columns := default (VInt 4) (entries !! "columns");
                  o_tiles := tiles |}) ∧
  (∀ n state, fs !! path = Some n → load_body json_loads n = Some state →
              load json_loads platform home fs path = state) ∧
  ((∀ n, fs !! path = Some n → load_body json_loads n = None) →
   load json_loads platform home fs path = _default_state platform home).
Proof.
  split; [|split].
  - intros state. split.
    + intros (n & Hfs & Hbody). destruct n as [|content]; [done|].
      destruct (json_loads content) as [data|] eqn:Hparse;
        [|by unfold load_body in Hbody; simpl in Hbody; rewrite Hparse in Hbody].
      destruct data as [| | | | | |entries];
        try (by unfold load_body in Hbody; simpl in Hbody; rewrite Hparse in Hbody).
      rewrite (load_body_dict _ _ _ Hparse) in Hbody.
      destruct (iterate (default (VList []) (entries !! "tiles")) ≫= mapM Tile_of_value)
        as [tiles|] eqn:Hbuild; [|done].
      injection Hbody as <-. exists content, entries, tiles.
      split; [done|]. split; [done|]. split; [|done].
      apply tiles_value_accepted in Hbuild as [Hlist|[-> Hempty]]; [by left|].
      right. split; [done|].
      destruct (entries !! "tiles") as [v|]; simpl in Hempty;
        [destruct Hempty as [-> | ->]; auto|].
      by destruct Hempty.
    + intros (content & entries & tiles & Hfs & Hparse & Htiles & ->).
      exists (File content). split; [done|].
      rewrite (load_body_dict _ _ _ Hparse).
      rewrite (proj2 (tiles_value_accepted _ tiles)); [done|].
      destruct Htiles as [Hlist|[-> [Hs|Hd]]]; [by left|right..].
      * rewrite Hs. auto.
      * rewrite Hd. auto.
  - intros n state Hfs Hbody. unfold load. by rewrite Hfs, Hbody.
  - intros Hnone. unfold load. destruct (fs !! path) as [n|] eqn:Hfs; [|done].
    by rewrite (Hnone n eq_refl).
Qed.

(** X17.  The [Tile] constructor accepts a value exactly when it is an
    object with no key besides the nine field names and with the keys "id"
    and "title"; a field that is left out gets its default.  [load] is all
    or nothing about the tiles: one entry of the "tiles" list the
    constructor does not accept makes it return the default state,
    whatever else the file says. *)
Theorem tile_constructor_accepts (fs : gmap string (node text)) (path : string) :
  (∀ v, is_Some (Tile_of_value v) ↔
        ∃ kw, v = VDict kw ∧ dom kw ⊆ list_to_set Tile_fields ∧
              is_Some (kw !! "id") ∧ is_Some (kw !! "title")) ∧
  (∀ i ti,
     Tile_of_value (VDict (<["id" := i]> (<["title" := ti]> ∅)))
     = Some (mkTileObj i ti (VStr "#0078D7") VNone (VStr "url") (VStr "") (VStr "small")
                       (VInt 0) (VInt 0))) ∧
  (∀ content entries items bad,
     fs !! path = Some (File content) →
     json_loads content = Some (VDict entries) →
     entries !! "tiles" = Some (VList items) →
     bad ∈ items → Tile_of_value bad = None →
     load json_loads platform home fs path = _default_state platform home).
Proof.
  split; [|split].
  - intros v. split.
    + destruct v as [| | | | | |kw]; simpl; try (by intros [? ?]).
      unfold Tile_of_kwargs. case_bool_decide as Hdom; [|by intros [? ?]].
      destruct (kw !! "id") as [i|] eqn:Hid; [|by intros [? ?]].
      destruct (kw !! "title") as [ti|] eqn:Hti; [|by intros [? ?]].
      intros _. exists kw. rewrite Hid, Hti. by eauto.
    + intros (kw & -> & Hdom & [i Hid] & [ti Hti]). simpl.
      unfold Tile_of_kwargs. rewrite bool_decide_eq_true_2 by done.
      rewrite Hid, Hti. by eexists.
  - apply Tile_of_value_minimal.
  - intros content entries items bad Hfs Hparse Htiles Hbad Hnone.
    unfold load. rewrite Hfs, (load_body_dict _ _ _ Hparse), Htiles. simpl.
    rewrite (proj2 (mapM_None Tile_of_value items)); [done|].
    apply Exists_exists. by exists bad.
Qed.

Lemma load_after_write (σ : store) (fs : gmap string (node text)) (path : string)
    (state : AppState) (l : list loc) :
  json_loads (json_dumps (VDict (payload σ state))) = Some (VDict (payload σ state)) →
  tiles state = Some l →
  load json_loads platform home
       (<[path := File (json_dumps (VDict (payload σ state)))]> fs) path
  = {| o_theme := VStr (theme state);
       o_columns := VInt (columns state);
       o_tiles := (λ t, obj_of_tile (σ t)) <$> l |}.
Proof.
  intros Hjson Htiles. unfold load. rewrite lookup_insert_eq.
  rewrite (load_body_dict _ _ _ Hjson).
  unfold payload at 1. rewrite Htiles.
  rewrite lookup_insert_ne, lookup_insert_ne, lookup_insert_eq by done.
  simpl.
  replace ((λ t, VDict (asdict (obj_of_tile (σ t)))) <$> l)
    with ((λ o, VDict (asdict o)) <$> ((λ t, obj_of_tile (σ t)) <$> l))
    by (by rewrite <- list_fmap_compose).
  by rewrite mapM_Tile_of_value_asdict.
Qed.

(** X18.  [_auto_save] never fails: when the path cannot be opened it
    leaves the file system as it is, and otherwise it changes the file at
    the path only.  After an [_auto_save] that could open the path, [load]
    returns the saved state (the [json] module reading back what it
    wrote), so also a column count outside 2..8: [load] checks no range. *)
Theorem auto_save_then_load (σ : store) (fs : gmap string (node text)) (path : string)
    (state : AppState) (l : list loc) :
  (fs !! path = Some Blocked → _auto_save json_dumps σ fs path state = fs) ∧
  (∀ p, p ≠ path → _auto_save json_dumps σ fs path state !! p = fs !! p) ∧
  (fs !! path ≠ Some Blocked →
   json_loads (json_dumps (VDict (payload σ state))) = Some (VDict (payload σ state)) →
   tiles state = Some l →
   load json_loads platform home (_auto_save json_dumps σ fs path state) path
   = {| o_theme := VStr (theme state);
        o_columns := VInt (columns state);
        o_tiles := (λ t, obj_of_tile (σ t)) <$> l |}).
Proof.
  unfold _auto_save, save. split; [|split].
  - by intros ->.
  - intros p Hp. destruct (fs !! path) as [[|content]|]; [done|by rewrite lookup_insert_ne..].
  - intros Hopen Hjson Htiles.
    destruct (fs !! path) as [[|content]|]; [done|by apply load_after_write..].
Qed.
End ConfigManager_more.

Lemma load_uses_file_iff_witness :
  demo_fs !! "config.json" = Some (File "config") ∧
  load_body demo_loads (File "config")
  = Some {| o_theme := VStr "light";
            o_columns := VInt 4;
            o_tiles := [ mkTileObj (VStr "a") (VStr "A") (VStr "#0078D7") VNone (VStr "url")
                                   (VStr "") (VStr "small") (VInt 0) (VInt 0) ] |} ∧
  load demo_loads "linux" "/home/u" demo_fs "config.json"
  = {| o_theme := VStr "light";
       o_columns := VInt 4;
       o_tiles := [ mkTileObj (VStr "a") (VStr "A") (VStr "#0078D7") VNone (VStr "url")
                              (VStr "") (VStr "small") (VInt 0) (VInt 0) ] |}.
Proof.
  split; [reflexivity|]. split; [reflexivity|].
  exact (proj1 (proj2 (load_uses_file_iff demo_loads "linux" "/home/u" demo_fs "config.json"))
           (File "config") _ eq_refl eq_refl).
Defined.

Lemma tile_constructor_accepts_witness :
  demo_fs !! "config.json" = Some (File "config") ∧
  (λ content, if decide (content = "config")
              then Some (VDict (<["tiles" := VList [VDict ∅]]> ∅)) else None) "config"
  = Some (VDict (<["tiles" := VList [VDict ∅]]> ∅)) ∧
  Tile_of_value (VDict ∅) = None ∧
  load (λ content, if decide (content = "config")
                   then Some (VDict (<["tiles" := VList [VDict ∅]]> ∅)) else None)
       "linux" "/home/u" demo_fs "config.json"
  = _default_state "linux" "/home/u".
Proof.
  split; [reflexivity|]. split; [reflexivity|]. split; [reflexivity|].
  refine (proj2 (proj2 (tile_constructor_accepts _ "linux" "/home/u" demo_fs "config.json"))
            "config" (<["tiles" := VList [VDict ∅]]> ∅) [VDict ∅] (VDict ∅)
            eq_refl eq_refl eq_refl _ eq_refl).
  apply list_elem_of_here.
Defined.

Lemma auto_save_then_load_witness :
  (∅ : gmap string (node value)) !! "config.json" ≠ Some Blocked ∧
  tiles (mkAppState "light" 0 (Some [0; 3]%nat)) = Some [0; 3]%nat ∧
  load Some "linux" "/home/u"
       (_auto_save (λ v, v) demo_store ∅ "config.json"
                   (mkAppState "light" 0 (Some [0; 3]%nat))) "config.json"
  = {| o_theme := VStr "light";
       o_columns := VInt 0;
       o_tiles := [obj_of_tile (demo_store 0%nat); obj_of_tile (demo_store 3%nat)] |}.
Proof.
  assert ((∅ : gmap string (node value)) !! "config.json" ≠ Some Blocked) as Hopen
    by discriminate.
  split; [exact Hopen|]. split; [reflexivity|].
  exact (proj2 (proj2 (auto_save_then_load Some (λ v, v) "linux" "/home/u" demo_store ∅
                         "config.json" (mkAppState "light" 0 (Some [0; 3]%nat)) [0; 3]%nat))
           Hopen eq_refl eq_refl).
Defined.

(** ** Appending a tile *)

Lemma pack_loop_app fuel columns tiles more :
  ∀ (σ : store) (occupancy : gmap (Z * Z) bool) (acc : list position),
    pack_loop fuel columns (tiles ++ more) σ occupancy acc =
    match pack_loop fuel columns tiles σ occupancy acc with
    | Some (σ1, occupancy1, acc1) => pack_loop fuel columns more σ1 occupancy1 acc1
    | None => None
    end.
Proof.
  induction tiles as [|t tiles IH]; intros σ occupancy acc; simpl; [done|].
  destruct (size_span (size (σ t))) as [rspan cspan].
  destruct (first_fit fuel occupancy columns rspan cspan) as [[[r c] occ1]|]; [|done].
  apply IH.
Qed.

Lemma pack_tiles_prefix fuel (σ : store) tiles more columns σ' positions :
  _pack_tiles fuel σ (tiles ++ more) columns = Some (σ', positions) →
  ∃ σ1, _pack_tiles fuel σ tiles columns = Some (σ1, take (length tiles) positions).
Proof.
  intros Hpack. destruct (pack_tiles_loop _ _ _ _ _ _ Hpack) as [occ' Hloop].
  rewrite pack_loop_app in Hloop.
  destruct (pack_loop fuel columns tiles σ ∅ []) as [[[σ1 occ1] acc1]|] eqn:Hfirst;
    [|done].
  destruct (pack_loop_store _ _ _ _ _ _ _ _ _ Hfirst) as (new1 & Hnew1 & Hlen1 & _).
  destruct (pack_loop_store _ _ _ _ _ _ _ _ _ Hloop) as (new2 & Hnew2 & _).
  simpl in Hnew1. subst acc1 positions.
  exists σ1. unfold _pack_tiles. rewrite Hfirst. do 2 f_equal.
  rewrite <- Hlen1, length_fmap. by rewrite take_app_length.
Qed.

Lemma pack_tiles_same_but_position fuel (σ : store) tiles columns σ' positions :
  _pack_tiles fuel σ tiles columns = Some (σ', positions) →
  ∀ l, same_but_position (σ l) (σ' l).
Proof.
  intros Hpack. destruct (pack_tiles_loop _ _ _ _ _ _ Hpack) as [occ' Hloop].
  by destruct (pack_loop_store _ _ _ _ _ _ _ _ _ Hloop) as (_ & _ & _ & Hsame & _).
Qed.

Lemma pack_tiles_fresh_prefix fuel (σ : store) tiles columns (l : loc) (t : Tile)
    σ' positions :
  l ∉ tiles →
  _pack_tiles fuel (<[l := t]> σ) (tiles ++ [l]) columns = Some (σ', positions) →
  ∃ σ1, _pack_tiles fuel σ tiles columns = Some (σ1, take (length tiles) positions).
Proof.
  intros Hl Hpack.
  destruct (pack_tiles_prefix _ _ _ _ _ _ _ Hpack) as [σ1 Hprefix].
  destruct (pack_tiles_loop _ _ _ _ _ _ Hprefix) as [occ1 Hloop].
  assert (Forall (λ l', size ((<[l := t]> σ) l') = size (σ l')) tiles) as Hsz.
  { apply Forall_forall. intros l' Hl'. unfold insert, fn_insert.
    rewrite decide_False; [done|]. by intros ->. }
  destruct (pack_loop_sizes _ _ _ _ _ _ _ _ _ _ Hsz Hloop) as [σ2 Hloop2].
  exists σ2. unfold _pack_tiles. by rewrite Hloop2.
Qed.

Lemma rebuild_fresh_prefix fuel (σ : store) tiles columns (l : loc) (t : Tile)
    σ' buttons :
  l ∉ tiles →
  rebuild fuel (<[l := t]> σ) (tiles ++ [l]) columns = Some (σ', buttons) →
  ∃ σ1,
    rebuild fuel σ tiles columns = Some (σ1, take (length tiles) buttons) ∧
    (NoDup tiles →
     ∀ t', t' ∈ tiles → row (σ' t') = row (σ1 t') ∧ col (σ' t') = col (σ1 t')).
Proof.
  intros Hl Hre. destruct (rebuild_positions _ _ _ _ _ _ Hre) as (positions & Hpack & ->).
  destruct (pack_tiles_fresh_prefix _ _ _ _ _ _ _ _ Hl Hpack) as [σ1 Hpre].
  pose proof (pack_tiles_placed _ _ _ _ _ _ Hpre) as [Horder _].
  pose proof (pack_tiles_same_but_position _ _ _ _ _ _ Hpre) as Hsame1.
  pose proof (pack_tiles_same_but_position _ _ _ _ _ _ Hpack) as Hsame.
  exists σ1. split.
  - unfold rebuild. rewrite Hpre. do 2 f_equal. rewrite <- fmap_take.
    apply list_fmap_ext. intros i [t' [[[r c] rs] cs]] Hi. f_equal.
    assert (t' ∈ tiles) as Hin.
    { rewrite <- Horder. apply list_elem_of_fmap. eexists. split; [|by eapply list_elem_of_lookup_2].
      done. }
    unfold tile_pixel_size.
    destruct (Hsame1 t') as (_ & _ & _ & _ & _ & _ & ->).
    destruct (Hsame t') as (_ & _ & _ & _ & _ & _ & ->).
    unfold insert, fn_insert. rewrite decide_False; [done|]. by intros ->.
  - intros Hnd t' Hin.
    assert (t' ∈ (take (length tiles) positions).*1) as Hin' by (by rewrite Horder).
    apply list_elem_of_fmap in Hin' as ([t'' [[[r c] rs] cs]] & Heq & Hp). simpl in Heq.
    subst t''.
    destruct (pack_tiles_written _ _ _ _ _ _ _ _ _ _ _ Hpre Hnd Hp) as [-> ->].
    apply elem_of_take in Hp as (i & Hp & _). apply list_elem_of_lookup_2 in Hp.
    eapply (pack_tiles_written _ _ _ _ _ _ _ _ _ _ _ Hpack);
      [by apply NoDup_snoc_fresh|exact Hp].
Qed.

(** X19.  Tiles at the end of the list do not move the tiles before them:
    the positions of a list followed by more tiles begin with the
    positions of the list alone.  So after [add_tile] and after
    [duplicate_tile] every tile that was there keeps its position: the
    packer run on the lengthened list gives the old tiles the positions it
    gives them in the list alone, and the buttons the whole method leaves
    begin with the buttons of a rebuild of the list alone, so that every
    old tile has the row and the column such a rebuild writes. *)
Theorem appended_tiles_keep_positions fuel (σ : store) (tiles : list loc) (columns : Z) :
  (∀ more σ' positions,
     _pack_tiles fuel σ (tiles ++ more) columns = Some (σ', positions) →
     ∃ σ1, _pack_tiles fuel σ tiles columns = Some (σ1, take (length tiles) positions)) ∧
  (∀ now strip form σ' positions,
     _pack_tiles fuel (add_tile_append now strip form σ tiles).1
                 (add_tile_append now strip form σ tiles).2 columns
     = Some (σ', positions) →
     ∃ σ1, _pack_tiles fuel σ tiles columns = Some (σ1, take (length tiles) positions)) ∧
  (∀ now tile σd tilesd σ' positions,
     duplicate_tile_append now σ tiles tile = Some (σd, tilesd) →
     _pack_tiles fuel σd tilesd columns = Some (σ', positions) →
     ∃ σ1, _pack_tiles fuel σ tiles columns = Some (σ1, take (length tiles) positions)) ∧
  (∀ now strip form σ' tiles' buttons,
     add_tile fuel true now strip form σ tiles columns = Some (σ', tiles', Some buttons) →
     ∃ σ1,
       rebuild fuel σ tiles columns = Some (σ1, take (length tiles) buttons) ∧
       (NoDup tiles →
        ∀ t, t ∈ tiles → row (σ' t) = row (σ1 t) ∧ col (σ' t) = col (σ1 t))) ∧
  (∀ now tile σ' tiles' buttons,
     duplicate_tile fuel now σ tiles tile columns = Some (σ', tiles', buttons) →
     ∃ σ1,
       rebuild fuel σ tiles columns = Some (σ1, take (length tiles) buttons) ∧
       (NoDup tiles →
        ∀ t, t ∈ tiles → row (σ' t) = row (σ1 t) ∧ col (σ' t) = col (σ1 t))).
Proof.
  split; [|split; [|split; [|split]]].
  - intros more σ' positions. apply pack_tiles_prefix.
  - intros now strip form σ' positions. unfold add_tile_append. simpl.
    apply pack_tiles_fresh_prefix, fresh_loc_new.
  - intros now tile σd tilesd σ' positions. rewrite duplicate_tile_result.
    intros [= <- <-]. apply pack_tiles_fresh_prefix. intros Hin.
    apply (fresh_loc_new (tile :: tiles)). by apply list_elem_of_further.
  - intros now strip form σ' tiles' buttons. rewrite add_tile_unfold.
    destruct (rebuild fuel _ (tiles ++ [fresh_loc tiles]) columns)
      as [[σ2 buttons2]|] eqn:Hre; [|done].
    intros [= <- _ <-]. eapply rebuild_fresh_prefix; [apply fresh_loc_new|exact Hre].
  - intros now tile σ' tiles' buttons. rewrite duplicate_tile_unfold.
    destruct (rebuild fuel _ (tiles ++ [fresh_loc (tile :: tiles)]) columns)
      as [[σ2 buttons2]|] eqn:Hre; [|done].
    intros [= <- _ <-]. eapply rebuild_fresh_prefix; [|exact Hre]. intros Hin.
    apply (fresh_loc_new (tile :: tiles)). by apply list_elem_of_further.
Qed.

Lemma appended_tiles_keep_positions_witness :
  ∃ σd σ' σ1,
    duplicate_tile_append 1700000000 demo_store [0; 1; 2; 3; 4]%nat 3%nat
    = Some (σd, [0; 1; 2; 3; 4; 5]%nat) ∧
    _pack_tiles 4 σd [0; 1; 2; 3; 4; 5]%nat 4
    = Some (σ', demo_positions ++ [(5%nat, (2, 2, 2, 2))]) ∧
    _pack_tiles 4 demo_store [0; 1; 2; 3; 4]%nat 4 = Some (σ1, demo_positions).
Proof.
  assert (∃ σ', _pack_tiles 4
            (<[5%nat := set_id (demo_store 3%nat) (tile_id 1700000000)]> demo_store)
            [0; 1; 2; 3; 4; 5]%nat 4
          = Some (σ', demo_positions ++ [(5%nat, (2, 2, 2, 2))])) as [σ' Hpack]
    by (eexists; vm_compute; reflexivity).
  destruct (appended_tiles_keep_positions 4 demo_store [0; 1; 2; 3; 4]%nat 4)
    as (_ & _ & Hdup & _).
  destruct (Hdup 1700000000 3%nat
              (<[5%nat := set_id (demo_store 3%nat) (tile_id 1700000000)]> demo_store)
              [0; 1; 2; 3; 4; 5]%nat σ' _ eq_refl Hpack) as [σ1 Hkept].
  exists (<[5%nat := set_id (demo_store 3%nat) (tile_id 1700000000)]> demo_store), σ', σ1.
  split; [reflexivity|]. split; [exact Hpack|exact Hkept].
Defined.

(** ** Worked instances *)

Lemma pack_tiles_returns_iff_witness :
  Forall (λ t, colspan (demo_store t) ≤ 4) [0; 1; 2; 3; 4]%nat ∧
  (∃ fuel, is_Some (_pack_tiles fuel demo_store [0; 1; 2; 3; 4]%nat 4)) ∧
  ¬ (∃ fuel, is_Some (_pack_tiles fuel demo_store [0; 1; 2; 3; 4]%nat 1)).
Proof.
  split; [exact demo_colspans|]. split.
  - exact (proj2 (pack_tiles_returns_iff demo_store [0; 1; 2; 3; 4]%nat 4) demo_colspans).
  - intros Hsome.
    apply (proj1 (pack_tiles_returns_iff demo_store [0; 1; 2; 3; 4]%nat 1)) in Hsome.
    apply Forall_cons in Hsome as [Hwide _]. vm_compute in Hwide. by apply Hwide.
Defined.


Lemma demo_five_distinct : NoDup [0; 1; 2; 3; 4]%nat.
Proof. apply (bool_decide_unpack (NoDup [0; 1; 2; 3; 4]%nat)). vm_compute. exact I. Qed.

(** The copy of the large clock tile goes to row 2, column 2; the clock
    itself stays at row 1, column 0. *)
Lemma duplicate_tile_copies_witness :
  Forall (λ t, colspan (demo_store t) ≤ 4) (3%nat :: [0; 1; 2; 3; 4]%nat) ∧
  NoDup [0; 1; 2; 3; 4]%nat ∧
  (∃ fuel0 σ' l buttons, ∀ fuel, (fuel0 ≤ fuel)%nat →
     duplicate_tile fuel 1700000000 demo_store [0; 1; 2; 3; 4]%nat 3%nat 4
     = Some (σ', [0; 1; 2; 3; 4]%nat ++ [l], buttons)) ∧
  ∃ σ' buttons,
    duplicate_tile 4 1700000000 demo_store [0; 1; 2; 3; 4]%nat 3%nat 4
    = Some (σ', [0; 1; 2; 3; 4; 5]%nat, buttons) ∧
    id (σ' 5%nat) = "tile_1700000000" ∧ title (σ' 5%nat) = "Clock" ∧
    size (σ' 5%nat) = "large" ∧
    b_tile <$> buttons = [0; 1; 2; 3; 4; 5]%nat ∧
    (row (σ' 5%nat), col (σ' 5%nat)) ≠ (row (σ' 3%nat), col (σ' 3%nat)) ∧
    row (σ' 5%nat) = 2 ∧ col (σ' 5%nat) = 2 ∧
    row (σ' 3%nat) = 1 ∧ col (σ' 3%nat) = 0.
Proof.
  assert (Forall (λ t, colspan (demo_store t) ≤ 4) (3%nat :: [0; 1; 2; 3; 4]%nat)) as Hall
    by (apply Forall_cons; split; [vm_compute; discriminate|exact demo_colspans]).
  destruct (duplicate_tile_copies 1700000000 demo_store [0; 1; 2; 3; 4]%nat 3%nat 4)
    as [Hreturns Hfacts].
  split; [exact Hall|]. split; [exact demo_five_distinct|].
  split; [exact (Hreturns Hall)|].
  assert (match duplicate_tile 4 1700000000 demo_store [0; 1; 2; 3; 4]%nat 3%nat 4 with
          | Some (σ', tiles', _) =>
              Some (tiles', row (σ' 5%nat), col (σ' 5%nat), row (σ' 3%nat), col (σ' 3%nat))
          | None => None
          end = Some ([0; 1; 2; 3; 4; 5]%nat, 2, 2, 1, 0)) as Hrun
    by (vm_compute; reflexivity).
  destruct (duplicate_tile 4 1700000000 demo_store [0; 1; 2; 3; 4]%nat 3%nat 4)
    as [[[σ' tiles'] buttons]|] eqn:Hfull; [|discriminate].
  injection Hrun as -> Hr5 Hc5 Hr3 Hc3.
  destruct (Hfacts 4%nat σ' _ buttons Hfull)
    as (l & Htiles & _ & _ & Hid & Htitle & _ & _ & _ & _ & Hsize & _ & _ & Hbuttons
        & _ & Hapart).
  assert (l = 5%nat) as -> by (simpl in Htiles; by injection Htiles).
  exists σ', buttons. split; [reflexivity|]. split; [exact Hid|].
  split; [exact Htitle|]. split; [exact Hsize|]. split; [exact Hbuttons|].
  split; [apply (Hapart demo_five_distinct); by do 3 apply list_elem_of_further;
          apply list_elem_of_here|].
  done.
Defined.

(** Two copies of the documents tile made in one second: the second copy
    is found at the index of the first, and deleting it deletes both. *)
Lemma duplicates_share_id_witness :
  tile_id 1700000000 ≠ tile_id 1700000001 ∧
  (∃ σ2 l1 l2,
     l1 ≠ l2 ∧ id (σ2 l1) = id (σ2 l2) ∧
     (l1 ∉ (delete_tile true σ2 (([0; 1]%nat ++ [l1]) ++ [l2]) l2).1)) ∧
  ∃ σ1 buttons1 σ2 buttons2,
    duplicate_tile 3 1700000000 demo_store [0; 1]%nat 1%nat 4
    = Some (σ1, [0; 1; 2]%nat, buttons1) ∧
    duplicate_tile 3 1700000000 σ1 [0; 1; 2]%nat 1%nat 4
    = Some (σ2, [0; 1; 2; 3]%nat, buttons2) ∧
    id (σ2 2%nat) = id (σ2 3%nat) ∧
    _index_of σ2 [0; 1; 2; 3]%nat 3%nat = Some 2 ∧
    (delete_tile true σ2 [0; 1; 2; 3]%nat 3%nat).1 = [0; 1]%nat.
Proof.
  destruct (duplicates_share_id 1700000000 demo_store [0; 1]%nat 1%nat)
    as (Hinj & (σa & σb & l1 & l2 & _ & _ & Hne & Hid1 & Hid2 & _ & Hgone & _) & Hcalls).
  split; [|split].
  - intros Heq. apply Hinj in Heq. discriminate.
  - exists σb, l1, l2. split; [exact Hne|]. split; [congruence|exact Hgone].
  - assert (∃ σ1 buttons1,
      duplicate_tile 3 1700000000 demo_store [0; 1]%nat 1%nat 4
      = Some (σ1, [0; 1; 2]%nat, buttons1) ∧
      ∃ σ2 buttons2,
        duplicate_tile 3 1700000000 σ1 [0; 1; 2]%nat 1%nat 4
        = Some (σ2, [0; 1; 2; 3]%nat, buttons2) ∧
        _index_of σ2 [0; 1; 2; 3]%nat 3%nat = Some 2 ∧
        (delete_tile true σ2 [0; 1; 2; 3]%nat 3%nat).1 = [0; 1]%nat)
      as (σ1 & buttons1 & Hfirst & σ2 & buttons2 & Hsecond & Hindex & Hdelete).
    { eexists _, _. split; [vm_compute; reflexivity|].
      eexists _, _. split; [vm_compute; reflexivity|].
      split; vm_compute; reflexivity. }
    destruct (Hcalls 3%nat 4 σ1 _ buttons1 σ2 _ buttons2 Hfirst Hsecond)
      as (l1' & l2' & Ht1 & Ht2 & _ & Hid1' & Hid2' & _).
    assert (l1' = 2%nat) as -> by (simpl in Ht1; by injection Ht1).
    assert (l2' = 3%nat) as -> by (simpl in Ht2; by injection Ht2).
    exists σ1, buttons1, σ2, buttons2.
    split; [exact Hfirst|]. split; [exact Hsecond|].
    split; [congruence|]. split; [exact Hindex|exact Hdelete].
Defined.


Lemma toggle_theme_flips_witness :
  toggle_theme (toggle_theme (mkAppState "light" 4 None)) = mkAppState "light" 4 None ∧
  toggle_theme (toggle_theme (mkAppState "blue" 4 None)) ≠ mkAppState "blue" 4 None ∧
  apply_theme (theme (toggle_theme (mkAppState "blue" 4 None))) ≠ apply_theme "blue".
Proof.
  destruct (toggle_theme_flips (mkAppState "light" 4 None)) as (_ & _ & Hback & _).
  destruct (toggle_theme_flips (mkAppState "blue" 4 None)) as (_ & Hflip & Hback' & _).
  split; [apply Hback; by right|]. split; [|exact Hflip].
  intros Heq. apply Hback' in Heq as [Heq|Heq]; discriminate.
Defined.
